(** * Traceability matrix rendering: [mlx.traceable_base_node] and
      [mlx.directives.item_matrix_directive]

    A shallow embedding of the two Python modules and the properties of the
    item matrix they render.  Python objects of the host framework (docutils
    nodes, the Sphinx application, the item collection) are embedded as plain
    data; Python exceptions and the warning log are threaded through a small
    state-and-error monad. *)

From Stdlib Require Import ZArith Lia List String Ascii Bool.
From Stdlib Require Import Numbers.DecimalString Floats.SpecFloat.
From stdpp Require Import base option list gmap strings.

Local Open Scope string_scope.
Local Open Scope list_scope.

(** ** Python strings *)

Module Str.

(** [str(n)] for a non-negative int. *)
Definition of_nat (n : nat) : string := NilEmpty.string_of_uint (Nat.to_uint n).

(** [str(z)] for an int. *)
Definition of_Z (z : Z) : string := NilEmpty.string_of_int (Z.to_int z).

(** [s.startswith(p)] *)
Fixpoint startswith (p s : string) : bool :=
  match p, s with
  | EmptyString, _ => true
  | String a p', String b s' => if Ascii.eqb a b then startswith p' s' else false
  | String _ _, EmptyString => false
  end.

(** [s.replace(old, new)] for a non-empty [old]: every non-overlapping
    occurrence, scanning from the left.  [skip] counts the characters of an
    occurrence that was just replaced and still has to be dropped. *)
Fixpoint replace_from (old new s : string) (skip : nat) : string :=
  match s with
  | EmptyString => EmptyString
  | String c s' =>
      match skip with
      | S k => replace_from old new s' k
      | O =>
          if startswith old s
          then new +:+ replace_from old new s' (String.length old - 1)
          else String c (replace_from old new s' 0)
      end
  end.

Definition replace (old new s : string) : string := replace_from old new s 0.

(** [s.split(sep)] for a one-character separator; [cur] is the field being
    read, in reverse. *)
Fixpoint split_from (sep : ascii) (s : string) (cur : string) : list string :=
  match s with
  | EmptyString => [String.rev cur]
  | String c s' =>
      if Ascii.eqb c sep
      then String.rev cur :: split_from sep s' EmptyString
      else split_from sep s' (String c cur)
  end.

Definition split (sep : ascii) (s : string) : list string := split_from sep s EmptyString.

End Str.

(** ** docutils nodes

    [docutils.nodes] belongs to the host framework.  A node is either a
    [Text] leaf or an element with a class, its [rawsource], an attribute
    dictionary and a list of children.  Parent pointers are not represented:
    none of the embedded code reads them. *)

Set Warnings "-register-all".

Module nodes.

Inductive attr_value :=
| AStr (s : string)
| AInt (z : Z)
| AList (l : list string).

(** The node classes this code instantiates. *)
Inductive node_class :=
| container | admonition | title | table | tgroup | colspec | thead | tbody
| row | entry | paragraph | reference | emphasis | inline | target.

Inductive node :=
| Text (data : string)
| Element (cls : node_class) (rawsource : string)
          (attributes : gmap string attr_value) (children : list node).

#[global] Instance node_class_eq_dec : EqDecision node_class.
Proof. solve_decision. Defined.

#[global] Instance attr_value_eq_dec : EqDecision attr_value.
Proof. solve_decision. Defined.


(** [Element.list_attributes]: every new element carries them, empty. *)
Definition list_attributes : list string :=
  ["ids"; "classes"; "names"; "dupnames"; "backrefs"].

Definition default_attributes : gmap string attr_value :=
  list_to_map (map (fun a => (a, AList [])) list_attributes).

(** [Element(rawsource, *children, **attributes)] *)
Definition element (c : node_class) (rawsource : string) (children : list node)
           (attributes : list (string * attr_value)) : node :=
  Element c rawsource (list_to_map attributes ∪ default_attributes) children.

(** [TextElement(rawsource, text, *children, **attributes)]: a [Text] child
    is created only for a non-empty [text]. *)
Definition text_element (c : node_class) (rawsource text : string)
           (children : list node) (attributes : list (string * attr_value)) : node :=
  if String.eqb text "" then element c rawsource children attributes
  else element c rawsource (Text text :: children) attributes.

Definition children (n : node) : list node :=
  match n with
  | Text _ => []
  | Element _ _ _ ch => ch
  end.

Definition class_of (n : node) : option node_class :=
  match n with
  | Text _ => None
  | Element c _ _ _ => Some c
  end.

Definition get (n : node) (key : string) : option attr_value :=
  match n with
  | Text _ => None
  | Element _ _ attrs _ => attrs !! key
  end.

(** [n.append(child)] *)
Definition append (n child : node) : node :=
  match n with
  | Text _ => n
  | Element c r attrs ch => Element c r attrs (ch ++ [child])
  end.

(** [n.extend(l)] *)
Definition extend (n : node) (l : list node) : node :=
  match n with
  | Text _ => n
  | Element c r attrs ch => Element c r attrs (ch ++ l)
  end.

(** [n += other] with [other] a node or [None]: [Element.__iadd__] appends a
    node and leaves [n] alone for [None]. *)
Definition iadd (n : node) (other : option node) : node :=
  match other with
  | Some child => append n child
  | None => n
  end.

(** [n[key] = v] *)
Definition set (n : node) (key : string) (v : attr_value) : node :=
  match n with
  | Text _ => n
  | Element c r attrs ch => Element c r (<[key := v]> attrs) ch
  end.

(** [n[key].append(x)] and [n.get(key).extend(l)] on a list attribute *)
Definition extend_attr (n : node) (key : string) (l : list string) : node :=
  match n with
  | Text _ => n
  | Element c r attrs ch =>
      match attrs !! key with
      | Some (AList l0) => Element c r (<[key := AList (l0 ++ l)]> attrs) ch
      | _ => n
      end
  end.

End nodes.

Abbreviation node := nodes.node.
Abbreviation Text := nodes.Text.
Abbreviation Element := nodes.Element.
Abbreviation AStr := nodes.AStr.
Abbreviation AInt := nodes.AInt.
Abbreviation AList := nodes.AList.

(** ** Exceptions, warnings and the effect monad *)

Inductive exn :=
| KeyError (key : string)
| AttributeError (attribute : string)
| IndexError
| ZeroDivisionError
| OverflowError
| ValueError.

(** One call of [report_warning(msg, docname, lineno)]. *)
Record warning := Warning {
  w_msg : string;
  w_docname : string;
  w_lineno : Z;
}.

(** What a run changes outside its return value: the warning log and the
    calls of [replace_self], each recorded with the node handed over. *)
Record world := World {
  warnings : list warning;
  replaced : list node;
}.

Definition M (A : Type) : Type := world -> (exn + A) * world.

#[global] Instance M_ret : MRet M := fun A a w => (inr a, w).

#[global] Instance M_bind : MBind M := fun A B k m w =>
  match m w with
  | (inl e, w') => (inl e, w')
  | (inr a, w') => k a w'
  end.

Definition raise {A : Type} (e : exn) : M A := fun w => (inl e, w).

(** [try: body except ...: handler]; the handler re-raises what it does not
    catch. *)
Definition try_except {A : Type} (body : M A) (handler : exn -> M A) : M A := fun w =>
  match body w with
  | (inl e, w') => handler e w'
  | (inr a, w') => (inr a, w')
  end.

(** Lift a pure computation that may raise. *)
Definition lift {A : Type} (r : exn + A) : M A := fun w => (r, w).

(** Modelled from the spec: [report_warning] is defined in
    [mlx.traceability_exception], which is not among the sources; the spec
    only speaks of "warnings", so a call is recorded in the log and nothing
    else happens. *)
Definition report_warning (msg docname : string) (lineno : Z) : M unit := fun w =>
  (inr tt, World (warnings w ++ [Warning msg docname lineno]) (replaced w)).

(** [node.replace_self(new)]: the host swaps the node for [new] in the
    document tree. *)
Definition replace_self (new : node) : M unit := fun w =>
  (inr tt, World (warnings w) (replaced w ++ [new])).

(** [for x in l: state = body(state, x)] *)
Fixpoint for_each {A S : Type} (l : list A) (body : S -> A -> M S) (s : S) : M S :=
  match l with
  | [] => mret s
  | x :: l' => s' ← body s x; for_each l' body s'
  end.

(** [enumerate(l)] *)
Definition enumerate {A : Type} (l : list A) : list (nat * A) :=
  combine (seq 0 (length l)) l.

(** ** Python floats

    [int / int] yields a binary64 float.  For operands below [2^53] in
    magnitude CPython converts both to doubles, which is exact, and divides
    them; that is the path embedded here and the range in which the
    statements about it are made. *)

Module Float.

Definition prec : Z := 53.
Definition emax : Z := 1024.

Definition of_int (z : Z) : spec_float := binary_normalize prec emax z 0 false.

(** [a / b] on ints *)
Definition true_div (a b : Z) : exn + spec_float :=
  if (b =? 0)%Z then inl ZeroDivisionError
  else inr (SFdiv prec emax (of_int a) (of_int b)).

(** [int(x)]: truncation toward zero *)
Definition to_int (x : spec_float) : exn + Z :=
  match x with
  | S754_zero _ => inr 0%Z
  | S754_infinity _ => inl OverflowError
  | S754_nan => inl ValueError
  | S754_finite s m e =>
      let a := match e with
               | Z0 => Zpos m
               | Zpos p => (Zpos m * 2 ^ Zpos p)%Z
               | Zneg p => (Zpos m / 2 ^ Zpos p)%Z
               end in
      inr (if s then (- a)%Z else a)
  end.

(** What a rounding location says about the remainder [r] of a division by
    [D]: it is zero, or it compares to half of [D] as recorded. *)
Definition loc_spec (loc : location) (r D : Z) : Prop :=
  match loc with
  | loc_Exact => r = 0%Z
  | loc_Inexact c => (0 < r)%Z /\ (2 * r ?= D)%Z = c
  end.

End Float.

(** ** The host: items, collection, configuration, builder *)

(** Services of Python and docutils the code calls. *)
Class Host := {
  (** [re.match(pattern, s)] found a match *)
  re_match : string -> string -> bool;
  (** [re.search(pattern, s)] found a match *)
  re_search : string -> string -> bool;
  (** [docutils.nodes.make_id] *)
  make_id : string -> string;
  (** how [str.format] prints a list of strings *)
  format_list : list string -> string;
  (** [directives.choice(argument, values)]; [None] for its [ValueError] *)
  choice : option string -> list string -> option string;
}.

Module TraceableItem.
Record t := {
  get_id : string;
  docname : string;
  caption : option string;
  is_placeholder : bool;
  iter_targets : string -> list string;
}.
End TraceableItem.

(** What the code reads of a [TraceableAttribute]: its name and the document
    that defines it, [None] when no document does. *)
Module TraceableAttribute.
Record t := {
  get_name : string;
  docname : option string;
}.
End TraceableAttribute.

(** The queries of [TraceableCollection] used here.  The collection is built
    elsewhere; a dictionary returned by it is given as its [items()]. *)
Module TraceableCollection.
Record t := {
  (** [get_items(regex, attributes=None)] *)
  get_items : string -> option (list (string * string)) -> list string;
  get_item : string -> option TraceableItem.t;
  iter_relations : list string;
  are_related : string -> list string -> string -> bool;
  get_external_targets : string -> string -> list (string * list string);
}.
End TraceableCollection.

Record Config := {
  traceability_notifications : gmap string string;
  (** an ordered dictionary: regex to colours *)
  traceability_hyperlink_colors : list (string * list string);
  traceability_class_names : gmap (list string) string;
  traceability_external_relationship_to_url : gmap string string;
  traceability_matrix_no_captions : bool;
}.

Record Builder := {
  (** [None] stands for the [NoUri] exception *)
  get_relative_uri : string -> string -> option string;
  (** [isinstance(builder, LaTeXBuilder)] *)
  is_latex : bool;
}.

(** [app.env] and [app.builder.env] are the same environment. *)
Record App := {
  config : Config;
  builder : Builder;
  traceability_collection : TraceableCollection.t;
}.

(** The attributes of an [ItemMatrix] node: [attr.target self] is
    [self['target']]. *)
Module attr.
Record t := {
  document : string;
  line : Z;
  classes : list string;
  title : string;
  target : list string;
  source : string;
  filter_attributes : list (string * string);
  targettitle : list string;
  sourcetitle : string;
  type : list string;
  group : string;
  stats : bool;
  nocaptions : bool;
}.
End attr.

(** ** [mlx.traceable_base_node] *)

Module TraceableBaseNode.
Section TraceableBaseNode.
Context `{Host}.

Definition EXTERNAL_LINK_FIELDNAME : string := "field".

(** [REGEXP_EXTERNAL_RELATIONSHIP = re.compile('^ext_.*')] *)
Definition REGEXP_EXTERNAL_RELATIONSHIP : string := "^ext_.*".

(** Modelled from the spec: [is_relation_external] is called by
    [perform_replacement] but is not among the sources.  An external
    relationship is one whose id matches ['^ext_.*'], that is, whose id
    starts with [ext_]. *)
Definition is_relation_external (relation : string) : bool :=
  Str.startswith "ext_" relation.

(** [_find_colors_for_class(hyperlink_colors, item_id)]: the colours of the
    first regex that is found in [item_id]. *)
Fixpoint _find_colors_for_class (hyperlink_colors : list (string * list string))
         (item_id : string) : option (list string) :=
  match hyperlink_colors with
  | [] => None
  | (regex, colors) :: rest =>
      if re_search regex item_id then Some colors
      else _find_colors_for_class rest item_id
  end.

(** [_get_caption_info(item_info, show_caption)] *)
Definition _get_caption_info (item_info : TraceableItem.t) (show_caption : bool)
  : string * option node :=
  match TraceableItem.caption item_info with
  | Some c =>
      if String.eqb c "" then ("", None)
      else if show_caption then (" : " +:+ c, None)
      else ("", Some (nodes.extend_attr
                        (nodes.text_element nodes.inline "" c [] [])
                        "classes" ["popup_caption"]))
  | None => ("", None)
  end.

(** [has_warned_about_undefined(self, item_info)] *)
Definition has_warned_about_undefined (self : attr.t) (item_info : TraceableItem.t)
  : M bool :=
  if TraceableItem.is_placeholder item_info then
    _ ← report_warning
          ("Traceability: cannot link to '" +:+ TraceableItem.get_id item_info
             +:+ "', item is not defined")
          (attr.document self) (attr.line self);
    mret true
  else mret false.

(** [make_internal_item_ref(self, app, item_id, show_caption=True)].
    [get_item] gives [None] for an unknown id, and for the id [None] that
    [traceability_notifications.get] returns without a configured entry.
    [finish] is the code after the placeholder test; it receives
    [notification_item] with its id, or [None]. *)
Definition make_internal_item_ref (self : attr.t) (app : App) (item_id : string)
           (show_caption : bool) : M node :=
  let collection := traceability_collection app in
  match TraceableCollection.get_item collection item_id with
  | None => raise (AttributeError "is_placeholder")
  | Some item_info =>
      let p_node := nodes.element nodes.paragraph "" [] [] in
      let finish (notification_item : option (string * TraceableItem.t)) : M node :=
        let '(caption, caption_on_hover) := _get_caption_info item_info show_caption in
        let newnode := nodes.text_element nodes.reference "" "" [] [] in
        let innernode :=
          nodes.text_element nodes.emphasis (item_id +:+ caption) (item_id +:+ caption) [] [] in
        (* try: ... except NoUri: pass *)
        let newnode :=
          match notification_item with
          | None =>
              match get_relative_uri (builder app) (attr.document self)
                      (TraceableItem.docname item_info) with
              | Some uri =>
                  nodes.set (nodes.set newnode "refuri" (AStr (uri +:+ "#" +:+ item_id)))
                    "refdocname" (AStr (TraceableItem.docname item_info))
              | None => newnode
              end
          | Some (notification_item_id, notification_item) =>
              match get_relative_uri (builder app) (attr.document self)
                      (TraceableItem.docname notification_item) with
              | Some uri =>
                  nodes.set
                    (nodes.set newnode "refuri" (AStr (uri +:+ "#" +:+ notification_item_id)))
                    "refdocname" (AStr (TraceableItem.docname notification_item))
              | None => newnode
              end
          end in
        newnode ←
          match _find_colors_for_class (traceability_hyperlink_colors (config app)) item_id with
          | Some (c :: cs) =>
              match traceability_class_names (config app) !! (c :: cs) with
              | Some class_name => mret (nodes.extend_attr newnode "classes" [class_name])
              | None => raise (KeyError "traceability_class_names")
              end
          | _ => mret newnode
          end;
        let innernode :=
          match caption_on_hover with
          | Some hover =>
              if is_latex (builder app) then innernode
              else nodes.append (nodes.extend_attr innernode "classes" ["has_hidden_caption"]) hover
          | None => innernode
          end in
        let newnode := nodes.append newnode innernode in
        mret (nodes.iadd p_node (Some newnode)) in
      if TraceableItem.is_placeholder item_info then
        let notification_item_id :=
          traceability_notifications (config app) !! "undefined-reference" in
        let notification_item :=
          nid ← notification_item_id;
          it ← TraceableCollection.get_item collection nid;
          Some (nid, it) in
        match notification_item with
        | None =>
            _ ← has_warned_about_undefined self item_info;
            let txt := Text (item_id +:+ " not defined, broken link") in
            mret (nodes.append p_node txt)
        | Some _ => finish notification_item
        end
      else finish None
  end.

(** The loop of [make_external_item_ref]: [cnt] is incremented before it is
    used, and each field is substituted in the url left by the previous
    ones. *)
Definition substitute_fields (url : string) (tgt_strs : list string) : string :=
  snd (fold_left
         (fun '(cnt, url) tgt_str =>
            let cnt := S cnt in
            (cnt, Str.replace (EXTERNAL_LINK_FIELDNAME +:+ Str.of_nat cnt) tgt_str url))
         tgt_strs (0, url)).

(** [make_external_item_ref(app, target_text, relationship)]; [None] is
    Python's [None]. *)
Definition make_external_item_ref (app : App) (target_text relationship : string)
  : option node :=
  match traceability_external_relationship_to_url (config app) !! relationship with
  | None => None
  | Some url =>
      let p_node := nodes.element nodes.paragraph "" [] [] in
      let link := nodes.text_element nodes.reference "" "" [] [] in
      let txt := Text target_text in
      let tgt_strs := Str.split ":" target_text in
      let url := substitute_fields url tgt_strs in
      let link := nodes.set link "refuri" (AStr url) in
      let link := nodes.append link txt in
      let targetid := make_id target_text in
      let target := nodes.text_element nodes.target "" "" [] [("ids", AList [targetid])] in
      let p_node := nodes.iadd p_node (Some target) in
      let p_node := nodes.iadd p_node (Some link) in
      Some p_node
  end.

(** [create_top_node(self, title, app=None)] *)
Definition create_top_node (self : attr.t) (title : string) (app : option App) : M node :=
  let top_node := nodes.element nodes.container "" [] [] in
  let admon_node := nodes.element nodes.admonition "" [] [] in
  let admon_node := nodes.extend_attr admon_node "classes" ["item"] in
  let title_node := nodes.text_element nodes.title "" "" [] [] in
  title_node ←
    match app with
    | Some app =>
        let showcaptions := negb (attr.nocaptions self) in
        p ← make_internal_item_ref self app title showcaptions;
        match nodes.children p with
        | first :: _ => mret (nodes.iadd title_node (Some first))
        | [] => raise IndexError
        end
    | None => mret (nodes.iadd title_node (Some (Text title)))
    end;
  let admon_node := nodes.iadd admon_node (Some title_node) in
  mret (nodes.iadd top_node (Some admon_node)).

(** [is_item_top_level(self, env, item_id)].  [top_relation_filter] and [top]
    are [self['top_relation_filter']] and [self['top']], and [collection] is
    [env.traceability_collection].  The item is looked up before the loop
    and used inside it only, so that an unknown id raises when there is a
    relation to go through and not otherwise; the inner loop returns [False]
    at the first target that matches. *)
Fixpoint is_item_top_level (top_relation_filter : list string) (top : string)
         (collection : TraceableCollection.t) (item_id : string) : exn + bool :=
  match top_relation_filter with
  | [] => inr true
  | relation :: rest =>
      match TraceableCollection.get_item collection item_id with
      | None => inl (AttributeError "iter_targets")
      | Some item =>
          if existsb (re_match top) (TraceableItem.iter_targets item relation)
          then inr false
          else is_item_top_level rest top collection item_id
      end
  end.

(** [make_attribute_ref(self, app, attr_id, value='')];
    [defined_attributes] is the class dictionary
    [TraceableItem.defined_attributes].  [refdocname] is set before the
    [try], [refuri] inside it. *)
Definition make_attribute_ref (defined_attributes : gmap string TraceableAttribute.t)
           (self : attr.t) (app : App) (attr_id value : string) : node :=
  let p_node := nodes.element nodes.paragraph "" [] [] in
  let value := if String.eqb value "" then value else ": " +:+ value in
  let newnode :=
    match defined_attributes !! attr_id with
    | Some attr_info =>
        let attr_name := TraceableAttribute.get_name attr_info in
        match TraceableAttribute.docname attr_info with
        | Some (String a d) =>
            let docname := String a d in
            let newnode := nodes.text_element nodes.reference "" "" [] [] in
            let innernode :=
              nodes.text_element nodes.emphasis (attr_name +:+ value) (attr_name +:+ value)
                [] [] in
            let newnode := nodes.set newnode "refdocname" (AStr docname) in
            (* try: ... except NoUri: pass *)
            let newnode :=
              match get_relative_uri (builder app) (attr.document self) docname with
              | Some uri =>
                  nodes.set newnode "refuri"
                    (AStr (uri +:+ "#" +:+ TraceableAttribute.get_name attr_info))
              | None => newnode
              end in
            nodes.append newnode innernode
        | _ => Text (TraceableAttribute.get_name attr_info +:+ value)
        end
    | None => Text (attr_id +:+ value)
    end in
  nodes.iadd p_node (Some newnode).

End TraceableBaseNode.
End TraceableBaseNode.

(** ** [mlx.directives.item_matrix_directive] *)

(** [group(argument)]: the conversion function of the [group] option. *)
Definition group `{Host} (argument : option string) : option string :=
  choice argument ["top"; "bottom"].

(** [d[k] = v] on a dictionary kept in insertion order: an existing key keeps
    its place and takes the new value. *)
Fixpoint dict_setitem {V : Type} (k : string) (v : V) (d : list (string * V))
  : list (string * V) :=
  match d with
  | [] => [(k, v)]
  | (k', v') :: d' =>
      if String.eqb k k' then (k, v) :: d' else (k', v') :: dict_setitem k v d'
  end.

Module ItemMatrix.
Section ItemMatrix.
Context `{Host}.

(** [Rows = namedtuple('Rows', "sorted covered uncovered")], three lists. *)
Record Rows := {
  sorted : list node;
  covered : list node;
  uncovered : list node;
}.

(** [_store_row(rows, left, rights, covered)]; the three lists are appended
    to in place, the embedding returns them. *)
Definition _store_row (rows : Rows) (left : node) (rights : list node)
           (is_covered : bool) : Rows :=
  let row := nodes.element nodes.row "" [] [] in
  let row := nodes.iadd row (Some left) in
  let row := fold_left (fun row right => nodes.iadd row (Some right)) rights row in
  {| sorted := sorted rows ++ [row];
     covered := if is_covered then covered rows ++ [row] else covered rows;
     uncovered := if is_covered then uncovered rows else uncovered rows ++ [row] |}.

(** [number_of_columns = max(2, len(self['target']) + 1)] *)
Definition number_of_columns (self : attr.t) : nat :=
  Nat.max 2 (length (attr.target self) + 1).

(** Lines 60-66: the relationships, then the external ones among them. *)
Definition select_relationships (self : attr.t) (collection : TraceableCollection.t)
  : list string * list string :=
  match attr.type self with
  | [] =>
      (filter (fun rel => negb (TraceableBaseNode.is_relation_external rel))
              (TraceableCollection.iter_relations collection),
       [])
  | relationships =>
      (relationships, filter TraceableBaseNode.is_relation_external relationships)
  end.

(** Lines 68-71: [ext_relations_to_target_map]. *)
Definition ext_relations_to_target_map (self : attr.t) (collection : TraceableCollection.t)
           (external_relationships : list string)
  : list (string * list (string * list string)) :=
  fold_left
    (fun m relation =>
       dict_setitem relation
         (TraceableCollection.get_external_targets collection (attr.source self) relation) m)
    external_relationships [].

(** [rights[idx] += other]: the cell is looked up first, which raises past
    the end; then [other] is evaluated and appended. *)
Definition iadd_at (rights : list node) (idx : nat) (other : M node) : M (list node) :=
  match rights !! idx with
  | Some r => ref ← other; mret (<[idx := nodes.iadd r (Some ref)]> rights)
  | None => raise IndexError
  end.

(** [[nodes.entry('') for _ in range(number_of_columns - 1)]] *)
Definition empty_rights (self : attr.t) : list node :=
  repeat (nodes.element nodes.entry "" [] []) (number_of_columns self - 1).

(** Lines 81-86: the external targets of a source item.  The state of the
    loop is [rights] and [covered]. *)
Definition add_external_targets (app : App) (source_item : option TraceableItem.t)
           (external_relationships : list string) (st : list node * bool)
  : M (list node * bool) :=
  for_each external_relationships
    (fun st ext_relationship =>
       match source_item with
       | None => raise (AttributeError "iter_targets")
       | Some source_item =>
           for_each (TraceableItem.iter_targets source_item ext_relationship)
             (fun '(rights, _) target_id =>
                let ext_item_ref :=
                  TraceableBaseNode.make_external_item_ref app target_id ext_relationship in
                mret (map (fun right => nodes.iadd right ext_item_ref) rights, true))
             st
       end)
    st.

(** Lines 87-91: the internal targets related to a source item. *)
Definition add_internal_targets (self : attr.t) (app : App)
           (collection : TraceableCollection.t) (source_id : string)
           (relationships : list string) (targets_with_ids : list (list string))
           (st : list node * bool) : M (list node * bool) :=
  for_each (enumerate targets_with_ids)
    (fun st '(idx, target_ids) =>
       for_each target_ids
         (fun '(rights, is_covered) target_id =>
            if TraceableCollection.are_related collection source_id relationships target_id
            then
              rights ←
                iadd_at rights idx
                  (TraceableBaseNode.make_internal_item_ref self app target_id true);
              mret (rights, true)
            else mret (rights, is_covered))
         st)
    st.

(** Lines 75-92: the body of the loop over [source_ids]. *)
Definition source_row (self : attr.t) (app : App) (collection : TraceableCollection.t)
           (relationships external_relationships : list string)
           (targets_with_ids : list (list string))
           (rows : Rows) (source_id : string) : M Rows :=
  let source_item := TraceableCollection.get_item collection source_id in
  let is_covered := false in
  let left := nodes.element nodes.entry "" [] [] in
  ref ← TraceableBaseNode.make_internal_item_ref self app source_id true;
  let left := nodes.iadd left (Some ref) in
  let rights := empty_rights self in
  st ← add_external_targets app source_item external_relationships (rights, is_covered);
  '(rights, is_covered) ←
    add_internal_targets self app collection source_id relationships targets_with_ids st;
  mret (_store_row rows left rights is_covered).

(** Lines 100-104: the item ids of an external source that match a target
    regex. *)
Definition add_matching_targets (self : attr.t) (app : App) (item_ids : list string)
           (st : list node * bool) : M (list node * bool) :=
  for_each (enumerate (attr.target self))
    (fun st '(idx, target_regex) =>
       for_each item_ids
         (fun '(rights, is_covered) target_id =>
            if re_match target_regex target_id
            then
              rights ←
                iadd_at rights idx
                  (TraceableBaseNode.make_internal_item_ref self app target_id true);
              mret (rights, true)
            else mret (rights, is_covered))
         st)
    st.

(** Lines 95-106: the body of the loop over the external sources. *)
Definition external_row (self : attr.t) (app : App) (ext_rel : string)
           (rows : Rows) (entry : string * list string) : M Rows :=
  let '(ext_source, item_ids) := entry in
  let is_covered := false in
  let left := nodes.element nodes.entry "" [] [] in
  let left :=
    nodes.iadd left (TraceableBaseNode.make_external_item_ref app ext_source ext_rel) in
  let rights := empty_rights self in
  '(rights, is_covered) ← add_matching_targets self app item_ids (rights, is_covered);
  mret (_store_row rows left rights is_covered).

(** Lines 60-106: all rows. *)
Definition build_rows (self : attr.t) (app : App) (collection : TraceableCollection.t)
  : M Rows :=
  let source_ids :=
    TraceableCollection.get_items collection (attr.source self)
      (Some (attr.filter_attributes self)) in
  let targets_with_ids :=
    map (fun target_regex => TraceableCollection.get_items collection target_regex None)
        (attr.target self) in
  let '(relationships, external_relationships) := select_relationships self collection in
  let ext_map := ext_relations_to_target_map self collection external_relationships in
  let rows := {| sorted := []; covered := []; uncovered := [] |} in
  rows ←
    for_each source_ids
      (source_row self app collection relationships external_relationships targets_with_ids)
      rows;
  for_each ext_map
    (fun rows '(ext_rel, ext_targets_to_item_ids) =>
       for_each ext_targets_to_item_ids (external_row self app ext_rel) rows)
    rows.

(** Lines 109-116: what [tbody] receives. *)
Definition grouped (self : attr.t) (rows : Rows) (tbody : node) : node :=
  if String.eqb (attr.group self) "" then nodes.extend tbody (sorted rows)
  else if String.eqb (attr.group self) "top"
       then nodes.extend (nodes.extend tbody (uncovered rows)) (covered rows)
  else if String.eqb (attr.group self) "bottom"
       then nodes.extend (nodes.extend tbody (covered rows)) (uncovered rows)
  else tbody.

(** Lines 118-126: the statistics line. *)
Definition statistics (rows : Rows) : M string :=
  let count_total := Z.of_nat (length (sorted rows)) in
  let count_covered := Z.of_nat (length (covered rows)) in
  percentage ←
    try_except
      (q ← lift (Float.true_div (100 * count_covered) count_total);
       lift (Float.to_int q))
      (fun e => match e with
                | ZeroDivisionError => mret 0%Z
                | _ => raise e
                end);
  mret ("Statistics: " +:+ Str.of_Z count_covered +:+ " out of " +:+ Str.of_Z count_total
          +:+ " covered: " +:+ Str.of_Z percentage +:+ "%").

(** Lines 40-49: the table head. *)
Definition colspecs (self : attr.t) : list node :=
  repeat (nodes.element nodes.colspec "" [] [("colwidth", AInt 5)]) (number_of_columns self).

Definition headings (self : attr.t) : list node :=
  map (fun title =>
         nodes.element nodes.entry ""
           [nodes.text_element nodes.paragraph "" title [] []] [])
      (attr.sourcetitle self :: attr.targettitle self).

(** [perform_replacement(self, app, collection)].  Python attaches [tbody]
    to [tgroup] and [tgroup] to [table] by reference before any row exists
    (lines 53-54), so the rows added to [tbody] later are the rows of the
    table; here the three nodes are linked once [tbody] is filled. *)
Definition perform_replacement (self : attr.t) (app : App)
           (collection : TraceableCollection.t) : M unit :=
  top_node ← TraceableBaseNode.create_top_node self (attr.title self) None;
  let table := nodes.element nodes.table "" [] [] in
  let table :=
    match attr.classes self with
    | [] => table
    | classes => nodes.extend_attr table "classes" classes
    end in
  let tgroup := nodes.element nodes.tgroup "" [] [] in
  let tgroup := nodes.extend tgroup (colspecs self) in
  let tgroup :=
    nodes.iadd tgroup
      (Some (nodes.element nodes.thead "" [nodes.element nodes.row "" (headings self) []] [])) in
  let tbody := nodes.element nodes.tbody "" [] [] in
  rows ← build_rows self app collection;
  let tbody := grouped self rows tbody in
  let tgroup := nodes.iadd tgroup (Some tbody) in
  let table := nodes.iadd table (Some tgroup) in
  disp ← statistics rows;
  let top_node :=
    if attr.stats self then
      let p_node := nodes.element nodes.paragraph "" [] [] in
      let txt := Text disp in
      let p_node := nodes.iadd p_node (Some txt) in
      nodes.iadd top_node (Some p_node)
    else top_node in
  let top_node := nodes.iadd top_node (Some table) in
  replace_self top_node.

End ItemMatrix.
End ItemMatrix.

Module ItemMatrixDirective.

(** A converted option value of a directive. *)
Inductive option_value :=
| OStr (s : string)
| OList (l : list string)
| OFlag.

(** The directive object: what [run] reads from [self]. *)
Record t := {
  options : gmap string option_value;
  lineno : Z;
  (** [self.state.document.settings.env.docname] *)
  env_docname : string;
  (** [env.app] *)
  env_app : App;
}.

(** The entries of the dictionary handed to [process_options]. *)
Inductive default_value :=
| DStr (s : string)
| DList (l : list string).

Record option_spec := {
  default : default_value;
  delimiter : option string;
}.

(** [ItemMatrix('')]: a node on which nothing is set yet. *)
Definition new_node : attr.t :=
  {| attr.document := ""; attr.line := 0; attr.classes := []; attr.title := "";
     attr.target := []; attr.source := ""; attr.filter_attributes := [];
     attr.targettitle := []; attr.sourcetitle := ""; attr.type := [];
     attr.group := ""; attr.stats := false; attr.nocaptions := false |}.

Definition set_document_line (n : attr.t) (document : string) (line : Z) : attr.t :=
  {| attr.document := document; attr.line := line; attr.classes := attr.classes n;
     attr.title := attr.title n; attr.target := attr.target n;
     attr.source := attr.source n; attr.filter_attributes := attr.filter_attributes n;
     attr.targettitle := attr.targettitle n; attr.sourcetitle := attr.sourcetitle n;
     attr.type := attr.type n; attr.group := attr.group n; attr.stats := attr.stats n;
     attr.nocaptions := attr.nocaptions n |}.

Definition extend_classes (n : attr.t) (l : list string) : attr.t :=
  {| attr.document := attr.document n; attr.line := attr.line n;
     attr.classes := attr.classes n ++ l;
     attr.title := attr.title n; attr.target := attr.target n;
     attr.source := attr.source n; attr.filter_attributes := attr.filter_attributes n;
     attr.targettitle := attr.targettitle n; attr.sourcetitle := attr.sourcetitle n;
     attr.type := attr.type n; attr.group := attr.group n; attr.stats := attr.stats n;
     attr.nocaptions := attr.nocaptions n |}.

Definition set_group (n : attr.t) (g : string) : attr.t :=
  {| attr.document := attr.document n; attr.line := attr.line n;
     attr.classes := attr.classes n;
     attr.title := attr.title n; attr.target := attr.target n;
     attr.source := attr.source n; attr.filter_attributes := attr.filter_attributes n;
     attr.targettitle := attr.targettitle n; attr.sourcetitle := attr.sourcetitle n;
     attr.type := attr.type n; attr.group := g; attr.stats := attr.stats n;
     attr.nocaptions := attr.nocaptions n |}.

(** The warning of lines 217-220. *)
Definition mismatch_message `{Host} (targets titles : list string) : string :=
  "Item-matrix directive should have the same number of 'target' attributes as 'target-title' "
  +:+ "attributes. Got target: " +:+ format_list targets
  +:+ " and targettitle: " +:+ format_list titles.

(** The methods [run] inherits from [TraceableBaseDirective], which is not
    among the sources.  Each one may change the node and report warnings;
    it is given by the node it leaves and the warnings it reports. *)
Class BaseDirective := {
  process_title : t -> attr.t -> string -> attr.t * list warning;
  add_found_attributes : t -> attr.t -> attr.t * list warning;
  process_options : t -> attr.t -> list (string * option_spec) -> attr.t * list warning;
  check_relationships : t -> list string -> list warning;
  check_option_presence : t -> attr.t -> string -> attr.t * list warning;
  check_caption_flags : t -> attr.t -> bool -> attr.t * list warning;
}.

(** A call of an inherited method. *)
Definition call {A : Type} (r : A * list warning) : M A := fun w =>
  (inr (fst r), World (warnings w ++ snd r) (replaced w)).

Section ItemMatrixDirective.
Context `{Host} `{BaseDirective}.

(** [run(self)]; the returned list holds [ItemMatrix] nodes. *)
Definition run (self : t) : M (list attr.t) :=
  let app := env_app self in
  let item_matrix_node := new_node in
  let item_matrix_node :=
    set_document_line item_matrix_node (env_docname self) (lineno self) in
  let item_matrix_node :=
    match options self !! "class" with
    | Some (OList (c :: cs)) => extend_classes item_matrix_node (c :: cs)
    | _ => item_matrix_node
    end in
  item_matrix_node ← call (process_title self item_matrix_node "Traceability matrix of items");
  item_matrix_node ← call (add_found_attributes self item_matrix_node);
  item_matrix_node ←
    call (process_options self item_matrix_node
            [("target", {| default := DList [""]; delimiter := None |});
             ("source", {| default := DStr ""; delimiter := None |});
             ("targettitle", {| default := DList ["Target"]; delimiter := Some "," |});
             ("sourcetitle", {| default := DStr "Source"; delimiter := None |});
             ("type", {| default := DList []; delimiter := None |})]);
  let item_matrix_node :=
    set_group item_matrix_node
      match options self !! "group" with
      | Some (OStr g) => g
      | _ => ""
      end in
  let number_of_targets := length (attr.target item_matrix_node) in
  let number_of_targettitles := length (attr.targettitle item_matrix_node) in
  _ ← (if ((1 <? number_of_targets) && negb (number_of_targets =? number_of_targettitles))%nat
       then report_warning
              (mismatch_message (attr.target item_matrix_node)
                                (attr.targettitle item_matrix_node))
              (env_docname self) (lineno self)
       else mret tt);
  _ ← call (tt, check_relationships self (attr.type item_matrix_node));
  item_matrix_node ← call (check_option_presence self item_matrix_node "stats");
  item_matrix_node ←
    call (check_caption_flags self item_matrix_node
            (traceability_matrix_no_captions (config app)));
  mret [item_matrix_node].

End ItemMatrixDirective.
End ItemMatrixDirective.

(** ** A small document set

    Two requirements and a test; [REQ-1] is validated by [TEST-1] and is
    linked to the external issue [PROJ:42], [REQ-2] has no links, and
    [REQ-9] is referred to but never defined. *)

Module Example.

Fixpoint contains (needle s : string) : bool :=
  Str.startswith needle s ||
  match s with
  | EmptyString => false
  | String _ s' => contains needle s'
  end.

(** The regexes of the example are literal texts, for which [re.match] is
    a prefix test and [re.search] a substring test. *)
#[export] Instance host : Host := {|
  re_match := Str.startswith;
  re_search := contains;
  make_id := fun s => s;
  format_list := fun l => "[" +:+ String.concat ", " (map (fun s => "'" +:+ s +:+ "'") l) +:+ "]";
  choice := fun a values =>
    match a with
    | Some s => if bool_decide (s ∈ values) then Some s else None
    | None => None
    end;
|}.

Definition item (id doc : string) (cap : option string) (ph : bool)
           (targets : list (string * list string)) : TraceableItem.t :=
  {| TraceableItem.get_id := id; TraceableItem.docname := doc;
     TraceableItem.caption := cap; TraceableItem.is_placeholder := ph;
     TraceableItem.iter_targets := fun rel =>
       match find (fun e => String.eqb (fst e) rel) targets with
       | Some e => snd e
       | None => []
       end |}.

Definition items : list TraceableItem.t :=
  [ item "REQ-1" "requirements" (Some "Login") false
         [("validated_by", ["TEST-1"]); ("ext_jira", ["PROJ:42"])];
    item "REQ-2" "requirements" None false [];
    item "REQ-9" "" None true [];
    item "TEST-1" "tests" (Some "Login test") false [("validates", ["REQ-1"])] ].

Definition lookup_item (id : string) : option TraceableItem.t :=
  find (fun it => String.eqb (TraceableItem.get_id it) id) items.

Definition collection : TraceableCollection.t :=
  {| TraceableCollection.get_items := fun regex _ =>
       filter (fun id => re_match regex id)
              (map TraceableItem.get_id
                   (filter (fun it => negb (TraceableItem.is_placeholder it)) items));
     TraceableCollection.get_item := lookup_item;
     TraceableCollection.iter_relations := ["validated_by"; "validates"; "ext_jira"];
     TraceableCollection.are_related := fun source_id relations target_id =>
       match lookup_item source_id with
       | Some it =>
           existsb (fun rel => bool_decide (target_id ∈ TraceableItem.iter_targets it rel))
                   relations
       | None => false
       end;
     TraceableCollection.get_external_targets := fun regex relation =>
       if String.eqb relation "ext_jira" && re_match regex "REQ-1"
       then [("PROJ:42", ["REQ-1"])] else [] |}.

Definition cfg : Config :=
  {| traceability_notifications := ∅;
     traceability_hyperlink_colors := [("TEST", ["#00f"])];
     traceability_class_names := {[ ["#00f"] := "colors_00f" ]};
     traceability_external_relationship_to_url :=
       {[ "ext_jira" := "https://issues.example.org/field1/browse/field2" ]};
     traceability_matrix_no_captions := false |}.

(** An html builder: every document has a relative uri. *)
Definition html : Builder :=
  {| get_relative_uri := fun _ to => Some (to +:+ ".html"); is_latex := false |}.

(** A builder that has a uri for no document. *)
Definition no_uri : Builder :=
  {| get_relative_uri := fun _ _ => None; is_latex := true |}.

Definition app : App :=
  {| config := cfg; builder := html; traceability_collection := collection |}.

Definition matrix (type : list string) (group : string) (stats : bool) : attr.t :=
  {| attr.document := "index"; attr.line := 12; attr.classes := [];
     attr.title := "Requirements to tests";
     attr.target := ["TEST"]; attr.source := "REQ"; attr.filter_attributes := [];
     attr.targettitle := ["Tests"]; attr.sourcetitle := "Requirements";
     attr.type := type; attr.group := group; attr.stats := stats;
     attr.nocaptions := false |}.

(** The matrix with the relationships [validated_by] and [ext_jira],
    uncovered rows first, with statistics. *)
Definition matrix_ext : attr.t := matrix ["validated_by"; "ext_jira"] "top" true.

(** The matrix without a [type] option. *)
Definition matrix_all : attr.t := matrix [] "" false.

Definition w0 : world := World [] [].

(** A configuration that names [REQ-2] as the item to link undefined
    references to, with the builder [b]. *)
Definition notifying_app (b : Builder) : App :=
  {| config :=
       {| traceability_notifications := {[ "undefined-reference" := "REQ-2" ]};
          traceability_hyperlink_colors := traceability_hyperlink_colors cfg;
          traceability_class_names := traceability_class_names cfg;
          traceability_external_relationship_to_url :=
            traceability_external_relationship_to_url cfg;
          traceability_matrix_no_captions := false |};
     builder := b; traceability_collection := collection |}.

(** An external tool whose url template uses a tenth field. *)
Definition tool_app : App :=
  {| config :=
       {| traceability_notifications := ∅;
          traceability_hyperlink_colors := [];
          traceability_class_names := ∅;
          traceability_external_relationship_to_url :=
            {[ "ext_tool" := "http://host/field10" ]};
          traceability_matrix_no_captions := false |};
     builder := html; traceability_collection := collection |}.

(** Inherited directive methods that fill in the options and report no
    warning. *)
Definition option_list (self : ItemMatrixDirective.t) (name : string)
           (default : list string) : list string :=
  match ItemMatrixDirective.options self !! name with
  | Some (ItemMatrixDirective.OList l) => l
  | _ => default
  end.

#[export] Instance base_directive : ItemMatrixDirective.BaseDirective := {|
  ItemMatrixDirective.process_title := fun _ n _ => (n, []);
  ItemMatrixDirective.add_found_attributes := fun _ n => (n, []);
  ItemMatrixDirective.process_options := fun self n _ =>
    ({| attr.document := attr.document n; attr.line := attr.line n;
        attr.classes := attr.classes n; attr.title := attr.title n;
        attr.target := option_list self "target" [""];
        attr.source := "REQ"; attr.filter_attributes := [];
        attr.targettitle := option_list self "targettitle" ["Target"];
        attr.sourcetitle := "Source"; attr.type := option_list self "type" [];
        attr.group := attr.group n; attr.stats := attr.stats n;
        attr.nocaptions := attr.nocaptions n |}, []);
  ItemMatrixDirective.check_relationships := fun _ _ => [];
  ItemMatrixDirective.check_option_presence := fun _ n _ => (n, []);
  ItemMatrixDirective.check_caption_flags := fun _ n _ => (n, []);
|}.

(** A directive with two target regexes and one target title. *)
Definition directive : ItemMatrixDirective.t :=
  {| ItemMatrixDirective.options :=
       {[ "target" := ItemMatrixDirective.OList ["TEST"; "REQ"];
          "targettitle" := ItemMatrixDirective.OList ["Tests"] ]};
     ItemMatrixDirective.lineno := 12;
     ItemMatrixDirective.env_docname := "index";
     ItemMatrixDirective.env_app := app |}.

(** A collection without items. *)
Definition no_items : TraceableCollection.t :=
  {| TraceableCollection.get_items := fun _ _ => [];
     TraceableCollection.get_item := fun _ => None;
     TraceableCollection.iter_relations := [];
     TraceableCollection.are_related := fun _ _ _ => false;
     TraceableCollection.get_external_targets := fun _ _ => [] |}.

(** An external relationship that links every target to the same page. *)
Definition wiki_app : App :=
  {| config :=
       {| traceability_notifications := ∅;
          traceability_hyperlink_colors := [];
          traceability_class_names := ∅;
          traceability_external_relationship_to_url :=
            {[ "ext_wiki" := "https://wiki.example.org/index" ]};
          traceability_matrix_no_captions := false |};
     builder := html; traceability_collection := collection |}.

End Example.

(** ** Notions the statements are written in *)

(** [m] run in [w] returns [a], leaves the world [w'] and has not called
    [replace_self]. *)
Definition returns {A : Type} (m : M A) (w : world) (a : A) (w' : world) : Prop :=
  m w = (inr a, w') /\ replaced w' = replaced w.

(** Some element of class [c] occurs in the tree [n]. *)
Fixpoint contains_class (c : nodes.node_class) (n : node) : bool :=
  match n with
  | Text _ => false
  | Element c' _ _ ch => bool_decide (c' = c) || existsb (contains_class c) ch
  end.

Definition has_class (c : nodes.node_class) (n : node) : bool :=
  bool_decide (nodes.class_of n = Some c).

(** The children of class [c]. *)
Definition children_of_class (c : nodes.node_class) (n : node) : list node :=
  filter (fun ch => has_class c ch = true) (nodes.children n).

(** The rows of the table body of an emitted top node: the [row] children of
    the [tbody] of the [tgroup] of its [table]. *)
Definition body_rows (top : node) : list node :=
  tb ← children_of_class nodes.table top;
  tg ← children_of_class nodes.tgroup tb;
  body ← children_of_class nodes.tbody tg;
  nodes.children body.

(** The [colspec] nodes and the heading rows of the table of a top node. *)
Definition table_colspecs (top : node) : list node :=
  tb ← children_of_class nodes.table top;
  tg ← children_of_class nodes.tgroup tb;
  children_of_class nodes.colspec tg.

Definition heading_rows (top : node) : list node :=
  tb ← children_of_class nodes.table top;
  tg ← children_of_class nodes.tgroup tb;
  hd ← children_of_class nodes.thead tg;
  nodes.children hd.

Module Spec.
Section Spec.
Context `{Host}.

(** What a row of the matrix is built from: a source item, or an external
    target with the item ids the collection returned for it. *)
Inductive row_source :=
| Internal (source_id : string)
| External (ext_rel ext_source : string) (item_ids : list string).

Definition source_ids (self : attr.t) (collection : TraceableCollection.t) : list string :=
  TraceableCollection.get_items collection (attr.source self)
    (Some (attr.filter_attributes self)).

Definition relationships (self : attr.t) (collection : TraceableCollection.t) : list string :=
  fst (ItemMatrix.select_relationships self collection).

Definition external_relationships (self : attr.t) (collection : TraceableCollection.t)
  : list string :=
  snd (ItemMatrix.select_relationships self collection).

Definition external_sources (self : attr.t) (collection : TraceableCollection.t)
  : list row_source :=
  '(ext_rel, ext_targets_to_item_ids) ←
    ItemMatrix.ext_relations_to_target_map self collection
      (external_relationships self collection);
  '(ext_source, item_ids) ← ext_targets_to_item_ids;
  [External ext_rel ext_source item_ids].

(** The rows in the order they are built. *)
Definition row_sources (self : attr.t) (collection : TraceableCollection.t)
  : list row_source :=
  map Internal (source_ids self collection) ++ external_sources self collection.

(** "At least one configured relationship was found" for a row: for a
    source item, an external target under one of the external relationships
    or an item matching a target regex that is related to it; for an
    external source, a returned item id matching a target regex. *)
Definition found (self : attr.t) (collection : TraceableCollection.t)
           (src : row_source) : bool :=
  match src with
  | Internal source_id =>
      existsb
        (fun ext_rel =>
           match TraceableCollection.get_item collection source_id with
           | Some source_item =>
               bool_decide (TraceableItem.iter_targets source_item ext_rel <> [])
           | None => false
           end)
        (external_relationships self collection)
      || existsb
           (fun target_regex =>
              existsb
                (TraceableCollection.are_related collection source_id
                   (relationships self collection))
                (TraceableCollection.get_items collection target_regex None))
           (attr.target self)
  | External _ _ item_ids =>
      existsb (fun target_regex => existsb (re_match target_regex) item_ids)
              (attr.target self)
  end.

(** The item [item_id] can be linked to: the collection of the application
    knows it, and the colours configured for it have a class name. *)
Definition resolves (app : App) (item_id : string) : Prop :=
  is_Some (TraceableCollection.get_item (traceability_collection app) item_id) /\
  forall c cs,
    TraceableBaseNode._find_colors_for_class
      (traceability_hyperlink_colors (config app)) item_id = Some (c :: cs) ->
    is_Some (traceability_class_names (config app) !! (c :: cs)).

(** What [perform_replacement] relies on: every id it links to resolves,
    the source items are known to the collection when external
    relationships are asked for, and the row count is in the range of exact
    float conversion. *)
Record ready (self : attr.t) (app : App) (collection : TraceableCollection.t) : Prop := {
  ready_sources :
    forall source_id, source_id ∈ source_ids self collection -> resolves app source_id;
  ready_source_items :
    external_relationships self collection <> [] ->
    forall source_id, source_id ∈ source_ids self collection ->
      is_Some (TraceableCollection.get_item collection source_id);
  ready_targets :
    forall source_id target_regex target_id,
      source_id ∈ source_ids self collection ->
      target_regex ∈ attr.target self ->
      target_id ∈ TraceableCollection.get_items collection target_regex None ->
      TraceableCollection.are_related collection source_id
        (relationships self collection) target_id = true ->
      resolves app target_id;
  ready_external :
    forall ext_rel ext_source item_ids target_regex target_id,
      External ext_rel ext_source item_ids ∈ external_sources self collection ->
      target_regex ∈ attr.target self ->
      target_id ∈ item_ids ->
      re_match target_regex target_id = true ->
      resolves app target_id;
  ready_size :
    (100 * Z.of_nat (length (row_sources self collection)) < 2 ^ 53)%Z;
}.

(** The row [_store_row] builds from [left] and [rights]. *)
Definition row_of (left : node) (rights : list node) : node :=
  nodes.element nodes.row "" (left :: rights) [].

(** The first cell of the row of a source. *)
Definition left_of (self : attr.t) (app : App) (src : row_source) (left : node) : Prop :=
  match src with
  | Internal source_id =>
      exists ref w w',
        TraceableBaseNode.make_internal_item_ref self app source_id true w = (inr ref, w') /\
        left = nodes.element nodes.entry "" [ref] []
  | External ext_rel ext_source _ =>
      left = nodes.iadd (nodes.element nodes.entry "" [] [])
               (TraceableBaseNode.make_external_item_ref app ext_source ext_rel)
  end.

(** [row] is a row for [src] and [flag] is the coverage flag it was stored
    with. *)
Definition built_from (self : attr.t) (app : App) (collection : TraceableCollection.t)
           (src : row_source) (built : node * bool) : Prop :=
  exists left rights,
    fst built = row_of left rights /\
    left_of self app src left /\
    length rights = ItemMatrix.number_of_columns self - 1 /\
    Forall (fun right => has_class nodes.entry right = true) rights /\
    snd built = found self collection src.

(** The cells right of the first one: [n] of them, all [entry] nodes, and
    without a [target] node when no external reference may occur. *)
Definition cells_ok (ext_free : bool) (n : nat) (rights : list node) : Prop :=
  length rights = n /\
  Forall (fun right => has_class nodes.entry right = true) rights /\
  (ext_free = true -> Forall (fun right => contains_class nodes.target right = false) rights).

(** The shape shared by the loops of lines 87-91 and 100-104. *)
Definition fill_cells {X : Type} (self : attr.t) (app : App)
           (inner : X -> list string) (test : X -> string -> bool) (l : list X)
           (st : list node * bool) : M (list node * bool) :=
  for_each (enumerate l)
    (fun st '(idx, x) =>
       for_each (inner x)
         (fun '(rights, is_covered) target_id =>
            if test x target_id
            then
              rights ←
                ItemMatrix.iadd_at rights idx
                  (TraceableBaseNode.make_internal_item_ref self app target_id true);
              mret (rights, true)
            else mret (rights, is_covered))
         st)
    st.

(** [rows] holds the rows of [built], each with the flag it was stored
    with. *)
Definition rows_are (built : list (node * bool)) (rows : ItemMatrix.Rows) : Prop :=
  ItemMatrix.sorted rows = map fst built /\
  ItemMatrix.covered rows = map fst (filter (fun b => snd b = true) built) /\
  ItemMatrix.uncovered rows = map fst (filter (fun b => snd b = false) built).

(** [rows] holds one row for each of [srcs], in order, stored with the flag
    [found] gives; without external relationships no row holds a [target]
    node. *)
Definition rows_built (self : attr.t) (app : App) (collection : TraceableCollection.t)
           (srcs : list row_source) (rows : ItemMatrix.Rows) : Prop :=
  exists built,
    Forall2 (built_from self app collection) srcs built /\
    rows_are built rows /\
    (external_relationships self collection = [] ->
     Forall (fun b => contains_class nodes.target (fst b) = false) built).

(** [int(100 * c / t)] as the specification words it: the floor of the quotient,
    and 0 when there is no row. *)
Definition floor_percentage (c t : Z) : Z :=
  if (t =? 0)%Z then 0%Z else (100 * c / t)%Z.

Definition statistics_line (c t : Z) : string :=
  "Statistics: " +:+ Str.of_Z c +:+ " out of " +:+ Str.of_Z t
    +:+ " covered: " +:+ Str.of_Z (floor_percentage c t) +:+ "%".

(** The rows handed to [tbody] for a value of [group]. *)
Definition body (self : attr.t) (rows : ItemMatrix.Rows) : list node :=
  if String.eqb (attr.group self) "" then ItemMatrix.sorted rows
  else if String.eqb (attr.group self) "top"
       then ItemMatrix.uncovered rows ++ ItemMatrix.covered rows
  else if String.eqb (attr.group self) "bottom"
       then ItemMatrix.covered rows ++ ItemMatrix.uncovered rows
  else [].

(** The admonition that holds the title. *)
Definition admonition_node (self : attr.t) : node :=
  nodes.extend_attr
    (nodes.element nodes.admonition ""
       [nodes.element nodes.title "" [Text (attr.title self)] []] [])
    "classes" ["item"].

Definition statistics_paragraph (rows : ItemMatrix.Rows) : node :=
  nodes.element nodes.paragraph ""
    [Text (statistics_line (Z.of_nat (length (ItemMatrix.covered rows)))
                           (Z.of_nat (length (ItemMatrix.sorted rows))))] [].

Definition thead_node (self : attr.t) : node :=
  nodes.element nodes.thead "" [nodes.element nodes.row "" (ItemMatrix.headings self) []] [].

Definition tgroup_node (self : attr.t) (rows : ItemMatrix.Rows) : node :=
  nodes.element nodes.tgroup ""
    (ItemMatrix.colspecs self
       ++ [thead_node self; nodes.element nodes.tbody "" (body self rows) []]) [].

Definition table_node (self : attr.t) (rows : ItemMatrix.Rows) : node :=
  let table := nodes.element nodes.table "" [tgroup_node self rows] [] in
  match attr.classes self with
  | [] => table
  | classes => nodes.extend_attr table "classes" classes
  end.

(** The node that replaces the matrix. *)
Definition emitted (self : attr.t) (rows : ItemMatrix.Rows) : node :=
  nodes.element nodes.container ""
    (admonition_node self
       :: (if attr.stats self then [statistics_paragraph rows] else [])
       ++ [table_node self rows]) [].

(** The rows held after a sequence of [_store_row] calls on
    [Rows([], [], [])]. *)
Definition stored (calls : list (node * list node * bool)) : ItemMatrix.Rows :=
  fold_left
    (fun rows call =>
       ItemMatrix._store_row rows (fst (fst call)) (snd (fst call)) (snd call))
    calls {| ItemMatrix.sorted := []; ItemMatrix.covered := []; ItemMatrix.uncovered := [] |}.

Definition call_row (call : node * list node * bool) : node :=
  row_of (fst (fst call)) (snd (fst call)).

End Spec.
End Spec.

(** The two halves of [run], around the test of lines 214-220. *)
Module RunSpec.
Section RunSpec.
Context `{Host} `{ItemMatrixDirective.BaseDirective}.
Import ItemMatrixDirective.

(** Lines 189-212: the node as it reaches the test, and the warnings the
    inherited methods have reported so far. *)
Definition prepared (self : ItemMatrixDirective.t) : attr.t * list warning :=
  let node := set_document_line new_node (env_docname self) (lineno self) in
  let node :=
    match options self !! "class" with
    | Some (OList (c :: cs)) => extend_classes node (c :: cs)
    | _ => node
    end in
  let r1 := process_title self node "Traceability matrix of items" in
  let r2 := add_found_attributes self (fst r1) in
  let r3 :=
    process_options self (fst r2)
      [("target", {| default := DList [""]; delimiter := None |});
       ("source", {| default := DStr ""; delimiter := None |});
       ("targettitle", {| default := DList ["Target"]; delimiter := Some "," |});
       ("sourcetitle", {| default := DStr "Source"; delimiter := None |});
       ("type", {| default := DList []; delimiter := None |})] in
  (set_group (fst r3)
     match options self !! "group" with
     | Some (OStr g) => g
     | _ => ""
     end,
   snd r1 ++ snd r2 ++ snd r3).

(** Lines 222-226: the node that is returned, and the warnings of the
    inherited methods called after the test. *)
Definition finished (self : ItemMatrixDirective.t) (node : attr.t) : attr.t * list warning :=
  let ws := check_relationships self (attr.type node) in
  let r1 := check_option_presence self node "stats" in
  let r2 :=
    check_caption_flags self (fst r1)
      (traceability_matrix_no_captions (config (env_app self))) in
  (fst r2, ws ++ snd r1 ++ snd r2).

(** More than one target regex, and not as many as target titles. *)
Definition counts_differ (node : attr.t) : Prop :=
  1 < length (attr.target node) /\
  length (attr.target node) <> length (attr.targettitle node).

#[global] Instance counts_differ_dec node : Decision (counts_differ node).
Proof. unfold counts_differ. apply _. Defined.

End RunSpec.
End RunSpec.

(** ** Notions for what a computation does to the world *)

(** [m] takes every world [w] to a world related to it by [R], whether it
    returns or raises. *)
Definition steps {A : Type} (R : world -> world -> Prop) (m : M A) : Prop :=
  forall w, R w (snd (m w)).

(** From [w] to [w'] no [replace_self] was called, the warnings of [w] are
    kept and every warning added satisfies [P]. *)
Definition logs (P : warning -> Prop) (w w' : world) : Prop :=
  replaced w' = replaced w /\
  exists ws, warnings w' = warnings w ++ ws /\ Forall P ws.

(** The warning of [has_warned_about_undefined] for a placeholder item of
    [collection], at the place of the node [self]. *)
Definition undefined_item_warning (self : attr.t) (collection : TraceableCollection.t)
           (wn : warning) : Prop :=
  exists item_id item,
    TraceableCollection.get_item collection item_id = Some item /\
    TraceableItem.is_placeholder item = true /\
    wn = Warning ("Traceability: cannot link to '" +:+ TraceableItem.get_id item
                    +:+ "', item is not defined")
                 (attr.document self) (attr.line self).

(** [needle in s] *)
Fixpoint occurs (needle s : string) : bool :=
  Str.startswith needle s ||
  match s with
  | EmptyString => false
  | String _ s' => occurs needle s'
  end.

(** ** Notions for the outcomes of [make_internal_item_ref] *)

Section Outcome.
Context `{Host}.

(** The notification item configured for undefined references, with its
    id. *)
Definition notification_of (app : App) : option (string * TraceableItem.t) :=
  nid ← traceability_notifications (config app) !! "undefined-reference";
  it ← TraceableCollection.get_item (traceability_collection app) nid;
  Some (nid, it).

(** The colours matched for [item_id] have no class name. *)
Definition class_name_missing (app : App) (item_id : string) : Prop :=
  exists c cs,
    TraceableBaseNode._find_colors_for_class
      (traceability_hyperlink_colors (config app)) item_id = Some (c :: cs) /\
    traceability_class_names (config app) !! (c :: cs) = None.

(** [item_id] is a placeholder for which no notification item exists. *)
Definition broken_link (app : App) (item_id : string) : Prop :=
  exists item_info,
    TraceableCollection.get_item (traceability_collection app) item_id = Some item_info /\
    TraceableItem.is_placeholder item_info = true /\
    notification_of app = None.

End Outcome.

(** ** Notions for what the cells of a row show *)

(** The invariant of the loops that fill the cells of a row: the cells are
    as many entries as the cells [rights0] the row started with; they are
    these cells as long as the flag is false; and, under [V], one of them
    holds a child once it is true. *)
Definition cells_inv (V : Prop) (rights0 : list node) (st : list node * bool) : Prop :=
  length (fst st) = length rights0 /\
  Forall (fun right => has_class nodes.entry right = true) (fst st) /\
  (snd st = false -> fst st = rights0) /\
  (V -> snd st = true -> Exists (fun right => nodes.children right <> []) (fst st)).

(** What is known of the rows while they are built: the uncovered ones hold
    the untouched cells, and, under [V], every covered one has a cell with a
    child. *)
Definition rows_inv (self : attr.t) (V : Prop) (rows : ItemMatrix.Rows) : Prop :=
  Forall (fun row => exists left, row = Spec.row_of left (ItemMatrix.empty_rights self))
         (ItemMatrix.uncovered rows) /\
  (V -> Forall (fun row => exists left rights,
                    row = Spec.row_of left rights /\
                    Exists (fun right => nodes.children right <> []) rights)
               (ItemMatrix.covered rows)).

(** ** Notions for the contents of the cells *)

Section Cells.
Context `{Host}.

(** [ref] is a paragraph that [make_internal_item_ref] returns for
    [target_id], with captions shown. *)
Definition links_to (self : attr.t) (app : App) (target_id : string) (ref : node) : Prop :=
  exists w w',
    TraceableBaseNode.make_internal_item_ref self app target_id true w = (inr ref, w').

(** The external targets of an item, in the order lines 81-82 go through
    them, each with its relationship. *)
Definition external_targets_of (source_item : TraceableItem.t)
           (external_relationships : list string) : list (string * string) :=
  ext_relationship ← external_relationships;
  target_id ← TraceableItem.iter_targets source_item ext_relationship;
  [(ext_relationship, target_id)].

(** The ids of column [idx] that pass the test of the loops of lines 87-91
    and 100-104. *)
Definition column_ids {X : Type} (inner : X -> list string) (test : X -> string -> bool)
           (l : list X) (idx : nat) : list string :=
  match l !! idx with
  | Some x => filter (fun target_id => test x target_id = true) (inner x)
  | None => []
  end.

End Cells.

(** ** Notions for a run without warnings *)

(** The item [item_id] is known to the collection of the application and is
    not a placeholder. *)
Definition defined (app : App) (item_id : string) : Prop :=
  exists item,
    TraceableCollection.get_item (traceability_collection app) item_id = Some item /\
    TraceableItem.is_placeholder item = false.

(** The world is as it was. *)
Definition unchanged (w w' : world) : Prop := w' = w.

(** ** Floats: [int(a / b)] is floor division below [2^53] *)

Module FloatFacts.
Local Open Scope Z_scope.

Lemma digits2_pos_size p : digits2_pos p = Pos.size p.
Proof. induction p as [p IH|p IH|]; simpl; congruence. Qed.

Lemma digits_bounds p :
  2 ^ (Zpos (digits2_pos p) - 1) <= Zpos p < 2 ^ Zpos (digits2_pos p).
Proof.
  rewrite digits2_pos_size. split.
  - pose proof (Pos.size_le p) as Hle.
    assert (Hz : (2 ^ Zpos (Pos.size p) <= 2 * Zpos p)).
    { rewrite <- Pos2Z.inj_pow. change 2 with (Zpos 2). rewrite <- Pos2Z.inj_mul.
      apply Pos2Z.pos_le_pos. exact Hle. }
    replace (Zpos (Pos.size p)) with (Z.succ (Zpos (Pos.size p) - 1)) in Hz by lia.
    rewrite Z.pow_succ_r in Hz by lia. lia.
  - pose proof (Pos.size_gt p) as Hgt.
    rewrite <- Pos2Z.inj_pow. apply Pos2Z.pos_lt_pos. exact Hgt.
Qed.

Lemma digits_unique p d :
  2 ^ (d - 1) <= Zpos p < 2 ^ d -> Zpos (digits2_pos p) = d.
Proof.
  intros [Hlo Hhi]. pose proof (digits_bounds p) as [Hlo' Hhi'].
  assert (0 < d).
  { destruct (Z.lt_trichotomy d 0) as [Hn|[->|Hp]]; [|simpl in Hhi; lia|lia].
    rewrite Z.pow_neg_r in Hhi by lia. lia. }
  destruct (Z.lt_trichotomy (Zpos (digits2_pos p)) d) as [Hlt|[Heq|Hgt]]; [|exact Heq|].
  - assert (2 ^ Zpos (digits2_pos p) <= 2 ^ (d - 1)) by (apply Z.pow_le_mono_r; lia). lia.
  - assert (2 ^ d <= 2 ^ (Zpos (digits2_pos p) - 1)) by (apply Z.pow_le_mono_r; lia). lia.
Qed.

Lemma fexp_normal x : -1021 <= x -> fexp 53 1024 x = x - 53.
Proof. intros Hx. unfold fexp, emin. lia. Qed.

(** Rounding a mantissa of 53 digits changes nothing. *)
Lemma round_aux_exact m e :
  Zpos (digits2_pos m) = 53 -> -1074 <= e <= 971 ->
  binary_round_aux 53 1024 false (Zpos m) e loc_Exact = S754_finite false m e.
Proof.
  intros Hd He. unfold binary_round_aux, shr_fexp. cbn [Zdigits2 shr_record_of_loc].
  rewrite Hd, fexp_normal by lia.
  replace (53 + e - 53 - e) with 0 by lia.
  cbn [shr shr_m loc_of_shr_record round_nearest_even Zdigits2].
  rewrite Hd, fexp_normal by lia.
  replace (53 + e - 53 - e) with 0 by lia.
  cbn [shr shr_m].
  destruct (Z.leb_spec e (1024 - 53)); [reflexivity | lia].
Qed.

Lemma iter_xO p k : Zpos (Pos.iter xO p k) = Zpos p * 2 ^ Zpos k.
Proof.
  revert p. induction k as [|k IH] using Pos.peano_ind; intros p.
  - simpl. lia.
  - rewrite Pos.iter_succ, Pos2Z.inj_xO, IH, Pos2Z.inj_succ, Z.pow_succ_r by lia. lia.
Qed.

(** [float(p)] for [p < 2^53]: the mantissa is shifted to 53 digits. *)
Lemma of_int_pos p :
  Zpos p < 2 ^ 53 ->
  exists m,
    Float.of_int (Zpos p) = S754_finite false m (Zpos (digits2_pos p) - 53) /\
    Zpos (digits2_pos m) = 53 /\
    Zpos m = Zpos p * 2 ^ (53 - Zpos (digits2_pos p)).
Proof.
  intros Hp. pose proof (digits_bounds p) as [Hlo Hhi].
  set (d := Zpos (digits2_pos p)) in *.
  assert (Hd : 1 <= d <= 53).
  { split; [subst d; lia|].
    destruct (Z.le_gt_cases d 53) as [?|Hgt]; [done|].
    assert (2 ^ 53 <= 2 ^ (d - 1)) by (apply Z.pow_le_mono_r; lia). lia. }
  unfold Float.of_int, binary_normalize, binary_round, Float.prec, Float.emax.
  fold d. rewrite Z.add_0_r, fexp_normal by lia. unfold shl_align.
  rewrite Z.sub_0_r.
  destruct (d - 53) as [|k|k] eqn:Hk; [| lia |].
  - exists p. rewrite round_aux_exact by (fold d; lia).
    split; [reflexivity|]. split; [fold d; lia|].
    replace (53 - d) with 0 by lia. lia.
  - assert (Hm : Zpos (Pos.iter xO p k) = Zpos p * 2 ^ (53 - d)).
    { rewrite iter_xO. f_equal. f_equal. lia. }
    assert (Hdm : Zpos (digits2_pos (Pos.iter xO p k)) = 53).
    { apply digits_unique. rewrite Hm. split.
      - replace (53 - 1) with ((d - 1) + (53 - d)) by lia.
        rewrite Z.pow_add_r by lia. apply Z.mul_le_mono_nonneg_r; [apply Z.pow_nonneg|]; lia.
      - replace 53 with (d + (53 - d)) at 2 by lia.
        rewrite Z.pow_add_r by lia. apply Z.mul_lt_mono_pos_r; [apply Z.pow_pos_nonneg|]; lia. }
    exists (Pos.iter xO p k). rewrite round_aux_exact by lia.
    split; [reflexivity|]. split; [exact Hdm | exact Hm].
Qed.

Lemma new_location_spec D r : 0 <= r < D -> Float.loc_spec (new_location D r) r D.
Proof.
  intros Hr. unfold new_location, new_location_even, new_location_odd.
  destruct (Z.even D) eqn:Hev; destruct (Z.eqb_spec r 0) as [->|Hne]; simpl;
    try reflexivity; try (split; [lia | reflexivity]).
  split; [lia|].
  assert (Hodd : Z.odd D = true) by (rewrite <- Z.negb_even, Hev; reflexivity).
  apply Z.odd_spec in Hodd as [k Hk].
  destruct (Z.compare_spec (2 * r + 1) D);
    [change (2 * r < D) | change (2 * r < D) | change (2 * r > D)]; lia.
Qed.

(** Rounding to nearest even without a shift. *)
Lemma rounded_unit q r D loc :
  Float.loc_spec loc r D -> 0 <= r < D ->
  let mr := round_nearest_even q loc in
  q <= mr <= q + 1 /\ 2 * Z.abs (mr * D - (q * D + r)) <= D.
Proof.
  intros Hloc Hr. destruct loc as [|[| |]]; simpl in Hloc |- *.
  - subst r. split; [lia|]. rewrite Z.add_0_r, Z.sub_diag. simpl. lia.
  - destruct Hloc as [Hpos Hc]. apply Z.compare_eq_iff in Hc.
    destruct (Z.even q); (split; [lia|]).
    + replace (q * D - (q * D + r)) with (- r) by ring. lia.
    + replace ((q + 1) * D - (q * D + r)) with (D - r) by ring. lia.
  - destruct Hloc as [Hpos Hc]. change (2 * r < D) in Hc. split; [lia|].
    replace (q * D - (q * D + r)) with (- r) by ring. lia.
  - destruct Hloc as [Hpos Hc]. change (2 * r > D) in Hc. split; [lia|].
    replace ((q + 1) * D - (q * D + r)) with (D - r) by ring. lia.
Qed.

Lemma shr_1_pos p rb sb :
  shr_1 (Build_shr_record (Zpos p) rb sb)
  = Build_shr_record (Zpos p / 2) (Z.odd (Zpos p)) (rb || sb).
Proof.
  destruct p as [p|p|]; simpl.
  - f_equal. rewrite Pos2Z.inj_xI. rewrite Z.mul_comm, Z.div_add_l by lia.
    rewrite Z.div_small by lia. lia.
  - f_equal. rewrite Pos2Z.inj_xO. rewrite Z.mul_comm, Z.div_mul by lia. reflexivity.
  - reflexivity.
Qed.

(** Rounding to nearest even after a shift by one digit. *)
Lemma rounded_half p r D loc :
  Float.loc_spec loc r D -> 0 <= r < D ->
  let mrs := shr_1 (shr_record_of_loc (Zpos p) loc) in
  let mr := round_nearest_even (shr_m mrs) (loc_of_shr_record mrs) in
  Zpos p / 2 <= mr <= Zpos p / 2 + 1 /\
  Z.abs (2 * mr * D - (Zpos p * D + r)) <= D.
Proof.
  intros Hloc Hr.
  assert (Hq : Zpos p = 2 * (Zpos p / 2) + (if Z.odd (Zpos p) then 1 else 0)).
  { rewrite (Z.div_mod (Zpos p) 2) at 1 by lia. rewrite Zmod_odd. reflexivity. }
  set (h := Zpos p / 2) in *.
  assert (Hcase : loc = loc_Exact /\ r = 0
                  \/ exists c, loc = loc_Inexact c /\ 0 < r).
  { destruct loc as [|c]; simpl in Hloc; [left; by split|].
    right. exists c. destruct Hloc. by split. }
  cbv zeta. destruct Hcase as [[-> ->]|(c & -> & Hpos)].
  - unfold shr_record_of_loc. rewrite shr_1_pos. fold h.
    destruct (Z.odd (Zpos p)); cbn [orb shr_m loc_of_shr_record round_nearest_even];
      try (destruct (Z.even h)); rewrite Hq; (split; [lia|]).
    + replace (2 * h * D - ((2 * h + 1) * D + 0)) with (- D) by ring. lia.
    + replace (2 * (h + 1) * D - ((2 * h + 1) * D + 0)) with D by ring. lia.
    + replace (2 * h * D - ((2 * h + 0) * D + 0)) with 0 by ring. lia.
    + replace (2 * h * D - ((2 * h + 0) * D + 0)) with 0 by ring. lia.
  - assert (Hrec : shr_1 (shr_record_of_loc (Zpos p) (loc_Inexact c))
                   = Build_shr_record h (Z.odd (Zpos p)) true).
    { destruct c; unfold shr_record_of_loc; rewrite shr_1_pos; fold h;
        f_equal; apply orb_true_r || reflexivity. }
    rewrite Hrec. clear Hrec Hloc.
    destruct (Z.odd (Zpos p)); cbn [orb shr_m loc_of_shr_record round_nearest_even];
      rewrite Hq; (split; [lia|]).
    + replace (2 * (h + 1) * D - ((2 * h + 1) * D + r)) with (D - r) by ring. lia.
    + replace (2 * h * D - ((2 * h + 0) * D + r)) with (- r) by ring. lia.
Qed.

Lemma loc_of_record_of_loc m loc :
  loc_of_shr_record (shr_record_of_loc m loc) = loc /\
  shr_m (shr_record_of_loc m loc) = m.
Proof. destruct loc as [|[| |]]; split; reflexivity. Qed.

(** The end of [binary_round_aux]: a rounded mantissa of 53 digits is kept,
    and [2^53] is renormalised. *)
Lemma round_aux_finish mr e :
  2 ^ 52 <= mr <= 2 ^ 53 -> -1000 <= e <= 900 ->
  exists mf ef,
    (let '(mrs, e') := shr_fexp 53 1024 mr e loc_Exact in
     match shr_m mrs with
     | Z0 => S754_zero false
     | Zpos m => if e' <=? 1024 - 53 then S754_finite false m e' else S754_infinity false
     | Zneg _ => S754_nan
     end) = S754_finite false mf ef /\
    e <= ef /\ Zpos mf * 2 ^ (ef - e) = mr.
Proof.
  intros Hmr He. destruct mr as [|p|p]; [lia| |lia].
  destruct (Z.lt_ge_cases (Zpos p) (2 ^ 53)) as [Hlt|Hge].
  - exists p, e. unfold shr_fexp. cbn [Zdigits2].
    rewrite (digits_unique p 53) by (simpl Z.sub; lia).
    rewrite fexp_normal by lia. replace (53 + e - 53 - e) with 0 by lia.
    cbn [shr shr_record_of_loc shr_m].
    destruct (Z.leb_spec e (1024 - 53)); [|lia].
    split; [reflexivity|]. split; [lia|]. rewrite Z.sub_diag. lia.
  - assert (Hp : Zpos p = 2 ^ 53) by lia.
    assert (p = 9007199254740992%positive) as -> by (apply Pos2Z.inj; rewrite Hp; reflexivity).
    exists 4503599627370496%positive, (e + 1). unfold shr_fexp. cbn [Zdigits2].
    change (Zpos (digits2_pos 9007199254740992)) with 54.
    rewrite fexp_normal by lia. replace (54 + e - 53 - e) with 1 by lia.
    cbn [shr iter_pos shr_record_of_loc shr_1 shr_m].
    destruct (Z.leb_spec (e + 1) (1024 - 53)); [|lia].
    split; [reflexivity|]. split; [lia|].
    replace (e + 1 - e) with 1 by lia. reflexivity.
Qed.

(** [binary_round_aux] on the outcome of a division: [q] and [r] are the
    quotient and the remainder of [N = q * D + r], and [q] has 53 or 54
    digits.  The result is [mr * 2^j] units of [2^e], within half of
    [2^j] of [N / D]. *)
Lemma round_aux_div q r D e :
  0 <= r < D -> 2 ^ 52 <= q < 2 ^ 54 -> -1000 <= e <= 899 ->
  exists mf ef j mr,
    binary_round_aux 53 1024 false q e (new_location D r) = S754_finite false mf ef /\
    e <= ef /\ 0 <= j <= 1 /\
    Zpos mf * 2 ^ (ef - e) = mr * 2 ^ j /\
    2 * Z.abs (mr * 2 ^ j * D - (q * D + r)) <= 2 ^ j * D.
Proof.
  intros Hr Hq He. pose proof (new_location_spec D r Hr) as Hloc.
  set (loc := new_location D r) in *. clearbody loc.
  destruct q as [|p|p]; [lia| |lia].
  unfold binary_round_aux.
  destruct (Z.lt_ge_cases (Zpos p) (2 ^ 53)) as [Hlt|Hge].
  - unfold shr_fexp at 1. cbn [Zdigits2].
    rewrite (digits_unique p 53) by (simpl Z.sub; lia).
    rewrite fexp_normal by lia. replace (53 + e - 53 - e) with 0 by lia.
    cbn [shr].
    destruct (loc_of_record_of_loc (Zpos p) loc) as [-> ->].
    destruct (rounded_unit (Zpos p) r D loc Hloc Hr) as [Hmr Habs].
    destruct (round_aux_finish (round_nearest_even (Zpos p) loc) e)
      as (mf & ef & Hfin & Hef & Hval); [lia | lia |].
    exists mf, ef, 0, (round_nearest_even (Zpos p) loc).
    split; [exact Hfin|]. split; [exact Hef|]. split; [lia|].
    rewrite Z.pow_0_r, !Z.mul_1_r, Z.mul_1_l. split; [exact Hval | exact Habs].
  - unfold shr_fexp at 1. cbn [Zdigits2].
    rewrite (digits_unique p 54) by (simpl Z.sub; lia).
    rewrite fexp_normal by lia. replace (54 + e - 53 - e) with 1 by lia.
    cbn [shr iter_pos].
    destruct (rounded_half p r D loc Hloc Hr) as [Hmr Habs]. cbv zeta in Hmr, Habs.
    set (mrs := shr_1 (shr_record_of_loc (Zpos p) loc)) in *.
    set (mr := round_nearest_even (shr_m mrs) (loc_of_shr_record mrs)) in *.
    assert (Hhalf : 2 ^ 52 <= Zpos p / 2 < 2 ^ 53).
    { split; [apply Z.div_le_lower_bound | apply Z.div_lt_upper_bound]; lia. }
    destruct (round_aux_finish mr (e + 1)) as (mf & ef & Hfin & Hef & Hval); [lia | lia |].
    exists mf, ef, 1, mr.
    split; [exact Hfin|]. split; [lia|]. split; [lia|]. split.
    + replace (ef - e) with ((ef - (e + 1)) + 1) by lia.
      rewrite Z.pow_add_r, Z.mul_assoc, Hval by lia. reflexivity.
    + change (2 ^ 1) with 2. replace (mr * 2 * D) with (2 * mr * D) by ring. lia.
Qed.

(** Division of two floats with 53-digit mantissas and small exponents. *)
Lemma div_normal m1 e1 m2 e2 :
  Zpos (digits2_pos m1) = 53 -> Zpos (digits2_pos m2) = 53 ->
  -52 <= e1 <= 0 -> -52 <= e2 <= 0 ->
  SFdiv 53 1024 (S754_finite false m1 e1) (S754_finite false m2 e2)
  = binary_round_aux 53 1024 false
      ((Zpos m1 * 2 ^ 53) / Zpos m2) (e1 - e2 - 53)
      (new_location (Zpos m2) ((Zpos m1 * 2 ^ 53) mod Zpos m2)).
Proof.
  intros Hd1 Hd2 He1 He2. unfold SFdiv, SFdiv_core_binary. cbn [Zdigits2 xorb].
  rewrite Hd1, Hd2, fexp_normal by lia.
  replace (Z.min (53 + e1 - (53 + e2) - 53) (e1 - e2)) with (e1 - e2 - 53) by lia.
  replace (e1 - e2 - (e1 - e2 - 53)) with 53 by lia.
  rewrite Z.shiftl_mul_pow2 by lia.
  unfold Z.div, Z.modulo.
  destruct (Z.div_eucl (Zpos m1 * 2 ^ 53) (Zpos m2)) as [q r]. reflexivity.
Qed.

Lemma to_int_finite mf ef s :
  0 <= s -> - s <= ef ->
  Float.to_int (S754_finite false mf ef) = inr ((Zpos mf * 2 ^ (ef + s)) / 2 ^ s).
Proof.
  intros Hs Hef. unfold Float.to_int. f_equal.
  destruct ef as [|p|p].
  - rewrite Z.add_0_l, Z.div_mul by (apply Z.pow_nonzero; lia). reflexivity.
  - rewrite Z.pow_add_r, Z.mul_assoc, Z.div_mul by (try apply Z.pow_nonzero; lia).
    reflexivity.
  - replace s with ((Zneg p + s) + Zpos p) at 2 by lia.
    rewrite (Z.pow_add_r 2 (Zneg p + s) (Zpos p)) by lia.
    rewrite (Z.mul_comm (2 ^ (Zneg p + s)) (2 ^ Zpos p)).
    rewrite Z.div_mul_cancel_r by (apply Z.pow_nonzero; lia).
    reflexivity.
Qed.

(** [int(a / b)] on ints below [2^53] is the floor of the quotient. *)
Lemma int_true_div (a b : Z) :
  0 <= a < 2 ^ 53 -> 0 < b < 2 ^ 53 ->
  exists q, Float.true_div a b = inr q /\ Float.to_int q = inr (a / b).
Proof.
  intros Ha Hb. unfold Float.true_div.
  destruct (Z.eqb_spec b 0) as [?|_]; [lia|].
  destruct b as [|pb|pb]; [lia| |lia].
  destruct (of_int_pos pb) as (mb & -> & Hdb & Hmb); [lia|].
  destruct a as [|pa|pa]; [| |lia].
  { eexists. split; [reflexivity|]. reflexivity. }
  destruct (of_int_pos pa) as (ma & -> & Hda & Hma); [lia|].
  eexists. split; [reflexivity|].
  pose proof (digits_bounds pa) as [Halo Hahi].
  pose proof (digits_bounds pb) as [Hblo Hbhi].
  pose proof (digits_bounds ma) as [Hmalo Hmahi].
  pose proof (digits_bounds mb) as [Hmblo Hmbhi].
  rewrite Hda in Hmalo, Hmahi. rewrite Hdb in Hmblo, Hmbhi.
  set (da := Zpos (digits2_pos pa)) in *. set (db := Zpos (digits2_pos pb)) in *.
  assert (Hda' : 1 <= da <= 53).
  { split; [subst da; lia|]. destruct (Z.le_gt_cases da 53) as [?|Hgt]; [done|].
    assert (2 ^ 53 <= 2 ^ (da - 1)) by (apply Z.pow_le_mono_r; lia). lia. }
  assert (Hdb' : 1 <= db <= 53).
  { split; [subst db; lia|]. destruct (Z.le_gt_cases db 53) as [?|Hgt]; [done|].
    assert (2 ^ 53 <= 2 ^ (db - 1)) by (apply Z.pow_le_mono_r; lia). lia. }
  rewrite div_normal by lia.
  set (N := Zpos ma * 2 ^ 53). set (D := Zpos mb).
  set (s := 53 + db - da).
  replace (da - 53 - (db - 53) - 53) with (- s) by lia.
  assert (HD : 2 ^ 52 <= D < 2 ^ 53) by (subst D; simpl Z.sub in *; lia).
  assert (HN : 2 ^ 105 <= N < 2 ^ 106).
  { subst N. change (2 ^ 105) with (2 ^ 52 * 2 ^ 53). change (2 ^ 106) with (2 ^ 53 * 2 ^ 53).
    simpl Z.sub in *. lia. }
  assert (Hq : 2 ^ 52 <= N / D < 2 ^ 54).
  { split; [apply Z.div_le_lower_bound | apply Z.div_lt_upper_bound]; nia. }
  pose proof (Z.div_mod N D ltac:(lia)) as HNqr.
  pose proof (Z.mod_pos_bound N D ltac:(lia)) as Hr.
  destruct (round_aux_div (N / D) (N mod D) D (- s) Hr Hq) as
    (mf & ef & j & mr & -> & Hef & Hj & Hval & Habs); [lia|].
  rewrite (to_int_finite mf ef s) by lia. f_equal.
  replace (ef - - s) with (ef + s) in Hval by lia.
  rewrite Hval. replace (N / D * D + N mod D) with N in Habs by lia.
  (* the exact quotient, scaled by [T] *)
  set (T := 2 ^ (106 - da)).
  assert (HT : 2 ^ 53 <= T) by (apply Z.pow_le_mono_r; lia).
  assert (HNT : N = Zpos pa * T).
  { subst N T. rewrite Hma. replace (106 - da) with ((53 - da) + 53) by lia.
    rewrite Z.pow_add_r by lia. ring. }
  assert (HDT : D * 2 ^ s = Zpos pb * T).
  { subst D T s. rewrite Hmb. replace (106 - da) with ((53 - db) + (53 + db - da)) by lia.
    rewrite Z.pow_add_r by lia. ring. }
  set (n := Zpos pa / Zpos pb).
  pose proof (Z.div_mod (Zpos pa) (Zpos pb) ltac:(lia)) as Hab. fold n in Hab.
  pose proof (Z.mod_pos_bound (Zpos pa) (Zpos pb) ltac:(lia)) as Hrho.
  set (rho := Zpos pa mod Zpos pb) in *.
  assert (Hg : 2 ^ j = 1 \/ 2 ^ j = 2).
  { assert (j = 0 \/ j = 1) as [->| ->] by lia; [left | right]; reflexivity. }
  assert (Hsplit : 2 ^ s = 2 ^ j * 2 ^ (s - j)).
  { rewrite <- Z.pow_add_r by lia. f_equal. lia. }
  set (g := 2 ^ j) in *. set (k := 2 ^ (s - j)) in *.
  assert (Hk : 0 < k) by (apply Z.pow_pos_nonneg; lia).
  assert (Hpow : 0 < 2 ^ s) by (apply Z.pow_pos_nonneg; lia).
  symmetry. apply Z.div_unique with (r := mr * g - 2 ^ s * n); [|lia].
  left. split.
  - (* at least [n] *)
    destruct (Z.le_gt_cases (2 ^ s * n) (mr * g)) as [?|Hlt]; [lia|]. exfalso.
    rewrite Hsplit in Hlt, HDT. rewrite HNT in Habs. clearbody g k T.
    assert (Hmr : mr + 1 <= k * n) by (destruct Hg as [->| ->]; lia).
    assert (H1 : (mr + 1) * D <= k * n * D) by (apply Z.mul_le_mono_nonneg_r; lia).
    assert (H2 : D * (g * k) * n = Zpos pb * T * n) by (by rewrite HDT).
    assert (H3 : Zpos pb * n * T <= Zpos pa * T) by (apply Z.mul_le_mono_nonneg_r; lia).
    destruct Hg as [->| ->]; lia.
  - (* below [n + 1] *)
    destruct (Z.lt_ge_cases (mr * g) (2 ^ s * n + 2 ^ s)) as [?|Hge]; [lia|]. exfalso.
    rewrite Hsplit in Hge, HDT. rewrite HNT in Habs. clearbody g k T.
    assert (H1 : g * k * (n + 1) * D <= mr * g * D)
      by (apply Z.mul_le_mono_nonneg_r; lia).
    assert (H2 : D * (g * k) * (n + 1) = Zpos pb * T * (n + 1)) by (by rewrite HDT).
    assert (H3 : (Zpos pa + 1) * T <= Zpos pb * (n + 1) * T)
      by (apply Z.mul_le_mono_nonneg_r; lia).
    destruct Hg as [->| ->]; lia.
Qed.

End FloatFacts.

(** ** The effect monad *)

Section MonadFacts.
Context {A B : Type}.

Lemma returns_ret (a : A) (w : world) : returns (mret a) w a w.
Proof. split; reflexivity. Qed.

Lemma returns_bind (m : M A) (k : A -> M B) w a w1 b w2 :
  returns m w a w1 -> returns (k a) w1 b w2 -> returns (m ≫= k) w b w2.
Proof.
  intros [Hm Hr1] [Hk Hr2]. split; [|congruence].
  unfold mbind, M_bind. rewrite Hm. exact Hk.
Qed.

Lemma returns_report_warning msg docname lineno w :
  returns (report_warning msg docname lineno) w tt
          (World (warnings w ++ [Warning msg docname lineno]) (replaced w)).
Proof. split; reflexivity. Qed.

Lemma returns_eq (m : M A) w a w' : returns m w a w' -> m w = (inr a, w').
Proof. intros [E _]. exact E. Qed.

End MonadFacts.

(** A loop returns when its body does; [I done s] relates the state to the
    elements already processed. *)
Lemma for_each_returns {A S : Type} (I : list A -> S -> Prop) (body : S -> A -> M S) :
  forall (l done : list A) (s : S) (w : world),
    I done s ->
    (forall pre x s w, x ∈ l -> I pre s ->
        exists s' w', returns (body s x) w s' w' /\ I (pre ++ [x]) s') ->
    exists s' w', returns (for_each l body s) w s' w' /\ I (done ++ l) s'.
Proof.
  induction l as [|x l IH]; intros done s w HI Hbody.
  - exists s, w. rewrite app_nil_r. split; [apply returns_ret | exact HI].
  - destruct (Hbody done x s w) as (s1 & w1 & Hr1 & HI1); [left | exact HI |].
    destruct (IH (done ++ [x]) s1 w1 HI1) as (s2 & w2 & Hr2 & HI2).
    + intros pre y s' w' Hy HI'. apply Hbody; [by right | exact HI'].
    + exists s2, w2. split.
      * simpl. eapply returns_bind; eassumption.
      * rewrite <- app_assoc in HI2. exact HI2.
Qed.

Lemma enumerate_lookup {A : Type} (l : list A) (i : nat) (x : A) :
  (i, x) ∈ enumerate l -> i < length l /\ x ∈ l.
Proof.
  unfold enumerate. intros Hin. apply list_elem_of_In in Hin.
  split.
  - apply in_combine_l in Hin. apply in_seq in Hin. lia.
  - apply in_combine_r in Hin. by apply list_elem_of_In.
Qed.

Lemma enumerate_snd {A : Type} (l : list A) : map snd (enumerate l) = l.
Proof.
  unfold enumerate. generalize 0. induction l as [|x l IH]; intros n; simpl; [done|].
  by rewrite IH.
Qed.

(** ** Nodes *)

Section NodeFacts.

Lemma class_of_append n ch : nodes.class_of (nodes.append n ch) = nodes.class_of n.
Proof. destruct n; reflexivity. Qed.

Lemma class_of_iadd n o : nodes.class_of (nodes.iadd n o) = nodes.class_of n.
Proof. destruct o; [apply class_of_append | reflexivity]. Qed.

Lemma class_of_extend n l : nodes.class_of (nodes.extend n l) = nodes.class_of n.
Proof. destruct n; reflexivity. Qed.

Lemma class_of_set n k v : nodes.class_of (nodes.set n k v) = nodes.class_of n.
Proof. destruct n; reflexivity. Qed.

Lemma class_of_extend_attr n k l :
  nodes.class_of (nodes.extend_attr n k l) = nodes.class_of n.
Proof. destruct n as [|c r a ch]; simpl; [reflexivity|]. repeat case_match; reflexivity. Qed.

Lemma has_class_iadd c n o : has_class c (nodes.iadd n o) = has_class c n.
Proof. unfold has_class. rewrite class_of_iadd. reflexivity. Qed.

Lemma has_class_element c c' r ch attrs :
  has_class c (nodes.element c' r ch attrs) = bool_decide (c' = c).
Proof.
  unfold has_class, nodes.element. simpl.
  apply bool_decide_ext. split; congruence.
Qed.

Lemma contains_class_element c c' r ch attrs :
  contains_class c (nodes.element c' r ch attrs)
  = bool_decide (c' = c) || existsb (contains_class c) ch.
Proof. reflexivity. Qed.

Lemma contains_class_other c c' r ch attrs :
  c' <> c ->
  contains_class c (nodes.element c' r ch attrs) = existsb (contains_class c) ch.
Proof. intros Hne. rewrite contains_class_element. by rewrite bool_decide_false. Qed.

Lemma contains_class_text_element c c' r text ch attrs :
  contains_class c (nodes.text_element c' r text ch attrs)
  = bool_decide (c' = c) || existsb (contains_class c) ch.
Proof. unfold nodes.text_element. destruct (String.eqb text ""); reflexivity. Qed.

Lemma contains_class_extend c n l :
  contains_class c n = false -> forallb (fun x => negb (contains_class c x)) l = true ->
  contains_class c (nodes.extend n l) = false.
Proof.
  destruct n as [|c' r a ch]; simpl; [done|].
  intros Hn Hl. apply orb_false_iff in Hn as [Hc Hch].
  rewrite Hc, existsb_app, Hch. simpl.
  clear -Hl. induction l as [|x l IH]; simpl in *; [done|].
  apply andb_true_iff in Hl as [Hx Hl]. apply negb_true_iff in Hx.
  rewrite Hx. auto.
Qed.

Lemma contains_class_append c n ch :
  contains_class c n = false -> contains_class c ch = false ->
  contains_class c (nodes.append n ch) = false.
Proof.
  intros Hn Hch. change (nodes.append n ch) with (nodes.append n ch).
  destruct n as [|c' r a l]; simpl in *; [done|].
  apply orb_false_iff in Hn as [Hc Hl].
  rewrite Hc, existsb_app, Hl. simpl. rewrite Hch. reflexivity.
Qed.

Lemma contains_class_iadd c n o :
  contains_class c n = false ->
  (forall ch, o = Some ch -> contains_class c ch = false) ->
  contains_class c (nodes.iadd n o) = false.
Proof.
  intros Hn Ho. destruct o as [ch|]; simpl; [|exact Hn].
  apply contains_class_append; auto.
Qed.

Lemma contains_class_set c n k v :
  contains_class c (nodes.set n k v) = contains_class c n.
Proof. destruct n; reflexivity. Qed.

Lemma contains_class_extend_attr c n k l :
  contains_class c (nodes.extend_attr n k l) = contains_class c n.
Proof. destruct n as [|c' r a ch]; simpl; [reflexivity|]. repeat case_match; reflexivity. Qed.

Lemma children_element c r ch attrs : nodes.children (nodes.element c r ch attrs) = ch.
Proof. reflexivity. Qed.

Lemma append_element c r ch attrs x :
  nodes.append (nodes.element c r ch attrs) x = nodes.element c r (ch ++ [x]) attrs.
Proof. reflexivity. Qed.

Lemma extend_element c r ch attrs l :
  nodes.extend (nodes.element c r ch attrs) l = nodes.element c r (ch ++ l) attrs.
Proof. reflexivity. Qed.

Lemma text_element_empty c r ch attrs :
  nodes.text_element c r "" ch attrs = nodes.element c r ch attrs.
Proof. reflexivity. Qed.

Lemma append_extend_attr n k l x :
  nodes.append (nodes.extend_attr n k l) x = nodes.extend_attr (nodes.append n x) k l.
Proof.
  destruct n as [|c r a ch]; simpl; [reflexivity|].
  destruct (a !! k) as [[| |l0]|]; reflexivity.
Qed.

Lemma fold_iadd_element c r attrs (l ch : list node) :
  fold_left (fun n x => nodes.iadd n (Some x)) l (nodes.element c r ch attrs)
  = nodes.element c r (ch ++ l) attrs.
Proof.
  revert ch. induction l as [|x l IH]; intros ch; cbn [fold_left nodes.iadd].
  - rewrite app_nil_r. reflexivity.
  - rewrite append_element, IH, <- app_assoc. reflexivity.
Qed.

End NodeFacts.

(** ** References to items *)

Section ReferenceFacts.
Context `{Host}.

Lemma get_caption_info_hover item_info show_caption caption hover :
  TraceableBaseNode._get_caption_info item_info show_caption = (caption, Some hover) ->
  contains_class nodes.target hover = false.
Proof.
  unfold TraceableBaseNode._get_caption_info. intros E.
  repeat case_match; simplify_eq.
  rewrite contains_class_extend_attr, contains_class_text_element. reflexivity.
Qed.

(** A reference to an item that resolves is built without an exception: a
    paragraph that holds no [target] node. *)
Lemma make_internal_item_ref_returns self app item_id show_caption w :
  Spec.resolves app item_id ->
  exists p w',
    returns (TraceableBaseNode.make_internal_item_ref self app item_id show_caption) w p w' /\
    has_class nodes.paragraph p = true /\
    contains_class nodes.target p = false.
Proof.
  intros [[item_info Hitem] Hcolors].
  unfold TraceableBaseNode.make_internal_item_ref. rewrite Hitem.
  set (colors := TraceableBaseNode._find_colors_for_class _ item_id) in *.
  assert (Hfinish : forall (notification : option (string * TraceableItem.t)) w, exists p w',
    returns
      (let '(caption, caption_on_hover) :=
         TraceableBaseNode._get_caption_info item_info show_caption in
       let newnode := nodes.text_element nodes.reference "" "" [] [] in
       let innernode :=
         nodes.text_element nodes.emphasis (item_id +:+ caption) (item_id +:+ caption) [] [] in
       let newnode :=
         match notification with
         | None =>
             match get_relative_uri (builder app) (attr.document self)
                     (TraceableItem.docname item_info) with
             | Some uri =>
                 nodes.set (nodes.set newnode "refuri" (AStr (uri +:+ "#" +:+ item_id)))
                   "refdocname" (AStr (TraceableItem.docname item_info))
             | None => newnode
             end
         | Some (notification_item_id, notification_item) =>
             match get_relative_uri (builder app) (attr.document self)
                     (TraceableItem.docname notification_item) with
             | Some uri =>
                 nodes.set
                   (nodes.set newnode "refuri" (AStr (uri +:+ "#" +:+ notification_item_id)))
                   "refdocname" (AStr (TraceableItem.docname notification_item))
             | None => newnode
             end
         end in
       newnode ←
         match colors with
         | Some (c :: cs) =>
             match traceability_class_names (config app) !! (c :: cs) with
             | Some class_name => mret (nodes.extend_attr newnode "classes" [class_name])
             | None => raise (KeyError "traceability_class_names")
             end
         | _ => mret newnode
         end;
       let innernode :=
         match caption_on_hover with
         | Some hover =>
             if is_latex (builder app) then innernode
             else nodes.append
                    (nodes.extend_attr innernode "classes" ["has_hidden_caption"]) hover
         | None => innernode
         end in
       let newnode := nodes.append newnode innernode in
       mret (nodes.iadd (nodes.element nodes.paragraph "" [] []) (Some newnode)))
      w p w' /\
    has_class nodes.paragraph p = true /\ contains_class nodes.target p = false).
  { intros notification w1.
    destruct (TraceableBaseNode._get_caption_info item_info show_caption)
      as [caption caption_on_hover] eqn:Hcap.
    cbv zeta.
    set (newnode := match notification with Some _ => _ | None => _ end).
    assert (Hnew : contains_class nodes.target newnode = false
                   /\ has_class nodes.reference newnode = true).
    { subst newnode. repeat case_match;
        rewrite ?contains_class_set; unfold has_class;
        rewrite ?class_of_set; split; reflexivity. }
    clearbody newnode. destruct Hnew as [Hnew Hnewc].
    set (innernode := match caption_on_hover with Some _ => _ | None => _ end).
    assert (Hinner : contains_class nodes.target innernode = false).
    { subst innernode. destruct caption_on_hover as [hover|].
      - destruct (is_latex (builder app)).
        + rewrite contains_class_text_element. reflexivity.
        + apply contains_class_append.
          * rewrite contains_class_extend_attr, contains_class_text_element. reflexivity.
          * eapply get_caption_info_hover; eassumption.
      - rewrite contains_class_text_element. reflexivity. }
    clearbody innernode.
    assert (Hcls : exists newnode',
      (match colors with
       | Some (c :: cs) =>
           match traceability_class_names (config app) !! (c :: cs) with
           | Some class_name => mret (nodes.extend_attr newnode "classes" [class_name])
           | None => raise (KeyError "traceability_class_names")
           end
       | _ => mret newnode
       end : M node) = mret newnode' /\ contains_class nodes.target newnode' = false).
    { destruct colors as [[|c cs]|] eqn:Hc; try (by exists newnode).
      destruct (Hcolors c cs eq_refl) as [class_name ->].
      eexists; split; [reflexivity|]. by rewrite contains_class_extend_attr. }
    destruct Hcls as (newnode' & -> & Hnew').
    eexists _, w1. split; [split; reflexivity|]. split.
    - rewrite has_class_iadd. reflexivity.
    - apply contains_class_iadd; [reflexivity|].
      intros ch [= <-]. apply contains_class_append; assumption. }
  cbv zeta in Hfinish |- *.
  destruct (TraceableItem.is_placeholder item_info) eqn:Hph; [|exact (Hfinish None w)].
  destruct (traceability_notifications (config app) !! "undefined-reference") as [nid|];
    simpl.
  - destruct (TraceableCollection.get_item (traceability_collection app) nid) as [it|];
      simpl; [exact (Hfinish (Some (nid, it)) w)|].
    unfold TraceableBaseNode.has_warned_about_undefined. rewrite Hph.
    eexists _, _. split; [split; reflexivity|]. split; reflexivity.
  - unfold TraceableBaseNode.has_warned_about_undefined. rewrite Hph.
    eexists _, _. split; [split; reflexivity|]. split; reflexivity.
Qed.

End ReferenceFacts.

(** ** Building the rows *)

Section RowFacts.
Context `{Host}.

Lemma iadd_at_returns ext_free n rights idx (other : M node) ref w w' :
  Spec.cells_ok ext_free n rights -> idx < n ->
  returns other w ref w' ->
  contains_class nodes.target ref = false ->
  exists rights',
    returns (ItemMatrix.iadd_at rights idx other) w rights' w' /\
    Spec.cells_ok ext_free n rights'.
Proof.
  intros (Hlen & Hent & Hfree) Hidx Hret Hother. unfold ItemMatrix.iadd_at.
  destruct (lookup_lt_is_Some_2 rights idx) as [r Hr]; [lia|].
  rewrite Hr. eexists. split; [eapply returns_bind; [exact Hret | apply returns_ret]|].
  split; [by rewrite length_insert|]. split.
  - apply Forall_insert; [exact Hent|].
    rewrite has_class_iadd. eapply Forall_lookup_1 in Hent; eauto.
  - intros Hb. apply Forall_insert; [auto|].
    apply contains_class_iadd.
    + specialize (Hfree Hb). eapply Forall_lookup_1 in Hfree; eauto.
    + by intros ch [= <-].
Qed.

(** The loops that fill the cells return, keep the cells well formed and
    raise the flag exactly when some test succeeds. *)
Lemma fill_cells_returns {X : Type} self app (inner : X -> list string)
      (test : X -> string -> bool) (l : list X) ext_free n rights is_covered w :
  Spec.cells_ok ext_free n rights -> length l <= n ->
  (forall x target_id, x ∈ l -> target_id ∈ inner x -> test x target_id = true ->
     Spec.resolves app target_id) ->
  exists rights' w',
    returns (Spec.fill_cells self app inner test l (rights, is_covered)) w
            (rights', is_covered || existsb (fun x => existsb (test x) (inner x)) l) w' /\
    Spec.cells_ok ext_free n rights'.
Proof.
  intros Hcells Hlen Hres. unfold Spec.fill_cells.
  pose (I := fun (done : list (nat * X)) (st : list node * bool) =>
               Spec.cells_ok ext_free n (fst st) /\
               snd st = is_covered
                        || existsb (fun x => existsb (test x) (inner x)) (map snd done)).
  destruct (for_each_returns I
              (fun st '(idx, x) =>
                 for_each (inner x)
                   (fun '(rights, is_covered) target_id =>
                      if test x target_id
                      then
                        rights ←
                          ItemMatrix.iadd_at rights idx
                            (TraceableBaseNode.make_internal_item_ref self app target_id true);
                        mret (rights, true)
                      else mret (rights, is_covered))
                   st)
              (enumerate l) [] (rights, is_covered) w)
    as ([rights' c'] & w' & Hret & Hcells' & Hc').
  - split; [exact Hcells|]. simpl. by rewrite orb_false_r.
  - intros pre [idx x] [rights1 c1] w1 Hin [Hcells1 Hc1]. simpl in Hcells1, Hc1.
    apply enumerate_lookup in Hin as [Hidx Hx].
    pose (J := fun (done : list string) (st : list node * bool) =>
                 Spec.cells_ok ext_free n (fst st) /\
                 snd st = c1 || existsb (test x) done).
    destruct (for_each_returns J
                (fun '(rights, is_covered) target_id =>
                   if test x target_id
                   then
                     rights ←
                       ItemMatrix.iadd_at rights idx
                         (TraceableBaseNode.make_internal_item_ref self app target_id true);
                     mret (rights, true)
                   else mret (rights, is_covered))
                (inner x) [] (rights1, c1) w1)
      as ([rights2 c2] & w2 & Hret2 & Hcells2 & Hc2).
    + split; [exact Hcells1|]. simpl. by rewrite orb_false_r.
    + intros pre' target_id [rights3 c3] w3 Hin' [Hcells3 Hc3]. simpl in Hcells3, Hc3.
      destruct (test x target_id) eqn:Htest.
      * destruct (make_internal_item_ref_returns self app target_id true w3)
          as (ref & w4 & Href & _ & Hfree); [eauto|].
        destruct (iadd_at_returns ext_free n rights3 idx
                    (TraceableBaseNode.make_internal_item_ref self app target_id true)
                    ref w3 w4)
          as (rights4 & Hret4 & Hcells4); [exact Hcells3 | lia | exact Href | exact Hfree |].
        exists (rights4, true), w4. split.
        -- eapply returns_bind; [exact Hret4 | apply returns_ret].
        -- split; [exact Hcells4|]. simpl.
           rewrite existsb_app. simpl. rewrite Htest.
           by rewrite orb_true_r, orb_true_r.
      * exists (rights3, c3), w3. split; [apply returns_ret|].
        split; [exact Hcells3|]. simpl.
        rewrite existsb_app. simpl. rewrite Htest. by rewrite !orb_false_r.
    + exists (rights2, c2), w2. split; [exact Hret2|].
      split; [exact Hcells2|]. simpl in Hc2 |- *.
      rewrite map_app, existsb_app. simpl.
      rewrite Hc2, Hc1. by rewrite orb_false_r, orb_assoc.
  - simpl in Hcells', Hc'. rewrite enumerate_snd in Hc'. subst c'.
    exists rights', w'. split; [exact Hret | exact Hcells'].
Qed.

(** Lines 81-86. *)
Lemma add_external_targets_returns app source_item external_relationships
      n rights is_covered w :
  Spec.cells_ok false n rights ->
  (external_relationships <> [] -> is_Some source_item) ->
  exists rights' w',
    returns (ItemMatrix.add_external_targets app source_item external_relationships
               (rights, is_covered)) w
            (rights',
             is_covered
             || existsb
                  (fun ext_rel =>
                     match source_item with
                     | Some source_item =>
                         bool_decide (TraceableItem.iter_targets source_item ext_rel <> [])
                     | None => false
                     end) external_relationships) w' /\
    Spec.cells_ok false n rights' /\
    (external_relationships = [] -> rights' = rights).
Proof.
  intros Hcells Hitem. unfold ItemMatrix.add_external_targets.
  destruct (decide (external_relationships = [])) as [->|Hne].
  { exists rights, w. simpl. rewrite orb_false_r.
    split; [apply returns_ret|]. split; [exact Hcells | done]. }
  destruct (Hitem Hne) as [item ->].
  pose (I := fun (done : list string) (st : list node * bool) =>
               Spec.cells_ok false n (fst st) /\
               snd st = is_covered
                        || existsb (fun ext_rel =>
                             bool_decide (TraceableItem.iter_targets item ext_rel <> []))
                             done).
  destruct (for_each_returns I
              (fun st ext_relationship =>
                 for_each (TraceableItem.iter_targets item ext_relationship)
                   (fun '(rights, _) target_id =>
                      let ext_item_ref :=
                        TraceableBaseNode.make_external_item_ref app target_id
                          ext_relationship in
                      mret (map (fun right => nodes.iadd right ext_item_ref) rights, true))
                   st)
              external_relationships [] (rights, is_covered) w)
    as ([rights' c'] & w' & Hret & Hcells' & Hc').
  - split; [exact Hcells|]. simpl. by rewrite orb_false_r.
  - intros pre rel [rights1 c1] w1 _ [Hcells1 Hc1]. simpl in Hcells1, Hc1.
    pose (J := fun (done : list string) (st : list node * bool) =>
                 Spec.cells_ok false n (fst st) /\
                 snd st = c1 || bool_decide (done <> [])).
    destruct (for_each_returns J
                (fun '(rights, _) target_id =>
                   let ext_item_ref :=
                     TraceableBaseNode.make_external_item_ref app target_id rel in
                   mret (map (fun right => nodes.iadd right ext_item_ref) rights, true))
                (TraceableItem.iter_targets item rel) [] (rights1, c1) w1)
      as ([rights2 c2] & w2 & Hret2 & Hcells2 & Hc2).
    + split; [exact Hcells1|]. simpl. by rewrite orb_false_r.
    + intros pre' target_id [rights3 c3] w3 _ [Hcells3 _]. simpl in Hcells3.
      eexists (_, true), w3. split; [apply returns_ret|]. split; simpl.
      * destruct Hcells3 as (Hlen & Hent & _). split; [by rewrite length_map|].
        split; [|done]. apply Forall_map. eapply Forall_impl; [exact Hent|].
        intros r Hr. simpl. by rewrite has_class_iadd.
      * rewrite bool_decide_true; [by rewrite orb_true_r|]. by destruct pre'.
    + exists (rights2, c2), w2. split; [exact Hret2|].
      split; [exact Hcells2|]. simpl in Hc2 |- *.
      rewrite existsb_app. simpl. rewrite Hc2, Hc1. by rewrite orb_false_r, orb_assoc.
  - simpl in Hcells', Hc'. subst c'.
    exists rights', w'. split; [exact Hret|]. split; [exact Hcells' | done].
Qed.

Lemma existsb_map_list {A B : Type} (f : A -> B) (p : B -> bool) (l : list A) :
  existsb p (map f l) = existsb (fun x => p (f x)) l.
Proof. induction l as [|x l IH]; simpl; [done|]. by rewrite IH. Qed.

Lemma empty_rights_ok self ext_free :
  Spec.cells_ok ext_free (ItemMatrix.number_of_columns self - 1) (ItemMatrix.empty_rights self).
Proof.
  unfold ItemMatrix.empty_rights. split; [apply repeat_length|].
  split; [|intros _]; apply Forall_forall; intros x Hx;
    apply list_elem_of_In, repeat_spec in Hx; by subst.
Qed.

Lemma targets_fit self : length (attr.target self) <= ItemMatrix.number_of_columns self - 1.
Proof. unfold ItemMatrix.number_of_columns. lia. Qed.

Lemma store_row_row rows left rights flag :
  ItemMatrix._store_row rows left rights flag
  = {| ItemMatrix.sorted := ItemMatrix.sorted rows ++ [Spec.row_of left rights];
       ItemMatrix.covered :=
         if flag then ItemMatrix.covered rows ++ [Spec.row_of left rights]
         else ItemMatrix.covered rows;
       ItemMatrix.uncovered :=
         if flag then ItemMatrix.uncovered rows
         else ItemMatrix.uncovered rows ++ [Spec.row_of left rights] |}.
Proof.
  unfold ItemMatrix._store_row, Spec.row_of. cbn [nodes.iadd].
  rewrite append_element, fold_iadd_element. reflexivity.
Qed.

Lemma store_row_rows_are built rows left rights flag :
  Spec.rows_are built rows ->
  Spec.rows_are (built ++ [(Spec.row_of left rights, flag)])
                (ItemMatrix._store_row rows left rights flag).
Proof.
  intros (Hs & Hc & Hu). rewrite store_row_row. unfold Spec.rows_are. simpl.
  rewrite !filter_app, !map_app, Hs, Hc, Hu.
  destruct flag; cbn; rewrite ?app_nil_r; done.
Qed.

Lemma row_of_ext_free left rights :
  contains_class nodes.target left = false ->
  Forall (fun right => contains_class nodes.target right = false) rights ->
  contains_class nodes.target (Spec.row_of left rights) = false.
Proof.
  intros Hl Hr. unfold Spec.row_of. rewrite contains_class_element. simpl.
  rewrite Hl. simpl. clear Hl.
  induction Hr as [|x l Hx _ IH]; simpl; [done|]. by rewrite Hx.
Qed.

(** Lines 75-92: the row of a source item. *)
Lemma source_row_returns self app collection rows source_id w :
  Spec.resolves app source_id ->
  (Spec.external_relationships self collection <> [] ->
   is_Some (TraceableCollection.get_item collection source_id)) ->
  (forall target_regex target_id,
      target_regex ∈ attr.target self ->
      target_id ∈ TraceableCollection.get_items collection target_regex None ->
      TraceableCollection.are_related collection source_id
        (Spec.relationships self collection) target_id = true ->
      Spec.resolves app target_id) ->
  exists left rights w',
    returns
      (ItemMatrix.source_row self app collection
         (Spec.relationships self collection) (Spec.external_relationships self collection)
         (map (fun target_regex =>
                 TraceableCollection.get_items collection target_regex None)
              (attr.target self))
         rows source_id) w
      (ItemMatrix._store_row rows left rights
         (Spec.found self collection (Spec.Internal source_id))) w' /\
    Spec.left_of self app (Spec.Internal source_id) left /\
    Spec.cells_ok false (ItemMatrix.number_of_columns self - 1) rights /\
    (Spec.external_relationships self collection = [] ->
     contains_class nodes.target (Spec.row_of left rights) = false).
Proof.
  intros Hsrc Hitem Htargets. unfold ItemMatrix.source_row.
  destruct (make_internal_item_ref_returns self app source_id true w Hsrc)
    as (ref & w1 & Href & _ & Hreffree).
  destruct (add_external_targets_returns app
              (TraceableCollection.get_item collection source_id)
              (Spec.external_relationships self collection)
              (ItemMatrix.number_of_columns self - 1)
              (ItemMatrix.empty_rights self) false w1)
    as (rights1 & w2 & Hext & Hcells1 & Hsame);
    [apply empty_rights_ok | exact Hitem |].
  set (ext_free := bool_decide (Spec.external_relationships self collection = [])).
  assert (Hcells1' : Spec.cells_ok ext_free (ItemMatrix.number_of_columns self - 1) rights1).
  { subst ext_free. case_bool_decide as Hd.
    - rewrite (Hsame Hd). apply empty_rights_ok.
    - exact Hcells1. }
  destruct (fill_cells_returns self app (fun target_ids : list string => target_ids)
              (fun _ => TraceableCollection.are_related collection source_id
                          (Spec.relationships self collection))
              (map (fun target_regex =>
                      TraceableCollection.get_items collection target_regex None)
                   (attr.target self))
              ext_free (ItemMatrix.number_of_columns self - 1) rights1
              (false || existsb
                  (fun ext_rel =>
                     match TraceableCollection.get_item collection source_id with
                     | Some source_item =>
                         bool_decide (TraceableItem.iter_targets source_item ext_rel <> [])
                     | None => false
                     end) (Spec.external_relationships self collection)) w2)
    as (rights2 & w3 & Hfill & Hcells2).
  - exact Hcells1'.
  - rewrite length_map. apply targets_fit.
  - intros target_ids target_id Hin Hid Hrel.
    apply list_elem_of_fmap in Hin as (target_regex & -> & Hregex). eauto.
  - exists (nodes.element nodes.entry "" [ref] []), rights2, w3. split; [|split; [|split]].
    + eapply returns_bind; [exact Href|]. cbv zeta.
      eapply returns_bind; [exact Hext|].
      eapply returns_bind; [exact Hfill|].
      simpl. rewrite existsb_map_list.
      unfold Spec.found. apply returns_ret.
    + simpl. exists ref, w, w1. split; [apply (returns_eq _ _ _ _ Href) | reflexivity].
    + destruct Hcells2 as (? & ? & _). by repeat split.
    + intros Hnil. destruct Hcells2 as (_ & _ & Hfree).
      apply row_of_ext_free.
      * rewrite contains_class_element. simpl. by rewrite Hreffree.
      * apply Hfree. subst ext_free. by apply bool_decide_eq_true.
Qed.

(** Lines 95-106: the row of an external source. *)
Lemma external_row_returns self app collection ext_rel ext_source item_ids rows w :
  (forall target_regex target_id,
      target_regex ∈ attr.target self -> target_id ∈ item_ids ->
      re_match target_regex target_id = true -> Spec.resolves app target_id) ->
  exists left rights w',
    returns (ItemMatrix.external_row self app ext_rel rows (ext_source, item_ids)) w
      (ItemMatrix._store_row rows left rights
         (Spec.found self collection (Spec.External ext_rel ext_source item_ids))) w' /\
    Spec.left_of self app (Spec.External ext_rel ext_source item_ids) left /\
    Spec.cells_ok false (ItemMatrix.number_of_columns self - 1) rights.
Proof.
  intros Hres. unfold ItemMatrix.external_row.
  destruct (fill_cells_returns self app (fun _ : string => item_ids) re_match
              (attr.target self) false (ItemMatrix.number_of_columns self - 1)
              (ItemMatrix.empty_rights self) false w)
    as (rights & w' & Hfill & Hcells);
    [apply empty_rights_ok | apply targets_fit | eauto |].
  eexists _, rights, w'. split; [|split; [reflexivity | exact Hcells]].
  eapply returns_bind; [exact Hfill|]. apply returns_ret.
Qed.

Lemma rows_built_store self app collection srcs rows src left rights :
  Spec.rows_built self app collection srcs rows ->
  Spec.left_of self app src left ->
  Spec.cells_ok false (ItemMatrix.number_of_columns self - 1) rights ->
  (Spec.external_relationships self collection = [] ->
   contains_class nodes.target (Spec.row_of left rights) = false) ->
  Spec.rows_built self app collection (srcs ++ [src])
    (ItemMatrix._store_row rows left rights (Spec.found self collection src)).
Proof.
  intros (built & Hall & Hrows & Hfree) Hleft (Hlen & Hent & _) Hrow.
  exists (built ++ [(Spec.row_of left rights, Spec.found self collection src)]).
  split; [|split].
  - apply Forall2_app; [exact Hall|]. constructor; [|constructor].
    exists left, rights. by repeat split.
  - by apply store_row_rows_are.
  - intros Hnil. apply Forall_app. split; [auto|]. constructor; [|constructor].
    simpl. auto.
Qed.

Lemma ext_map_nil self collection :
  ItemMatrix.ext_relations_to_target_map self collection [] = [].
Proof. reflexivity. Qed.

(** Lines 60-106: every row is built, in the order of [row_sources], and
    stored with the flag [found] gives for its source. *)
Lemma build_rows_returns self app collection w :
  Spec.ready self app collection ->
  exists rows w',
    returns (ItemMatrix.build_rows self app collection) w rows w' /\
    Spec.rows_built self app collection (Spec.row_sources self collection) rows.
Proof.
  intros Hready. unfold ItemMatrix.build_rows.
  pose proof (eq_refl : Spec.relationships self collection
                        = fst (ItemMatrix.select_relationships self collection)) as Hrels.
  pose proof (eq_refl : Spec.external_relationships self collection
                        = snd (ItemMatrix.select_relationships self collection)) as Hexts.
  destruct (ItemMatrix.select_relationships self collection) as [rels exts].
  simpl in Hrels, Hexts. rewrite <- Hrels, <- Hexts. clear rels exts Hrels Hexts.
  cbv zeta.
  (* the rows of the source items *)
  destruct (for_each_returns
              (fun done rows =>
                 Spec.rows_built self app collection (map Spec.Internal done) rows)
              (ItemMatrix.source_row self app collection
                 (Spec.relationships self collection)
                 (Spec.external_relationships self collection)
                 (map (fun target_regex =>
                         TraceableCollection.get_items collection target_regex None)
                      (attr.target self)))
              (Spec.source_ids self collection) []
              {| ItemMatrix.sorted := []; ItemMatrix.covered := [];
                 ItemMatrix.uncovered := [] |} w)
    as (rows1 & w1 & Hret1 & Hbuilt1).
  { exists []. split; [constructor|]. split; [done|]. by constructor. }
  { intros pre source_id rows0 w0 Hin Hbuilt0.
    destruct (source_row_returns self app collection rows0 source_id w0)
      as (left & rights & w0' & Hret & Hleft & Hcells & Hfree).
    - by apply (Spec.ready_sources _ _ _ Hready).
    - intros Hne. by apply (Spec.ready_source_items _ _ _ Hready).
    - intros target_regex target_id ? ? ?.
      by apply (Spec.ready_targets _ _ _ Hready source_id target_regex).
    - eexists _, w0'. split; [exact Hret|].
      rewrite map_app. by apply rows_built_store. }
  simpl in Hbuilt1.
  (* the rows of the external sources *)
  set (ext_map := ItemMatrix.ext_relations_to_target_map self collection
                    (Spec.external_relationships self collection)).
  assert (Hext : forall ext_rel m ext_source item_ids,
             (ext_rel, m) ∈ ext_map -> (ext_source, item_ids) ∈ m ->
             Spec.External ext_rel ext_source item_ids
             ∈ Spec.external_sources self collection).
  { intros ext_rel m ext_source item_ids Hm He. unfold Spec.external_sources.
    apply list_elem_of_bind. exists (ext_rel, m). split; [|exact Hm].
    apply list_elem_of_bind. exists (ext_source, item_ids). split; [|exact He].
    apply list_elem_of_singleton. reflexivity. }
  pose (flatten := fun l : list (string * list (string * list string)) =>
          '(ext_rel, m) ← l; '(ext_source, item_ids) ← m;
          [Spec.External ext_rel ext_source item_ids]).
  destruct (for_each_returns
              (fun done rows =>
                 Spec.rows_built self app collection
                   (map Spec.Internal (Spec.source_ids self collection) ++ flatten done) rows)
              (fun rows '(ext_rel, ext_targets_to_item_ids) =>
                 for_each ext_targets_to_item_ids
                   (ItemMatrix.external_row self app ext_rel) rows)
              ext_map [] rows1 w1)
    as (rows2 & w2 & Hret2 & Hbuilt2).
  { simpl. by rewrite app_nil_r. }
  { intros pre [ext_rel m] rows0 w0 Hin Hbuilt0.
    destruct (for_each_returns
                (fun done rows =>
                   Spec.rows_built self app collection
                     (map Spec.Internal (Spec.source_ids self collection) ++ flatten pre
                        ++ map (fun e => Spec.External ext_rel (fst e) (snd e)) done) rows)
                (ItemMatrix.external_row self app ext_rel) m [] rows0 w0)
      as (rows3 & w3 & Hret3 & Hbuilt3).
    - simpl. by rewrite app_nil_r.
    - intros pre' [ext_source item_ids] rows4 w4 Hin' Hbuilt4.
      destruct (external_row_returns self app collection ext_rel ext_source item_ids rows4 w4)
        as (left & rights & w5 & Hret & Hleft & Hcells).
      + intros target_regex target_id ? ? ?.
        eapply (Spec.ready_external _ _ _ Hready); eauto.
      + eexists _, w5. split; [exact Hret|].
        rewrite map_app, !app_assoc. simpl. apply rows_built_store; auto.
        * by rewrite <- !app_assoc.
        * intros Hnil. exfalso. subst ext_map. rewrite Hnil in Hin.
          by apply elem_of_nil in Hin.
    - exists rows3, w3. split; [exact Hret3|].
      simpl in Hbuilt3. unfold flatten at 1. rewrite bind_app. fold (flatten pre).
      simpl. rewrite app_nil_r.
      replace (m ≫= (fun '(ext_source, item_ids) =>
                       [Spec.External ext_rel ext_source item_ids]))
        with (map (fun e : string * list string =>
                     Spec.External ext_rel (fst e) (snd e)) m); [exact Hbuilt3|].
      clear. induction m as [|[a b] m IH]; simpl; [done|]. by rewrite IH. }
  exists rows2, w2. split.
  - eapply returns_bind; [exact Hret1 | exact Hret2].
  - exact Hbuilt2.
Qed.

End RowFacts.

(** ** The emitted node *)

Section ReplacementFacts.
Context `{Host}.

Lemma rows_built_lengths self app collection srcs rows :
  Spec.rows_built self app collection srcs rows ->
  length (ItemMatrix.sorted rows) = length srcs /\
  length (ItemMatrix.covered rows) <= length (ItemMatrix.sorted rows).
Proof.
  intros (built & Hall & (Hs & Hc & _) & _).
  rewrite Hs, Hc, !length_map. split.
  - symmetry. eapply Forall2_length; eassumption.
  - apply length_filter.
Qed.

(** Lines 118-126: the statistics line is computed without an exception. *)
Lemma statistics_returns rows w :
  (100 * Z.of_nat (length (ItemMatrix.covered rows)) < 2 ^ 53)%Z ->
  (Z.of_nat (length (ItemMatrix.sorted rows)) < 2 ^ 53)%Z ->
  returns (ItemMatrix.statistics rows) w
    (Spec.statistics_line (Z.of_nat (length (ItemMatrix.covered rows)))
                          (Z.of_nat (length (ItemMatrix.sorted rows)))) w.
Proof.
  intros Hc Ht. unfold ItemMatrix.statistics, Spec.statistics_line, Spec.floor_percentage.
  set (c := Z.of_nat (length (ItemMatrix.covered rows))) in *.
  set (t := Z.of_nat (length (ItemMatrix.sorted rows))) in *.
  split; [|reflexivity].
  unfold mbind, M_bind, try_except, lift.
  destruct (Z.eqb_spec t 0) as [Ht0|Ht0].
  - unfold Float.true_div. rewrite Ht0. reflexivity.
  - destruct (FloatFacts.int_true_div (100 * c) t) as (q & Hq & Hint); [lia | lia |].
    rewrite Hq, Hint. reflexivity.
Qed.

Lemma grouped_body self rows :
  ItemMatrix.grouped self rows (nodes.element nodes.tbody "" [] [])
  = nodes.element nodes.tbody "" (Spec.body self rows) [].
Proof.
  unfold ItemMatrix.grouped, Spec.body.
  repeat case_match; rewrite ?extend_element, ?app_nil_l; reflexivity.
Qed.

(** [perform_replacement] returns, having built the rows of [row_sources]
    and called [replace_self] once, with [emitted]. *)
Lemma perform_replacement_returns self app collection w :
  Spec.ready self app collection ->
  exists rows w',
    returns (ItemMatrix.build_rows self app collection) w rows w' /\
    Spec.rows_built self app collection (Spec.row_sources self collection) rows /\
    ItemMatrix.perform_replacement self app collection w
    = (inr tt, World (warnings w') (replaced w ++ [Spec.emitted self rows])).
Proof.
  intros Hready.
  destruct (build_rows_returns self app collection w Hready) as (rows & w' & Hret & Hbuilt).
  exists rows, w'. split; [exact Hret|]. split; [exact Hbuilt|].
  destruct (rows_built_lengths _ _ _ _ _ Hbuilt) as [Hlen Hle].
  pose proof (Spec.ready_size _ _ _ Hready) as Hsize.
  destruct (statistics_returns rows w') as [Hstat _]; [lia | lia |].
  destruct Hret as [Hrows Hrepl].
  unfold ItemMatrix.perform_replacement, TraceableBaseNode.create_top_node.
  unfold mbind, M_bind, mret, M_ret. cbv zeta.
  rewrite Hrows, grouped_body, Hstat.
  unfold replace_self. rewrite Hrepl. f_equal. f_equal. f_equal.
  unfold Spec.emitted, Spec.table_node, Spec.tgroup_node, Spec.thead_node,
    Spec.admonition_node, Spec.statistics_paragraph.
  destruct (attr.stats self), (attr.classes self).
  all: cbn [nodes.iadd].
  all: rewrite ?text_element_empty, ?append_extend_attr, ?extend_element, ?append_element.
  all: rewrite <- ?app_assoc; reflexivity.
Qed.

End ReplacementFacts.

(** ** The parts of the emitted node *)

Section EmittedFacts.
Context `{Host}.

Lemma filter_repeat_False {A : Type} (P : A -> Prop) `{!forall x, Decision (P x)}
      (x : A) (n : nat) :
  ~ P x -> filter P (repeat x n) = [].
Proof. intros Hx. induction n as [|n IH]; simpl; [done|]. by rewrite filter_cons_False. Qed.

Lemma filter_repeat_True {A : Type} (P : A -> Prop) `{!forall x, Decision (P x)}
      (x : A) (n : nat) :
  P x -> filter P (repeat x n) = repeat x n.
Proof.
  intros Hx. induction n as [|n IH]; simpl; [done|].
  rewrite filter_cons_True by done. by rewrite IH.
Qed.

Lemma children_emitted self rows :
  nodes.children (Spec.emitted self rows)
  = Spec.admonition_node self
      :: (if attr.stats self then [Spec.statistics_paragraph rows] else [])
      ++ [Spec.table_node self rows].
Proof. reflexivity. Qed.

Lemma class_of_table_node self rows :
  nodes.class_of (Spec.table_node self rows) = Some nodes.table.
Proof.
  unfold Spec.table_node. destruct (attr.classes self); [reflexivity|].
  by rewrite class_of_extend_attr.
Qed.

Lemma children_table_node self rows :
  nodes.children (Spec.table_node self rows) = [Spec.tgroup_node self rows].
Proof. unfold Spec.table_node. destruct (attr.classes self); reflexivity. Qed.

Lemma class_of_admonition_node self :
  nodes.class_of (Spec.admonition_node self) = Some nodes.admonition.
Proof. unfold Spec.admonition_node. by rewrite class_of_extend_attr. Qed.

Lemma tables_emitted self rows :
  children_of_class nodes.table (Spec.emitted self rows) = [Spec.table_node self rows].
Proof.
  unfold children_of_class. rewrite children_emitted.
  rewrite filter_cons_False.
  2:{ unfold has_class. rewrite class_of_admonition_node. by rewrite bool_decide_false. }
  rewrite filter_app. destruct (attr.stats self).
  - rewrite filter_cons_False by (by vm_compute).
    rewrite filter_nil, filter_cons_True, filter_nil; [done|].
    unfold has_class. by rewrite class_of_table_node, bool_decide_true.
  - rewrite filter_nil, filter_cons_True, filter_nil; [done|].
    unfold has_class. by rewrite class_of_table_node, bool_decide_true.
Qed.

Lemma paragraphs_emitted self rows :
  children_of_class nodes.paragraph (Spec.emitted self rows)
  = if attr.stats self then [Spec.statistics_paragraph rows] else [].
Proof.
  unfold children_of_class. rewrite children_emitted.
  rewrite filter_cons_False.
  2:{ unfold has_class. rewrite class_of_admonition_node. by rewrite bool_decide_false. }
  rewrite filter_app.
  rewrite (filter_cons_False _ (Spec.table_node self rows)).
  2:{ unfold has_class. rewrite class_of_table_node. by rewrite bool_decide_false. }
  rewrite filter_nil, app_nil_r. destruct (attr.stats self); [|done].
  by rewrite filter_cons_True, filter_nil.
Qed.

Lemma tgroups_table_node self rows :
  children_of_class nodes.tgroup (Spec.table_node self rows) = [Spec.tgroup_node self rows].
Proof.
  unfold children_of_class. rewrite children_table_node.
  by rewrite filter_cons_True, filter_nil.
Qed.

Lemma body_rows_emitted self rows :
  body_rows (Spec.emitted self rows) = Spec.body self rows.
Proof.
  unfold body_rows. rewrite tables_emitted, bind_singleton.
  rewrite tgroups_table_node, bind_singleton.
  unfold children_of_class at 1, Spec.tgroup_node. rewrite children_element, filter_app.
  unfold ItemMatrix.colspecs. rewrite filter_repeat_False by done.
  rewrite filter_cons_False by done.
  rewrite filter_cons_True, filter_nil by done.
  simpl. by rewrite app_nil_r.
Qed.

Lemma table_colspecs_emitted self rows :
  table_colspecs (Spec.emitted self rows) = ItemMatrix.colspecs self.
Proof.
  unfold table_colspecs. rewrite tables_emitted, bind_singleton.
  rewrite tgroups_table_node, bind_singleton.
  unfold children_of_class, Spec.tgroup_node. rewrite children_element, filter_app.
  unfold ItemMatrix.colspecs. rewrite filter_repeat_True by done.
  rewrite filter_cons_False by done.
  rewrite filter_cons_False, filter_nil by done.
  by rewrite app_nil_r.
Qed.

Lemma heading_rows_emitted self rows :
  heading_rows (Spec.emitted self rows)
  = [nodes.element nodes.row "" (ItemMatrix.headings self) []].
Proof.
  unfold heading_rows. rewrite tables_emitted, bind_singleton.
  rewrite tgroups_table_node, bind_singleton.
  unfold children_of_class at 1, Spec.tgroup_node. rewrite children_element, filter_app.
  unfold ItemMatrix.colspecs. rewrite filter_repeat_False by done.
  rewrite filter_cons_True by done.
  rewrite filter_cons_False, filter_nil by done.
  reflexivity.
Qed.

Lemma body_in_sorted self rows built r :
  Spec.rows_are built rows -> r ∈ Spec.body self rows -> r ∈ ItemMatrix.sorted rows.
Proof.
  intros (Hs & Hc & Hu) Hr. unfold Spec.body in Hr.
  assert (Hsub : forall P `{!forall x, Decision (P x)},
             r ∈ map fst (filter P built) -> r ∈ map fst built).
  { intros P ? Hin. apply list_elem_of_fmap in Hin as (b & -> & Hb).
    apply list_elem_of_filter in Hb as [_ Hb]. apply list_elem_of_fmap. eauto. }
  rewrite Hs. rewrite Hc, Hu in Hr.
  repeat case_match; try (by apply elem_of_nil in Hr); try (by rewrite <- Hs).
  - apply elem_of_app in Hr as [Hr|Hr]; eapply Hsub; eassumption.
  - apply elem_of_app in Hr as [Hr|Hr]; eapply Hsub; eassumption.
Qed.

Lemma filter_flags_permutation (built : list (node * bool)) :
  filter (fun b => snd b = true) built ++ filter (fun b => snd b = false) built ≡ₚ built.
Proof.
  induction built as [|[r [|]] built IH]; [done| |].
  - rewrite filter_cons_True, filter_cons_False by done. simpl. by rewrite IH.
  - rewrite filter_cons_False, filter_cons_True by done.
    rewrite <- Permutation_middle. by rewrite IH.
Qed.

Lemma rows_are_permutation built rows :
  Spec.rows_are built rows ->
  ItemMatrix.covered rows ++ ItemMatrix.uncovered rows ≡ₚ ItemMatrix.sorted rows.
Proof.
  intros (-> & -> & ->). rewrite <- map_app. apply Permutation_map.
  apply filter_flags_permutation.
Qed.

End EmittedFacts.

(** ** Rows and coverage *)

Section Coverage.
Context `{Host}.

Lemma stored_rows_are calls :
  Spec.rows_are (map (fun call => (Spec.call_row call, snd call)) calls) (Spec.stored calls).
Proof.
  unfold Spec.stored.
  induction calls as [|[[left rights] flag] calls IH] using rev_ind; [done|].
  rewrite fold_left_app, map_app. simpl.
  by apply store_row_rows_are.
Qed.

(** C8.  A call of [_store_row] appends the row to [sorted] and to exactly
    one of [covered] and [uncovered], to [covered] exactly when the flag is
    true.  So after any sequence of calls on empty lists [covered] and
    [uncovered] hold the rows stored with a true and with a false flag, in
    the order of [sorted]; their lengths add up to the length of [sorted]
    and together they are a rearrangement of it. *)
Theorem store_row_partition (calls : list (node * list node * bool)) :
  (forall rows left rights flag,
      ItemMatrix._store_row rows left rights flag
      = {| ItemMatrix.sorted := ItemMatrix.sorted rows ++ [Spec.row_of left rights];
           ItemMatrix.covered :=
             if flag then ItemMatrix.covered rows ++ [Spec.row_of left rights]
             else ItemMatrix.covered rows;
           ItemMatrix.uncovered :=
             if flag then ItemMatrix.uncovered rows
             else ItemMatrix.uncovered rows ++ [Spec.row_of left rights] |}) /\
  let rows := Spec.stored calls in
  ItemMatrix.sorted rows = map Spec.call_row calls /\
  ItemMatrix.covered rows = map Spec.call_row (filter (fun call => snd call = true) calls) /\
  ItemMatrix.uncovered rows = map Spec.call_row (filter (fun call => snd call = false) calls) /\
  length (ItemMatrix.sorted rows)
  = length (ItemMatrix.covered rows) + length (ItemMatrix.uncovered rows) /\
  ItemMatrix.covered rows ++ ItemMatrix.uncovered rows ≡ₚ ItemMatrix.sorted rows.
Proof.
  split; [apply store_row_row|]. intros rows.
  pose proof (stored_rows_are calls) as Hrows. fold rows in Hrows.
  pose proof (rows_are_permutation _ _ Hrows) as Hperm.
  destruct Hrows as (Hs & Hc & Hu).
  assert (Hfilter : forall flag,
             map fst (filter (fun b : node * bool => snd b = flag)
                        (map (fun call => (Spec.call_row call, snd call)) calls))
             = map Spec.call_row (filter (fun call => snd call = flag) calls)).
  { intros flag. clear. induction calls as [|call calls IH]; [done|]. simpl.
    destruct (decide (snd call = flag)) as [Hd|Hd].
    - rewrite !filter_cons_True by done. simpl. by rewrite IH.
    - by rewrite !filter_cons_False by done. }
  rewrite Hfilter in Hc, Hu. rewrite map_map in Hs. simpl in Hs.
  split; [exact Hs|]. split; [exact Hc|]. split; [exact Hu|]. split; [|exact Hperm].
  rewrite <- length_app. symmetry. by apply Permutation_length.
Qed.

(** C1.  Under the stated assumptions on the collection, the run builds
    one row for every source of [row_sources], in that order, and stores
    each with the flag [found]: the row is in [covered] exactly when a
    configured relationship was found for its source and in [uncovered]
    otherwise. *)
Theorem coverage_flag_matches self app collection w :
  Spec.ready self app collection ->
  exists rows w' built,
    returns (ItemMatrix.build_rows self app collection) w rows w' /\
    ItemMatrix.perform_replacement self app collection w
    = (inr tt, World (warnings w') (replaced w ++ [Spec.emitted self rows])) /\
    Forall2 (Spec.built_from self app collection) (Spec.row_sources self collection) built /\
    Forall2 (fun src b => snd b = Spec.found self collection src)
            (Spec.row_sources self collection) built /\
    ItemMatrix.sorted rows = map fst built /\
    ItemMatrix.covered rows = map fst (filter (fun b => snd b = true) built) /\
    ItemMatrix.uncovered rows = map fst (filter (fun b => snd b = false) built).
Proof.
  intros Hready.
  destruct (perform_replacement_returns self app collection w Hready)
    as (rows & w' & Hret & (built & Hall & (Hs & Hc & Hu) & _) & Hrun).
  exists rows, w', built.
  split; [exact Hret|]. split; [exact Hrun|]. split; [exact Hall|].
  split; [|by repeat split].
  eapply Forall2_impl; [exact Hall|]. intros src b Hb.
  by destruct Hb as (? & ? & _ & _ & _ & _ & ?).
Qed.

(** C2.  The rows of the table body follow the [group] option: all rows in
    the order they were built when it is empty, the uncovered rows before
    the covered ones for [top], the covered rows before the uncovered ones
    for [bottom]; in the three cases the body is a rearrangement of all
    rows. *)
Theorem body_follows_group self app collection w :
  Spec.ready self app collection ->
  exists rows w' top,
    ItemMatrix.perform_replacement self app collection w
    = (inr tt, World (warnings w') (replaced w ++ [top])) /\
    Spec.rows_built self app collection (Spec.row_sources self collection) rows /\
    (attr.group self = "" -> body_rows top = ItemMatrix.sorted rows) /\
    (attr.group self = "top" ->
     body_rows top = ItemMatrix.uncovered rows ++ ItemMatrix.covered rows) /\
    (attr.group self = "bottom" ->
     body_rows top = ItemMatrix.covered rows ++ ItemMatrix.uncovered rows) /\
    (attr.group self ∈ [""; "top"; "bottom"] -> body_rows top ≡ₚ ItemMatrix.sorted rows).
Proof.
  intros Hready.
  destruct (perform_replacement_returns self app collection w Hready)
    as (rows & w' & Hret & Hbuilt & Hrun).
  exists rows, w', (Spec.emitted self rows).
  split; [exact Hrun|]. split; [exact Hbuilt|].
  rewrite body_rows_emitted. unfold Spec.body.
  destruct Hbuilt as (built & _ & Hrows & _).
  pose proof (rows_are_permutation _ _ Hrows) as Hperm.
  split; [by intros ->|]. split; [by intros ->|]. split; [by intros ->|].
  intros Hin. repeat (apply elem_of_cons in Hin as [->|Hin]); simpl.
  - done.
  - by rewrite Permutation_app_comm.
  - done.
  - by apply elem_of_nil in Hin.
Qed.

End Coverage.

(** ** The table and the top node *)

Section Table.
Context `{Host}.

Lemma existsb_Forall_false {A : Type} (f : A -> bool) (l : list A) :
  Forall (fun x => f x = false) l -> existsb f l = false.
Proof. induction 1 as [|x l Hx _ IH]; simpl; [done|]. by rewrite Hx. Qed.

Lemma Forall2_elem_of_r {A B : Type} (P : A -> B -> Prop) (l : list A) (k : list B) (y : B) :
  Forall2 P l k -> y ∈ k -> exists x, x ∈ l /\ P x y.
Proof.
  induction 1 as [|x y' l k Hxy _ IH]; intros Hy; [by apply elem_of_nil in Hy|].
  apply elem_of_cons in Hy as [->|Hy].
  - exists x. split; [left | exact Hxy].
  - destruct (IH Hy) as (x' & Hx' & HP). exists x'. split; [by right | exact HP].
Qed.

Lemma built_row_shape self app collection src b :
  Spec.built_from self app collection src b ->
  exists left rights,
    fst b = Spec.row_of left rights /\
    has_class nodes.entry left = true /\
    length rights = ItemMatrix.number_of_columns self - 1 /\
    Forall (fun right => has_class nodes.entry right = true) rights.
Proof.
  intros (left & rights & Hrow & Hleft & Hlen & Hent & _).
  exists left, rights. repeat split; try assumption.
  destruct src as [source_id|ext_rel ext_source item_ids]; simpl in Hleft.
  - by destruct Hleft as (ref & w & w' & _ & ->).
  - subst left. by rewrite has_class_iadd.
Qed.

(** C3.  The table has [max(2, number of target regexes + 1)] columns: that
    many [colspec] nodes, one heading row with an entry for the source
    title and one for each target title, and body rows made of a source
    entry and [number_of_columns - 1] target entries.  There are two
    columns when at most one target regex is given. *)
Theorem table_columns self app collection w :
  Spec.ready self app collection ->
  exists w' top,
    ItemMatrix.perform_replacement self app collection w
    = (inr tt, World (warnings w') (replaced w ++ [top])) /\
    ItemMatrix.number_of_columns self = Nat.max 2 (length (attr.target self) + 1) /\
    table_colspecs top
    = repeat (nodes.element nodes.colspec "" [] [("colwidth", AInt 5)])
             (ItemMatrix.number_of_columns self) /\
    length (table_colspecs top) = ItemMatrix.number_of_columns self /\
    heading_rows top
    = [nodes.element nodes.row ""
         (map (fun title =>
                 nodes.element nodes.entry ""
                   [nodes.text_element nodes.paragraph "" title [] []] [])
              (attr.sourcetitle self :: attr.targettitle self)) []] /\
    Forall (fun r =>
              exists (left : node) (rights : list node),
                r = Spec.row_of left rights /\
                nodes.children r = left :: rights /\
                has_class nodes.entry left = true /\
                length rights = ItemMatrix.number_of_columns self - 1 /\
                Forall (fun right => has_class nodes.entry right = true) rights)
           (body_rows top) /\
    (length (attr.target self) <= 1 -> ItemMatrix.number_of_columns self = 2).
Proof.
  intros Hready.
  destruct (perform_replacement_returns self app collection w Hready)
    as (rows & w' & Hret & (built & Hall & Hrows & _) & Hrun).
  exists w', (Spec.emitted self rows).
  split; [exact Hrun|]. split; [reflexivity|].
  rewrite table_colspecs_emitted, heading_rows_emitted, body_rows_emitted.
  split; [reflexivity|]. split; [apply repeat_length|]. split; [reflexivity|].
  split; [|unfold ItemMatrix.number_of_columns; lia].
  apply Forall_forall. intros r Hr.
  apply (body_in_sorted self rows built r Hrows) in Hr.
  destruct Hrows as (Hs & _). rewrite Hs in Hr.
  apply list_elem_of_fmap in Hr as (b & -> & Hb).
  destruct (Forall2_elem_of_r _ _ _ _ Hall Hb) as (src & _ & Hsrc).
  destruct (built_row_shape _ _ _ _ _ Hsrc) as (left & rights & Hrow & ? & ? & ?).
  exists left, rights. rewrite Hrow. by repeat split.
Qed.


(** C4.  The statistics line names the number of covered rows, the number
    of rows and the floor of their ratio in percent, which is 0 when there
    is no row; computing it raises nothing, and the paragraph that holds it
    is a child of the top node exactly when [stats] is set. *)
Theorem statistics_line_emitted self app collection w :
  Spec.ready self app collection ->
  exists rows w' top,
    let c := Z.of_nat (length (ItemMatrix.covered rows)) in
    let t := Z.of_nat (length (ItemMatrix.sorted rows)) in
    let line :=
      "Statistics: " +:+ Str.of_Z c +:+ " out of " +:+ Str.of_Z t +:+ " covered: "
        +:+ Str.of_Z (if (t =? 0)%Z then 0 else 100 * c / t)%Z +:+ "%" in
    returns (ItemMatrix.build_rows self app collection) w rows w' /\
    returns (ItemMatrix.statistics rows) w' line w' /\
    ItemMatrix.perform_replacement self app collection w
    = (inr tt, World (warnings w') (replaced w ++ [top])) /\
    children_of_class nodes.paragraph top
    = if attr.stats self then [nodes.element nodes.paragraph "" [Text line] []] else [].
Proof.
  intros Hready.
  destruct (perform_replacement_returns self app collection w Hready)
    as (rows & w' & Hret & Hbuilt & Hrun).
  exists rows, w', (Spec.emitted self rows). cbv zeta.
  destruct (rows_built_lengths _ _ _ _ _ Hbuilt) as [Hlen Hle].
  pose proof (Spec.ready_size _ _ _ Hready) as Hsize.
  split; [exact Hret|]. split; [apply statistics_returns; lia|].
  split; [exact Hrun|]. apply paragraphs_emitted.
Qed.

Lemma is_relation_external_prefix relation :
  TraceableBaseNode.is_relation_external relation = true
  <-> exists rest, relation = "ext_" +:+ rest.
Proof.
  unfold TraceableBaseNode.is_relation_external. split.
  - destruct relation as [|a [|b [|c [|d rest]]]]; simpl; try done;
      repeat (case_match; try done).
    intros _. exists rest.
    repeat match goal with E : Ascii.eqb _ _ = true |- _ =>
                             apply Ascii.eqb_eq in E; subst end.
    reflexivity.
  - intros [rest ->]. reflexivity.
Qed.

Lemma dict_setitem_keys {V : Type} (k : string) (v : V) (d : list (string * V)) (k' : string) :
  k' ∈ map fst (dict_setitem k v d) <-> k' = k \/ k' ∈ map fst d.
Proof.
  induction d as [|[k0 v0] d IH]; simpl.
  - rewrite list_elem_of_singleton. split; [by left | intros [?|Hn]; [done|]].
    by apply elem_of_nil in Hn.
  - destruct (String.eqb_spec k k0) as [->|Hne]; simpl.
    + rewrite !elem_of_cons. tauto.
    + rewrite !elem_of_cons, IH. tauto.
Qed.

Lemma ext_map_keys self collection exts rel :
  rel ∈ map fst (ItemMatrix.ext_relations_to_target_map self collection exts) <-> rel ∈ exts.
Proof.
  unfold ItemMatrix.ext_relations_to_target_map.
  assert (Hgen : forall d,
             rel ∈ map fst
               (fold_left
                  (fun m relation =>
                     dict_setitem relation
                       (TraceableCollection.get_external_targets collection
                          (attr.source self) relation) m) exts d)
             <-> rel ∈ exts \/ rel ∈ map fst d).
  { induction exts as [|e exts IH]; intros d; simpl.
    - split; [by right | intros [Hn|?]; [by apply elem_of_nil in Hn | done]].
    - rewrite IH, dict_setitem_keys, elem_of_cons. tauto. }
  rewrite Hgen. simpl. split; [intros [?|Hn]; [done | by apply elem_of_nil in Hn] | by left].
Qed.

Lemma emitted_ext_free self rows built :
  Spec.rows_are built rows ->
  Forall (fun b => contains_class nodes.target (fst b) = false) built ->
  contains_class nodes.target (Spec.emitted self rows) = false.
Proof.
  intros Hrows Hfree.
  assert (Hbody : Forall (fun r => contains_class nodes.target r = false)
                         (Spec.body self rows)).
  { apply Forall_forall. intros r Hr.
    apply (body_in_sorted self rows built r Hrows) in Hr.
    destruct Hrows as (Hs & _). rewrite Hs in Hr.
    apply list_elem_of_fmap in Hr as (b & -> & Hb).
    by apply (proj1 (Forall_forall _ _) Hfree). }
  assert (Htable : contains_class nodes.target (Spec.table_node self rows) = false).
  { unfold Spec.table_node.
    assert (Hplain : contains_class nodes.target
                       (nodes.element nodes.table "" [Spec.tgroup_node self rows] []) = false).
    { rewrite contains_class_other by done. cbn [existsb]. rewrite orb_false_r.
      unfold Spec.tgroup_node. rewrite contains_class_other by done.
      rewrite existsb_app. unfold ItemMatrix.colspecs.
      rewrite (existsb_Forall_false _ (repeat _ _)).
      2:{ apply Forall_forall. intros x Hx.
          apply list_elem_of_In, repeat_spec in Hx. by subst. }
      cbn [existsb orb]. rewrite orb_false_r.
      rewrite (contains_class_other _ nodes.tbody) by done.
      rewrite (existsb_Forall_false _ (Spec.body self rows) Hbody), orb_false_r.
      unfold Spec.thead_node. rewrite contains_class_other by done.
      cbn [existsb]. rewrite orb_false_r, contains_class_other by done.
      unfold ItemMatrix.headings.
      apply existsb_Forall_false, Forall_map, Forall_forall. intros title _.
      rewrite contains_class_other by done. cbn [existsb]. rewrite orb_false_r.
      by rewrite contains_class_text_element. }
    destruct (attr.classes self); [exact Hplain|].
    by rewrite contains_class_extend_attr. }
  unfold Spec.emitted. rewrite contains_class_other by done. cbn [existsb].
  unfold Spec.admonition_node at 1. rewrite contains_class_extend_attr.
  rewrite existsb_app. cbn [existsb]. rewrite Htable.
  destruct (attr.stats self); reflexivity.
Qed.

(** C5.  Without a [type] option the relationships are the relations of the
    collection that are not external and no external relationship is
    processed, so that the emitted node holds no external reference; with a
    [type] option the relationships are the listed ones and the external
    relationships processed are the listed ones that are external.  A
    relationship is external when its id starts with [ext_]. *)
Theorem relationships_selected self app collection w :
  Spec.ready self app collection ->
  (forall relation,
      TraceableBaseNode.is_relation_external relation = true
      <-> exists rest, relation = "ext_" +:+ rest) /\
  Spec.relationships self collection
  = match attr.type self with
    | [] => filter (fun rel => negb (TraceableBaseNode.is_relation_external rel))
                   (TraceableCollection.iter_relations collection)
    | listed => listed
    end /\
  Spec.external_relationships self collection
  = filter TraceableBaseNode.is_relation_external (attr.type self) /\
  (forall rel,
      rel ∈ map fst (ItemMatrix.ext_relations_to_target_map self collection
                       (Spec.external_relationships self collection))
      <-> rel ∈ attr.type self /\ TraceableBaseNode.is_relation_external rel = true) /\
  (attr.type self = [] ->
   Spec.external_relationships self collection = [] /\
   Spec.row_sources self collection = map Spec.Internal (Spec.source_ids self collection) /\
   exists rows w',
     ItemMatrix.perform_replacement self app collection w
     = (inr tt, World (warnings w') (replaced w ++ [Spec.emitted self rows])) /\
     contains_class nodes.target (Spec.emitted self rows) = false).
Proof.
  intros Hready.
  assert (Hexts : Spec.external_relationships self collection
                  = filter TraceableBaseNode.is_relation_external (attr.type self)).
  { unfold Spec.external_relationships, ItemMatrix.select_relationships.
    by destruct (attr.type self). }
  split; [apply is_relation_external_prefix|].
  split; [unfold Spec.relationships, ItemMatrix.select_relationships;
          by destruct (attr.type self)|].
  split; [exact Hexts|]. split.
  - intros rel. rewrite ext_map_keys, Hexts, list_elem_of_filter.
    rewrite Is_true_true. tauto.
  - intros Htype. rewrite Htype in Hexts. simpl in Hexts.
    split; [exact Hexts|]. split.
    + unfold Spec.row_sources, Spec.external_sources. rewrite Hexts. simpl.
      by rewrite app_nil_r.
    + destruct (perform_replacement_returns self app collection w Hready)
        as (rows & w' & _ & (built & _ & Hrows & Hfree) & Hrun).
      exists rows, w'. split; [exact Hrun|].
      eapply emitted_ext_free; eauto.
Qed.

End Table.

(** ** The directive *)

Section Directive.
Context `{Host} `{ItemMatrixDirective.BaseDirective}.

Lemma count_test (a b : nat) :
  ((1 <? a) && negb (a =? b))%nat = bool_decide (1 < a /\ a <> b).
Proof.
  destruct (Nat.ltb_spec 1 a), (Nat.eqb_spec a b); simpl; symmetry.
  - apply bool_decide_eq_false_2. lia.
  - apply bool_decide_eq_true_2. lia.
  - apply bool_decide_eq_false_2. lia.
  - apply bool_decide_eq_false_2. lia.
Qed.

(** C6.  [run] raises nothing and returns one node.  The warnings it adds
    to the log are those of the inherited methods and, between them, the
    warning about the numbers of targets and target titles, which is
    reported when more than one target regex is given and the numbers
    differ, and only then. *)
Theorem run_warns_on_count_mismatch (self : ItemMatrixDirective.t) (w : world) :
  let node := fst (RunSpec.prepared self) in
  let own :=
    if decide (RunSpec.counts_differ node)
    then [Warning (ItemMatrixDirective.mismatch_message
                     (attr.target node) (attr.targettitle node))
                  (ItemMatrixDirective.env_docname self) (ItemMatrixDirective.lineno self)]
    else [] in
  ItemMatrixDirective.run self w
  = (inr [fst (RunSpec.finished self node)],
     World (warnings w ++ snd (RunSpec.prepared self) ++ own
              ++ snd (RunSpec.finished self node))
           (replaced w)).
Proof.
  intros node own. subst own node.
  unfold ItemMatrixDirective.run, RunSpec.prepared, RunSpec.finished.
  unfold mbind, M_bind, mret, M_ret, ItemMatrixDirective.call, report_warning.
  cbv zeta. cbn [fst snd warnings replaced].
  set (n0 := match ItemMatrixDirective.options self !! "class" with
             | Some (ItemMatrixDirective.OList (c :: cs)) => _
             | _ => _
             end).
  destruct (ItemMatrixDirective.process_title self n0 _) as [n1 ws1].
  cbn [fst snd warnings replaced].
  destruct (ItemMatrixDirective.add_found_attributes self n1) as [n2 ws2].
  cbn [fst snd warnings replaced].
  destruct (ItemMatrixDirective.process_options self n2 _) as [n3 ws3].
  cbn [fst snd warnings replaced].
  set (n3' := ItemMatrixDirective.set_group n3 _).
  rewrite (count_test (length (attr.target n3')) (length (attr.targettitle n3'))).
  destruct (decide (RunSpec.counts_differ n3')) as [Hd|Hd];
    [rewrite (bool_decide_eq_true_2 (1 < length (attr.target n3')
                /\ length (attr.target n3') <> length (attr.targettitle n3')) Hd)
    |rewrite (bool_decide_eq_false_2 (1 < length (attr.target n3')
                /\ length (attr.target n3') <> length (attr.targettitle n3')) Hd)].
  all: cbv beta iota.
  all: cbn [fst snd warnings replaced].
  all: destruct (ItemMatrixDirective.check_option_presence self n3' _) as [n4 ws4].
  all: cbn [fst snd warnings replaced].
  all: destruct (ItemMatrixDirective.check_caption_flags self n4 _) as [n5 ws5].
  all: cbn [fst snd warnings replaced].
  all: f_equal; f_equal; rewrite ?app_nil_r; cbn [app];
    repeat rewrite <- app_assoc; cbn [app]; reflexivity.
Qed.

End Directive.

(** ** References: external links and undefined items *)

Section References.
Context `{Host}.

(** [make_external_item_ref] gives [None] exactly for a relationship that
    has no url configured; otherwise a paragraph with a target node and a
    link. *)
Lemma make_external_item_ref_none app target_text relationship :
  TraceableBaseNode.make_external_item_ref app target_text relationship = None
  <-> traceability_external_relationship_to_url (config app) !! relationship = None.
Proof.
  unfold TraceableBaseNode.make_external_item_ref.
  destruct (traceability_external_relationship_to_url (config app) !! relationship);
    split; intros; done.
Qed.

Lemma make_external_item_ref_some app target_text relationship url :
  traceability_external_relationship_to_url (config app) !! relationship = Some url ->
  exists p target link,
    TraceableBaseNode.make_external_item_ref app target_text relationship = Some p /\
    has_class nodes.paragraph p = true /\
    nodes.children p = [target; link] /\
    has_class nodes.target target = true /\
    nodes.get target "ids" = Some (AList [make_id target_text]) /\
    has_class nodes.reference link = true /\
    nodes.children link = [Text target_text] /\
    nodes.get link "refuri"
    = Some (AStr (TraceableBaseNode.substitute_fields url (Str.split ":" target_text))).
Proof.
  intros Hurl. unfold TraceableBaseNode.make_external_item_ref. rewrite Hurl.
  eexists _, _, _. split; [reflexivity|].
  split; [reflexivity|]. split; [reflexivity|]. split; [reflexivity|].
  split; [reflexivity|]. split; [reflexivity|]. split; [reflexivity|].
  cbn. by rewrite lookup_insert_eq.
Qed.

Lemma get_append n x key : nodes.get (nodes.append n x) key = nodes.get n key.
Proof. destruct n; reflexivity. Qed.

Lemma get_extend_attr_ne n k l key :
  k <> key -> nodes.get (nodes.extend_attr n k l) key = nodes.get n key.
Proof.
  intros Hne. destruct n as [|c r a ch]; simpl; [done|].
  destruct (a !! k) as [[| |l0]|]; simpl; try done. by rewrite lookup_insert_ne.
Qed.

(** C10, as the code has it.  For an item id whose item is a placeholder
    [make_internal_item_ref] raises nothing.  Without a notification item
    (none configured, or the configured id unknown to the collection) it
    reports a warning and returns a paragraph that holds the text
    "<item id> not defined, broken link" and nothing else.  With a
    notification item, and a class name for the colours of the id, it
    returns a paragraph with one reference and reports nothing: the
    reference points to the document and the id of the notification item
    when the builder has a relative uri for that document, and carries
    neither [refuri] nor [refdocname] when the builder raises [NoUri]. *)
Theorem placeholder_reference self app item_id show_caption item_info w :
  TraceableCollection.get_item (traceability_collection app) item_id = Some item_info ->
  TraceableItem.is_placeholder item_info = true ->
  let notification :=
    nid ← traceability_notifications (config app) !! "undefined-reference";
    it ← TraceableCollection.get_item (traceability_collection app) nid;
    Some (nid, it) in
  (notification = None ->
   TraceableBaseNode.make_internal_item_ref self app item_id show_caption w
   = (inr (nodes.element nodes.paragraph ""
             [Text (item_id +:+ " not defined, broken link")] []),
      World (warnings w
               ++ [Warning ("Traceability: cannot link to '"
                              +:+ TraceableItem.get_id item_info
                              +:+ "', item is not defined")
                           (attr.document self) (attr.line self)])
            (replaced w))) /\
  (forall nid notification_item,
      notification = Some (nid, notification_item) ->
      (forall c cs,
          TraceableBaseNode._find_colors_for_class
            (traceability_hyperlink_colors (config app)) item_id = Some (c :: cs) ->
          is_Some (traceability_class_names (config app) !! (c :: cs))) ->
      exists p ref,
        TraceableBaseNode.make_internal_item_ref self app item_id show_caption w
        = (inr p, w) /\
        has_class nodes.paragraph p = true /\
        nodes.children p = [ref] /\
        has_class nodes.reference ref = true /\
        match get_relative_uri (builder app) (attr.document self)
                (TraceableItem.docname notification_item) with
        | Some uri =>
            nodes.get ref "refuri" = Some (AStr (uri +:+ "#" +:+ nid)) /\
            nodes.get ref "refdocname"
            = Some (AStr (TraceableItem.docname notification_item))
        | None =>
            nodes.get ref "refuri" = None /\ nodes.get ref "refdocname" = None
        end).
Proof.
  intros Hitem Hph notification. split.
  - intros Hnone. unfold TraceableBaseNode.make_internal_item_ref.
    rewrite Hitem. cbv zeta. rewrite Hph. fold notification. rewrite Hnone.
    unfold TraceableBaseNode.has_warned_about_undefined. rewrite Hph. reflexivity.
  - intros nid notification_item Hsome Hcolors.
    unfold TraceableBaseNode.make_internal_item_ref.
    rewrite Hitem. cbv zeta. rewrite Hph. fold notification. rewrite Hsome.
    destruct (TraceableBaseNode._get_caption_info item_info show_caption)
      as [caption caption_on_hover].
    set (innernode := match caption_on_hover with Some _ => _ | None => _ end).
    set (newnode := match get_relative_uri _ _ _ with Some _ => _ | None => _ end).
    assert (Hnew : has_class nodes.reference newnode = true /\
                   match get_relative_uri (builder app) (attr.document self)
                           (TraceableItem.docname notification_item) with
                   | Some uri =>
                       nodes.get newnode "refuri" = Some (AStr (uri +:+ "#" +:+ nid)) /\
                       nodes.get newnode "refdocname"
                       = Some (AStr (TraceableItem.docname notification_item))
                   | None =>
                       nodes.get newnode "refuri" = None /\
                       nodes.get newnode "refdocname" = None
                   end).
    { subst newnode. destruct (get_relative_uri _ _ _) as [uri|].
      - split; [reflexivity|]. cbn. split.
        + rewrite lookup_insert_ne by done. by rewrite lookup_insert_eq.
        + by rewrite lookup_insert_eq.
      - split; [reflexivity|]. split; reflexivity. }
    clearbody newnode innernode. destruct Hnew as [Hclass Hget].
    destruct (TraceableBaseNode._find_colors_for_class _ item_id) as [[|c cs]|] eqn:Hc.
    + eexists _, _. split; [reflexivity|].
      split; [reflexivity|]. split; [reflexivity|].
      split; [unfold has_class in *; by rewrite class_of_append|].
      by rewrite !get_append.
    + destruct (Hcolors c cs eq_refl) as [class_name Hcn]. rewrite Hcn.
      eexists _, _. split; [reflexivity|].
      split; [reflexivity|]. split; [reflexivity|].
      split; [unfold has_class in *; by rewrite class_of_append, class_of_extend_attr|].
      rewrite !get_append, !get_extend_attr_ne by done. exact Hget.
    + eexists _, _. split; [reflexivity|].
      split; [reflexivity|]. split; [reflexivity|].
      split; [unfold has_class in *; by rewrite class_of_append|].
      by rewrite !get_append.
Qed.

End References.

(** ** The example document set *)

Section ExampleFacts.
Import Example.

Lemma example_resolves item_id :
  item_id ∈ ["REQ-1"; "REQ-2"; "TEST-1"] -> Spec.resolves app item_id.
Proof.
  intros Hin.
  repeat (apply elem_of_cons in Hin as [->|Hin]); [| | |by apply elem_of_nil in Hin].
  all: split; [by eexists|].
  all: intros c cs Hc; vm_compute in Hc; try discriminate.
  all: injection Hc as <- <-; by eexists.
Qed.

Ltac known_ids H :=
  vm_compute in H;
  repeat (apply elem_of_cons in H as [->|H]); try (by apply elem_of_nil in H).

Lemma example_ready (type : list string) (group : string) (stats : bool) :
  type = [] \/ type = ["validated_by"; "ext_jira"] ->
  Spec.ready (matrix type group stats) app collection.
Proof.
  intros [->| ->]; split.
  - intros source_id Hin. apply example_resolves. known_ids Hin; set_solver.
  - intros _ source_id Hin. known_ids Hin; by eexists.
  - intros source_id target_regex target_id _ Hregex Hin _. apply example_resolves.
    known_ids Hregex. known_ids Hin. set_solver.
  - intros ext_rel ext_source item_ids target_regex target_id Hin. known_ids Hin.
  - by vm_compute.
  - intros source_id Hin. apply example_resolves. known_ids Hin; set_solver.
  - intros _ source_id Hin. known_ids Hin; by eexists.
  - intros source_id target_regex target_id _ Hregex Hin _. apply example_resolves.
    known_ids Hregex. known_ids Hin. set_solver.
  - intros ext_rel ext_source item_ids target_regex target_id Hin Hregex Hid Hmatch.
    vm_compute in Hin.
    apply elem_of_cons in Hin as [Heq|Hin]; [|by apply elem_of_nil in Hin].
    injection Heq as -> -> ->. known_ids Hregex. known_ids Hid.
    vm_compute in Hmatch. discriminate.
  - by vm_compute.
Qed.

End ExampleFacts.

Section Witnesses.
Import Example.

Lemma coverage_flag_matches_witness :
  Spec.ready matrix_ext app collection /\
  exists rows w' built,
    returns (ItemMatrix.build_rows matrix_ext app collection) w0 rows w' /\
    ItemMatrix.perform_replacement matrix_ext app collection w0
    = (inr tt, World (warnings w') (replaced w0 ++ [Spec.emitted matrix_ext rows])) /\
    Forall2 (Spec.built_from matrix_ext app collection) (Spec.row_sources matrix_ext collection) built /\
    Forall2 (fun src b => snd b = Spec.found matrix_ext collection src)
            (Spec.row_sources matrix_ext collection) built /\
    ItemMatrix.sorted rows = map fst built /\
    ItemMatrix.covered rows = map fst (filter (fun b => snd b = true) built) /\
    ItemMatrix.uncovered rows = map fst (filter (fun b => snd b = false) built).
Proof.
  split; [apply example_ready; by right|].
  apply (coverage_flag_matches matrix_ext app collection w0). apply example_ready. by right.
Defined.

Lemma body_follows_group_witness :
  Spec.ready matrix_ext app collection /\
  exists rows w' top,
    ItemMatrix.perform_replacement matrix_ext app collection w0
    = (inr tt, World (warnings w') (replaced w0 ++ [top])) /\
    Spec.rows_built matrix_ext app collection (Spec.row_sources matrix_ext collection) rows /\
    (attr.group matrix_ext = "" -> body_rows top = ItemMatrix.sorted rows) /\
    (attr.group matrix_ext = "top" ->
     body_rows top = ItemMatrix.uncovered rows ++ ItemMatrix.covered rows) /\
    (attr.group matrix_ext = "bottom" ->
     body_rows top = ItemMatrix.covered rows ++ ItemMatrix.uncovered rows) /\
    (attr.group matrix_ext ∈ [""; "top"; "bottom"] -> body_rows top ≡ₚ ItemMatrix.sorted rows).
Proof.
  split; [apply example_ready; by right|].
  apply (body_follows_group matrix_ext app collection w0). apply example_ready. by right.
Defined.

Lemma table_columns_witness :
  Spec.ready matrix_ext app collection /\
  exists w' top,
    ItemMatrix.perform_replacement matrix_ext app collection w0
    = (inr tt, World (warnings w') (replaced w0 ++ [top])) /\
    length (table_colspecs top) = 2 /\
    Forall (fun r => length (nodes.children r) = 2) (body_rows top).
Proof.
  split; [apply example_ready; by right|].
  destruct (table_columns matrix_ext app collection w0) as (w' & top & Hrun & _ & _ & Hn & _ & Hrows & _);
    [apply example_ready; by right|].
  exists w', top. split; [exact Hrun|]. split; [exact Hn|].
  eapply Forall_impl; [exact Hrows|]. simpl.
  intros r (left & rights & _ & -> & _ & Hlen & _). simpl. by rewrite Hlen.
Defined.


Lemma statistics_line_emitted_witness :
  Spec.ready matrix_ext app collection /\
  exists rows w' top line,
    returns (ItemMatrix.statistics rows) w' line w' /\
    ItemMatrix.perform_replacement matrix_ext app collection w0
    = (inr tt, World (warnings w') (replaced w0 ++ [top])) /\
    children_of_class nodes.paragraph top
    = [nodes.element nodes.paragraph "" [Text line] []].
Proof.
  split; [apply example_ready; by right|].
  destruct (statistics_line_emitted matrix_ext app collection w0)
    as (rows & w' & top & _ & Hstat & Hrun & Hp); [apply example_ready; by right|].
  exists rows, w', top. eexists. split; [exact Hstat|]. split; [exact Hrun | exact Hp].
Defined.

Lemma relationships_selected_witness :
  Spec.ready matrix_all app collection /\
  Spec.relationships matrix_all collection = ["validated_by"; "validates"] /\
  Spec.external_relationships matrix_all collection = [] /\
  exists rows w',
    ItemMatrix.perform_replacement matrix_all app collection w0
    = (inr tt, World (warnings w') (replaced w0 ++ [Spec.emitted matrix_all rows])) /\
    contains_class nodes.target (Spec.emitted matrix_all rows) = false.
Proof.
  split; [apply example_ready; by left|].
  destruct (relationships_selected matrix_all app collection w0)
    as (_ & Hrels & _ & _ & Hnone); [apply example_ready; by left|].
  destruct (Hnone eq_refl) as (Hexts & _ & Hrun).
  split; [exact Hrels|]. split; [exact Hexts | exact Hrun].
Defined.

Lemma placeholder_reference_witness :
  TraceableCollection.get_item (traceability_collection (notifying_app html)) "REQ-9"
  = lookup_item "REQ-9" /\
  (lookup_item "REQ-9" ≫= fun it => Some (TraceableItem.is_placeholder it)) = Some true /\
  exists p ref,
    TraceableBaseNode.make_internal_item_ref matrix_ext (notifying_app html) "REQ-9" true w0
    = (inr p, w0) /\
    nodes.children p = [ref] /\
    nodes.get ref "refuri" = Some (AStr "requirements.html#REQ-2") /\
    nodes.get ref "refdocname" = Some (AStr "requirements").
Proof.
  split; [reflexivity|]. split; [reflexivity|].
  destruct (placeholder_reference matrix_ext (notifying_app html) "REQ-9" true
              (item "REQ-9" "" None true []) w0 eq_refl eq_refl) as [_ Hsome].
  destruct (Hsome "REQ-2" (item "REQ-2" "requirements" None false []) eq_refl)
    as (p & ref & Hrun & _ & Hch & _ & Huri & Hdoc).
  { intros c cs Hc. vm_compute in Hc. discriminate. }
  exists p, ref. split; [exact Hrun|]. split; [exact Hch|]. split; [exact Huri | exact Hdoc].
Defined.

End Witnesses.

(** ** Two inputs on which code and specification part *)

Section Divergences.
Import Example.

(** C9, where the code departs from it.  With ten fields the placeholder
    [field10] of the url template is not replaced by the tenth field [j]:
    the first pass replaces its prefix [field1] by the first field, and the
    link points to [http://host/a0]. *)
Theorem tenth_field_clobbered :
  let target_text := "a:b:c:d:e:f:g:h:i:j" in
  traceability_external_relationship_to_url (config tool_app) !! "ext_tool"
  = Some "http://host/field10" /\
  Str.split ":" target_text !! 9 = Some "j" /\
  Str.replace "field10" "j" "http://host/field10" = "http://host/j" /\
  TraceableBaseNode.substitute_fields "http://host/field10" (Str.split ":" target_text)
  = "http://host/a0" /\
  exists p target link,
    TraceableBaseNode.make_external_item_ref tool_app target_text "ext_tool" = Some p /\
    nodes.children p = [target; link] /\
    nodes.get link "refuri" = Some (AStr "http://host/a0").
Proof.
  cbv zeta. split; [reflexivity|]. split; [reflexivity|]. split; [reflexivity|].
  split; [reflexivity|].
  destruct (make_external_item_ref_some tool_app "a:b:c:d:e:f:g:h:i:j" "ext_tool"
              "http://host/field10" eq_refl)
    as (p & target & link & Hp & _ & Hch & _ & _ & _ & _ & Huri).
  exists p, target, link. split; [exact Hp|]. split; [exact Hch | exact Huri].
Qed.

(** A field that spells a later placeholder is substituted again: the
    template [field1] with the target text [field2:x] yields [x], not the
    first field. *)
Lemma field_substituted_twice :
  TraceableBaseNode.substitute_fields "field1" (Str.split ":" "field2:x") = "x".
Proof. reflexivity. Qed.

(** C10 as stated fails where the builder has no uri: [REQ-9] is a
    placeholder and the notification item [REQ-2] exists, yet the returned
    reference links to nothing. *)
Lemma notification_link_lost_without_uri :
  (exists item_info,
      TraceableCollection.get_item (traceability_collection (notifying_app no_uri)) "REQ-9"
      = Some item_info /\ TraceableItem.is_placeholder item_info = true) /\
  (exists notification_item,
      traceability_notifications (config (notifying_app no_uri)) !! "undefined-reference"
      = Some "REQ-2" /\
      TraceableCollection.get_item (traceability_collection (notifying_app no_uri)) "REQ-2"
      = Some notification_item) /\
  exists p ref w',
    TraceableBaseNode.make_internal_item_ref matrix_all (notifying_app no_uri)
      "REQ-9" true w0 = (inr p, w') /\
    nodes.children p = [ref] /\
    has_class nodes.reference ref = true /\
    nodes.get ref "refuri" = None /\
    nodes.get ref "refdocname" = None.
Proof.
  split; [eexists; split; reflexivity|]. split; [eexists; split; reflexivity|].
  eexists _, _, _. split; [reflexivity|]. split; [reflexivity|].
  split; [reflexivity|]. split; reflexivity.
Qed.

End Divergences.

(** * Further properties of the code *)

(** ** Colours and captions of a reference *)

Section Colours.
Context `{Host}.

(** X1.  [_find_colors_for_class] returns the colours of the first entry of
    the ordered dictionary whose regex is found in the item id, and [None]
    exactly when no regex of the dictionary is found in it. *)
Theorem find_colors_first_match (hyperlink_colors : list (string * list string))
        (item_id : string) :
  match TraceableBaseNode._find_colors_for_class hyperlink_colors item_id with
  | Some colors =>
      exists pre regex post,
        hyperlink_colors = pre ++ (regex, colors) :: post /\
        re_search regex item_id = true /\
        Forall (fun entry => re_search (fst entry) item_id = false) pre
  | None => Forall (fun entry => re_search (fst entry) item_id = false) hyperlink_colors
  end.
Proof.
  induction hyperlink_colors as [|[regex colors] rest IH]; simpl; [constructor|].
  destruct (re_search regex item_id) eqn:Hre.
  - exists [], regex, rest. split; [reflexivity|]. split; [exact Hre | constructor].
  - destruct (TraceableBaseNode._find_colors_for_class rest item_id) as [found|].
    + destruct IH as (pre & regex' & post & -> & Hfound & Hpre).
      exists ((regex, colors) :: pre), regex', post.
      split; [reflexivity|]. split; [exact Hfound|]. constructor; assumption.
    + constructor; assumption.
Qed.

End Colours.

(** ** References to defined items *)

Section DefinedItems.
Context `{Host}.

Lemma get_extend_attr_eq n key l0 l :
  nodes.get n key = Some (AList l0) ->
  nodes.get (nodes.extend_attr n key l) key = Some (AList (l0 ++ l)).
Proof.
  destruct n as [|c r a ch]; simpl; [done|]. intros ->. simpl. by rewrite lookup_insert_eq.
Qed.

(** X2.  For a defined item whose colours have a class name,
    [make_internal_item_ref] reports nothing and returns a paragraph that
    holds one reference.  The reference points to the anchor of the item in
    the document of the item when the builder has a relative uri for that
    document, and carries neither [refuri] nor [refdocname] when the builder
    raises [NoUri]; its classes are the class name of the colours matched
    for the item id, if any. *)
Theorem defined_item_reference self app item_id show_caption item_info w :
  TraceableCollection.get_item (traceability_collection app) item_id = Some item_info ->
  TraceableItem.is_placeholder item_info = false ->
  (forall c cs,
      TraceableBaseNode._find_colors_for_class
        (traceability_hyperlink_colors (config app)) item_id = Some (c :: cs) ->
      is_Some (traceability_class_names (config app) !! (c :: cs))) ->
  exists ref,
    TraceableBaseNode.make_internal_item_ref self app item_id show_caption w
    = (inr (nodes.element nodes.paragraph "" [ref] []), w) /\
    has_class nodes.reference ref = true /\
    match get_relative_uri (builder app) (attr.document self)
            (TraceableItem.docname item_info) with
    | Some uri =>
        nodes.get ref "refuri" = Some (AStr (uri +:+ "#" +:+ item_id)) /\
        nodes.get ref "refdocname" = Some (AStr (TraceableItem.docname item_info))
    | None => nodes.get ref "refuri" = None /\ nodes.get ref "refdocname" = None
    end /\
    nodes.get ref "classes"
    = Some (AList
              match TraceableBaseNode._find_colors_for_class
                      (traceability_hyperlink_colors (config app)) item_id with
              | Some (c :: cs) =>
                  match traceability_class_names (config app) !! (c :: cs) with
                  | Some class_name => [class_name]
                  | None => []
                  end
              | _ => []
              end).
Proof.
  intros Hitem Hph Hcolors.
  unfold TraceableBaseNode.make_internal_item_ref.
  rewrite Hitem. cbv zeta. rewrite Hph.
  destruct (TraceableBaseNode._get_caption_info item_info show_caption)
    as [caption caption_on_hover].
  set (innernode := match caption_on_hover with Some _ => _ | None => _ end).
  set (newnode := match get_relative_uri _ _ _ with Some _ => _ | None => _ end).
  assert (Hnew : has_class nodes.reference newnode = true /\
                 match get_relative_uri (builder app) (attr.document self)
                         (TraceableItem.docname item_info) with
                 | Some uri =>
                     nodes.get newnode "refuri" = Some (AStr (uri +:+ "#" +:+ item_id)) /\
                     nodes.get newnode "refdocname"
                     = Some (AStr (TraceableItem.docname item_info))
                 | None =>
                     nodes.get newnode "refuri" = None /\
                     nodes.get newnode "refdocname" = None
                 end /\
                 nodes.get newnode "classes" = Some (AList [])).
  { subst newnode. destruct (get_relative_uri _ _ _) as [uri|].
    - split; [reflexivity|]. split; [|reflexivity]. cbn. split.
      + rewrite lookup_insert_ne by done. by rewrite lookup_insert_eq.
      + by rewrite lookup_insert_eq.
    - split; [reflexivity|]. split; [split|]; reflexivity. }
  clearbody newnode innernode. destruct Hnew as (Hclass & Hget & Hcls).
  destruct (TraceableBaseNode._find_colors_for_class _ item_id) as [[|c cs]|] eqn:Hc.
  - eexists. split; [reflexivity|].
    split; [unfold has_class in *; by rewrite class_of_append|].
    rewrite !get_append. split; [exact Hget | exact Hcls].
  - destruct (Hcolors c cs eq_refl) as [class_name Hcn]. rewrite Hcn.
    eexists. split; [reflexivity|].
    split; [unfold has_class in *; by rewrite class_of_append, class_of_extend_attr|].
    rewrite !get_append, !get_extend_attr_ne by done. split; [exact Hget|].
    by rewrite (get_extend_attr_eq _ _ [] _ Hcls).
  - eexists. split; [reflexivity|].
    split; [unfold has_class in *; by rewrite class_of_append|].
    rewrite !get_append. split; [exact Hget | exact Hcls].
Qed.

End DefinedItems.

Section Captions.
Context `{Host}.

Lemma append_empty_r (s : string) : s +:+ "" = s.
Proof.
  induction s as [|a s IH]; [reflexivity|].
  change (String a (s +:+ "") = String a s). by rewrite IH.
Qed.

(** X3.  The text of a reference to a defined item with a non-empty id.
    With a non-empty caption and [show_caption] the reference reads
    "<id> : <caption>".  With a non-empty caption and without
    [show_caption] it reads "<id>", and holds the caption in a hidden
    [popup_caption] node on every builder but the LaTeX one, where the
    caption is dropped.  Without a caption it reads "<id>". *)
Theorem caption_shown_or_hidden self app item_id show_caption item_info w p w' :
  TraceableCollection.get_item (traceability_collection app) item_id = Some item_info ->
  TraceableItem.is_placeholder item_info = false ->
  item_id <> "" ->
  TraceableBaseNode.make_internal_item_ref self app item_id show_caption w = (inr p, w') ->
  exists ref inner,
    nodes.children p = [ref] /\
    nodes.children ref = [inner] /\
    has_class nodes.emphasis inner = true /\
    match TraceableItem.caption item_info with
    | Some (String a c) =>
        let caption := String a c in
        if show_caption then
          nodes.children inner = [Text (item_id +:+ " : " +:+ caption)] /\
          nodes.get inner "classes" = Some (AList [])
        else if is_latex (builder app) then
          nodes.children inner = [Text item_id] /\
          nodes.get inner "classes" = Some (AList [])
        else
          exists hover,
            nodes.children inner = [Text item_id; hover] /\
            nodes.get inner "classes" = Some (AList ["has_hidden_caption"]) /\
            has_class nodes.inline hover = true /\
            nodes.children hover = [Text caption] /\
            nodes.get hover "classes" = Some (AList ["popup_caption"])
    | _ =>
        nodes.children inner = [Text item_id] /\
        nodes.get inner "classes" = Some (AList [])
    end.
Proof.
  intros Hitem Hph Hid.
  destruct item_id as [|i0 item_id]; [done|].
  unfold TraceableBaseNode.make_internal_item_ref.
  rewrite Hitem. cbv zeta. rewrite Hph.
  set (newnode := match get_relative_uri _ _ _ with Some _ => _ | None => _ end).
  assert (Hnew : exists attrs, newnode = Element nodes.reference "" attrs []).
  { subst newnode. destruct (get_relative_uri _ _ _); eexists; reflexivity. }
  clearbody newnode. destruct Hnew as [attrs ->].
  set (colored := match TraceableBaseNode._find_colors_for_class _ _ with
                  | Some (c :: cs) => _ | _ => _ end).
  assert (Hcol : (exists e, forall w, colored w = (inl e, w)) \/
                 exists attrs', forall w,
                   colored w = (inr (Element nodes.reference "" attrs' []), w)).
  { subst colored.
    destruct (TraceableBaseNode._find_colors_for_class _ _) as [[|c cs]|].
    - right. eexists. reflexivity.
    - destruct (traceability_class_names (config app) !! (c :: cs)).
      + right. simpl. destruct (attrs !! "classes") as [[| |l0]|]; eexists; reflexivity.
      + left. eexists. reflexivity.
    - right. eexists. reflexivity. }
  clearbody colored.
  unfold TraceableBaseNode._get_caption_info.
  destruct (TraceableItem.caption item_info) as [[|a c]|]; cbn [String.eqb]; cbv iota beta.
  all: rewrite ?append_empty_r.
  1,3: unfold mbind, M_bind; destruct Hcol as [[e He]|[attrs' Hc]];
       [rewrite He; discriminate | rewrite Hc; intros [= <- <-]];
       (eexists _, _; split; [reflexivity|]; split; [reflexivity|];
        split; [reflexivity|]; split; reflexivity).
  destruct show_caption; cbv iota beta; rewrite ?append_empty_r.
  - unfold mbind, M_bind. destruct Hcol as [[e He]|[attrs' Hc]];
      [rewrite He; discriminate | rewrite Hc; intros [= <- <-]].
    eexists _, _. split; [reflexivity|]. split; [reflexivity|].
    split; [reflexivity|]. split; reflexivity.
  - unfold mbind, M_bind. destruct Hcol as [[e He]|[attrs' Hc]];
      [rewrite He; discriminate | rewrite Hc; intros [= <- <-]].
    destruct (is_latex (builder app)).
    + eexists _, _. split; [reflexivity|]. split; [reflexivity|].
      split; [reflexivity|]. split; reflexivity.
    + eexists _, _. split; [reflexivity|]. split; [reflexivity|].
      split; [reflexivity|]. eexists.
      split; [reflexivity|]. split; [reflexivity|]. split; [reflexivity|].
      split; reflexivity.
Qed.

End Captions.

(** ** The outcomes of [make_internal_item_ref] *)

Section Outcomes.
Context `{Host}.

Lemma item_ref_outcome self app item_id show_caption w :
  (TraceableCollection.get_item (traceability_collection app) item_id = None /\
   TraceableBaseNode.make_internal_item_ref self app item_id show_caption w
   = (inl (AttributeError "is_placeholder"), w)) \/
  (exists item_info,
      TraceableCollection.get_item (traceability_collection app) item_id = Some item_info /\
      TraceableItem.is_placeholder item_info = true /\
      notification_of app = None /\
      TraceableBaseNode.make_internal_item_ref self app item_id show_caption w
      = (inr (nodes.element nodes.paragraph ""
                [Text (item_id +:+ " not defined, broken link")] []),
         World (warnings w
                  ++ [Warning ("Traceability: cannot link to '"
                                 +:+ TraceableItem.get_id item_info
                                 +:+ "', item is not defined")
                              (attr.document self) (attr.line self)])
               (replaced w))) \/
  (is_Some (TraceableCollection.get_item (traceability_collection app) item_id) /\
   ~ broken_link app item_id /\
   class_name_missing app item_id /\
   TraceableBaseNode.make_internal_item_ref self app item_id show_caption w
   = (inl (KeyError "traceability_class_names"), w)) \/
  (is_Some (TraceableCollection.get_item (traceability_collection app) item_id) /\
   ~ broken_link app item_id /\
   ~ class_name_missing app item_id /\
   exists ref,
     has_class nodes.reference ref = true /\
     TraceableBaseNode.make_internal_item_ref self app item_id show_caption w
     = (inr (nodes.element nodes.paragraph "" [ref] []), w)).
Proof.
  unfold TraceableBaseNode.make_internal_item_ref.
  destruct (TraceableCollection.get_item (traceability_collection app) item_id)
    as [item_info|] eqn:Hitem; [|left; split; reflexivity].
  right. cbv zeta.
  fold (notification_of app).
  assert (Hfinish : forall notification,
    ~ broken_link app item_id ->
    (class_name_missing app item_id /\
     (let '(caption, caption_on_hover) :=
         TraceableBaseNode._get_caption_info item_info show_caption in
       let newnode := nodes.text_element nodes.reference "" "" [] [] in
       let innernode :=
         nodes.text_element nodes.emphasis (item_id +:+ caption) (item_id +:+ caption) [] [] in
       let newnode :=
         match notification with
         | None =>
             match get_relative_uri (builder app) (attr.document self)
                     (TraceableItem.docname item_info) with
             | Some uri =>
                 nodes.set (nodes.set newnode "refuri" (AStr (uri +:+ "#" +:+ item_id)))
                   "refdocname" (AStr (TraceableItem.docname item_info))
             | None => newnode
             end
         | Some (notification_item_id, notification_item) =>
             match get_relative_uri (builder app) (attr.document self)
                     (TraceableItem.docname notification_item) with
             | Some uri =>
                 nodes.set
                   (nodes.set newnode "refuri" (AStr (uri +:+ "#" +:+ notification_item_id)))
                   "refdocname" (AStr (TraceableItem.docname notification_item))
             | None => newnode
             end
         end in
       newnode ←
         match TraceableBaseNode._find_colors_for_class
                 (traceability_hyperlink_colors (config app)) item_id with
         | Some (c :: cs) =>
             match traceability_class_names (config app) !! (c :: cs) with
             | Some class_name => mret (nodes.extend_attr newnode "classes" [class_name])
             | None => raise (KeyError "traceability_class_names")
             end
         | _ => mret newnode
         end;
       let innernode :=
         match caption_on_hover with
         | Some hover =>
             if is_latex (builder app) then innernode
             else nodes.append
                    (nodes.extend_attr innernode "classes" ["has_hidden_caption"]) hover
         | None => innernode
         end in
       let newnode := nodes.append newnode innernode in
       mret (nodes.iadd (nodes.element nodes.paragraph "" [] []) (Some newnode))) w
     = (inl (KeyError "traceability_class_names"), w)) \/
    (~ class_name_missing app item_id /\
     exists ref,
       has_class nodes.reference ref = true /\
       (let '(caption, caption_on_hover) :=
           TraceableBaseNode._get_caption_info item_info show_caption in
         let newnode := nodes.text_element nodes.reference "" "" [] [] in
         let innernode :=
           nodes.text_element nodes.emphasis (item_id +:+ caption) (item_id +:+ caption)
             [] [] in
         let newnode :=
           match notification with
           | None =>
               match get_relative_uri (builder app) (attr.document self)
                       (TraceableItem.docname item_info) with
               | Some uri =>
                   nodes.set (nodes.set newnode "refuri" (AStr (uri +:+ "#" +:+ item_id)))
                     "refdocname" (AStr (TraceableItem.docname item_info))
               | None => newnode
               end
           | Some (notification_item_id, notification_item) =>
               match get_relative_uri (builder app) (attr.document self)
                       (TraceableItem.docname notification_item) with
               | Some uri =>
                   nodes.set
                     (nodes.set newnode "refuri"
                        (AStr (uri +:+ "#" +:+ notification_item_id)))
                     "refdocname" (AStr (TraceableItem.docname notification_item))
               | None => newnode
               end
           end in
         newnode ←
           match TraceableBaseNode._find_colors_for_class
                   (traceability_hyperlink_colors (config app)) item_id with
           | Some (c :: cs) =>
               match traceability_class_names (config app) !! (c :: cs) with
               | Some class_name => mret (nodes.extend_attr newnode "classes" [class_name])
               | None => raise (KeyError "traceability_class_names")
               end
           | _ => mret newnode
           end;
         let innernode :=
           match caption_on_hover with
           | Some hover =>
               if is_latex (builder app) then innernode
               else nodes.append
                      (nodes.extend_attr innernode "classes" ["has_hidden_caption"]) hover
           | None => innernode
           end in
         let newnode := nodes.append newnode innernode in
         mret (nodes.iadd (nodes.element nodes.paragraph "" [] []) (Some newnode))) w
       = (inr (nodes.element nodes.paragraph "" [ref] []), w))).
  { intros notification Hnb.
    destruct (TraceableBaseNode._get_caption_info item_info show_caption)
      as [caption caption_on_hover].
    cbv zeta.
    set (innernode := match caption_on_hover with Some _ => _ | None => _ end).
    set (newnode := match notification with Some _ => _ | None => _ end).
    assert (Hnew : has_class nodes.reference newnode = true).
    { subst newnode. repeat case_match; unfold has_class; rewrite ?class_of_set; reflexivity. }
    clearbody newnode innernode.
    unfold class_name_missing.
    destruct (TraceableBaseNode._find_colors_for_class _ item_id) as [[|c cs]|] eqn:Hc.
    - right. split; [intros (c & cs & [=] & _)|].
      eexists. split; [|reflexivity]. unfold has_class in *. by rewrite class_of_append.
    - destruct (traceability_class_names (config app) !! (c :: cs)) as [class_name|] eqn:Hcn.
      + right. split; [intros (c' & cs' & [= <- <-] & Hn); congruence|].
        eexists. split; [|reflexivity].
        unfold has_class in *. by rewrite class_of_append, class_of_extend_attr.
      + left. split; [|reflexivity]. by exists c, cs.
    - right. split; [intros (c & cs & [=] & _)|].
      eexists. split; [|reflexivity]. unfold has_class in *. by rewrite class_of_append. }
  cbv zeta in Hfinish.
  destruct (TraceableItem.is_placeholder item_info) eqn:Hph.
  - destruct (notification_of app) as [[nid it]|] eqn:Hnot.
    + right.
      assert (Hnb : ~ broken_link app item_id).
      { intros (i & _ & _ & Hn). congruence. }
      destruct (Hfinish (Some (nid, it)) Hnb) as [[Hm Hr]|[Hm Hr]].
      * left. split; [by eexists|]. split; [exact Hnb|]. split; [exact Hm | exact Hr].
      * right. split; [by eexists|]. split; [exact Hnb|]. split; [exact Hm | exact Hr].
    + left. exists item_info. split; [reflexivity|]. split; [exact Hph|].
      split; [reflexivity|].
      unfold TraceableBaseNode.has_warned_about_undefined. rewrite Hph. reflexivity.
  - right.
    assert (Hnb : ~ broken_link app item_id).
    { intros (i & Hi & Hp & _). congruence. }
    destruct (Hfinish None Hnb) as [[Hm Hr]|[Hm Hr]].
    + left. split; [by eexists|]. split; [exact Hnb|]. split; [exact Hm | exact Hr].
    + right. split; [by eexists|]. split; [exact Hnb|]. split; [exact Hm | exact Hr].
Qed.

(** X4.  [make_internal_item_ref] raises in two cases only, and then leaves
    the world as it was: an [AttributeError] exactly when the collection
    does not know the item id, and a [KeyError] exactly when the id is
    known, is not a placeholder without notification item, and the colours
    matched for it have no class name.  In every other case it returns. *)
Theorem item_ref_raises_iff self app item_id show_caption w :
  match TraceableBaseNode.make_internal_item_ref self app item_id show_caption w with
  | (inl e, w') =>
      w' = w /\
      ((e = AttributeError "is_placeholder" /\
        TraceableCollection.get_item (traceability_collection app) item_id = None) \/
       (e = KeyError "traceability_class_names" /\
        is_Some (TraceableCollection.get_item (traceability_collection app) item_id) /\
        class_name_missing app item_id /\ ~ broken_link app item_id))
  | (inr p, w') =>
      is_Some (TraceableCollection.get_item (traceability_collection app) item_id) /\
      (class_name_missing app item_id -> broken_link app item_id)
  end.
Proof.
  destruct (item_ref_outcome self app item_id show_caption w)
    as [[Hnone ->]|[(item_info & Hitem & Hph & Hnot & ->)|
                   [(Hsome & Hnb & Hm & ->)|(Hsome & Hnb & Hm & ref & _ & ->)]]].
  - split; [reflexivity|]. left. split; [reflexivity | exact Hnone].
  - split; [by eexists|]. intros _. by exists item_info.
  - split; [reflexivity|]. right. split; [reflexivity|]. split; [exact Hsome|].
    split; [exact Hm | exact Hnb].
  - split; [exact Hsome|]. intros Hm'. by destruct Hm.
Qed.

(** X5.  Whenever [make_internal_item_ref] returns, it returns a paragraph
    with exactly one child and has not called [replace_self]: the child is
    the text "<item id> not defined, broken link" and one warning has been
    reported, or it is a reference and the world is as it was. *)
Theorem item_ref_one_child self app item_id show_caption w p w' :
  TraceableBaseNode.make_internal_item_ref self app item_id show_caption w = (inr p, w') ->
  has_class nodes.paragraph p = true /\
  replaced w' = replaced w /\
  exists child,
    nodes.children p = [child] /\
    ((child = Text (item_id +:+ " not defined, broken link") /\
      exists wn, warnings w' = warnings w ++ [wn]) \/
     (has_class nodes.reference child = true /\ w' = w)).
Proof.
  destruct (item_ref_outcome self app item_id show_caption w)
    as [[Hnone ->]|[(item_info & Hitem & Hph & Hnot & ->)|
                   [(Hsome & Hnb & Hm & ->)|(Hsome & Hnb & Hm & ref & Href & ->)]]];
    intros [= <- <-].
  - split; [reflexivity|]. split; [reflexivity|]. eexists. split; [reflexivity|].
    left. split; [reflexivity|]. by eexists.
  - split; [reflexivity|]. split; [reflexivity|]. exists ref. split; [reflexivity|].
    right. split; [exact Href | reflexivity].
Qed.

(** X6.  [create_top_node] with an application links the title: it raises
    what [make_internal_item_ref] raises for the title as item id, with
    captions shown unless [nocaptions] is set, and never an [IndexError];
    when the reference is built, the title node of the admonition holds the
    one child of its paragraph. *)
Theorem create_top_node_links_title self title app w :
  match TraceableBaseNode.make_internal_item_ref self app title
          (negb (attr.nocaptions self)) w with
  | (inl e, w') =>
      TraceableBaseNode.create_top_node self title (Some app) w = (inl e, w')
  | (inr p, w') =>
      exists child,
        nodes.children p = [child] /\
        TraceableBaseNode.create_top_node self title (Some app) w
        = (inr (nodes.element nodes.container ""
                  [nodes.extend_attr
                     (nodes.element nodes.admonition ""
                        [nodes.element nodes.title "" [child] []] [])
                     "classes" ["item"]] []),
           w')
  end.
Proof.
  unfold TraceableBaseNode.create_top_node. cbv zeta.
  unfold mbind, M_bind, mret, M_ret.
  destruct (item_ref_outcome self app title (negb (attr.nocaptions self)) w)
    as [[Hnone ->]|[(item_info & Hitem & Hph & Hnot & ->)|
                   [(Hsome & Hnb & Hm & ->)|(Hsome & Hnb & Hm & ref & Href & ->)]]].
  - reflexivity.
  - eexists. split; reflexivity.
  - reflexivity.
  - eexists. split; reflexivity.
Qed.

End Outcomes.

(** ** The external relationships of a matrix *)

Section ExternalMap.
Context `{Host}.

Lemma dict_setitem_NoDup {V : Type} (k : string) (v : V) (d : list (string * V)) :
  NoDup (map fst d) -> NoDup (map fst (dict_setitem k v d)).
Proof.
  induction d as [|[k0 v0] d IH]; simpl; intros Hnd.
  - apply NoDup_singleton.
  - apply NoDup_cons in Hnd as [Hk0 Hnd].
    destruct (String.eqb_spec k k0) as [->|Hne]; simpl.
    + by apply NoDup_cons.
    + apply NoDup_cons. split; [|by apply IH].
      rewrite dict_setitem_keys. intros [?|?]; [congruence | done].
Qed.

Lemma dict_setitem_values {V : Type} (P : string -> V -> Prop) (k : string) (v : V)
      (d : list (string * V)) :
  P k v -> Forall (fun e => P (fst e) (snd e)) d ->
  Forall (fun e => P (fst e) (snd e)) (dict_setitem k v d).
Proof.
  intros Hkv. induction d as [|[k0 v0] d IH]; simpl; intros Hd.
  - by constructor.
  - apply Forall_cons in Hd as [Hk0 Hd].
    destruct (String.eqb k k0); constructor; auto.
Qed.

(** X7.  [ext_relations_to_target_map] holds one entry for each external
    relationship, also for one that is listed several times: its keys are
    without duplicates and are the external relationships, and the value of
    a key is what [get_external_targets] returns for the source regex and
    that relationship. *)
Theorem ext_map_one_entry_per_relationship self collection external_relationships :
  let ext_map :=
    ItemMatrix.ext_relations_to_target_map self collection external_relationships in
  NoDup (map fst ext_map) /\
  (forall relation, relation ∈ map fst ext_map <-> relation ∈ external_relationships) /\
  (forall relation ext_targets_to_item_ids,
      (relation, ext_targets_to_item_ids) ∈ ext_map ->
      ext_targets_to_item_ids
      = TraceableCollection.get_external_targets collection (attr.source self) relation).
Proof.
  cbv zeta. split; [|split].
  - unfold ItemMatrix.ext_relations_to_target_map.
    assert (Hgen : forall d, NoDup (map fst d) ->
               NoDup (map fst
                 (fold_left
                    (fun m relation =>
                       dict_setitem relation
                         (TraceableCollection.get_external_targets collection
                            (attr.source self) relation) m)
                    external_relationships d))).
    { induction external_relationships as [|e exts IH]; intros d Hd; simpl; [exact Hd|].
      apply IH. by apply dict_setitem_NoDup. }
    apply Hgen. constructor.
  - intros relation. apply ext_map_keys.
  - unfold ItemMatrix.ext_relations_to_target_map.
    assert (Hgen : forall d,
               Forall (fun e => snd e = TraceableCollection.get_external_targets collection
                                          (attr.source self) (fst e)) d ->
               Forall (fun e => snd e = TraceableCollection.get_external_targets collection
                                          (attr.source self) (fst e))
                 (fold_left
                    (fun m relation =>
                       dict_setitem relation
                         (TraceableCollection.get_external_targets collection
                            (attr.source self) relation) m)
                    external_relationships d)).
    { induction external_relationships as [|e exts IH]; intros d Hd; simpl; [exact Hd|].
      apply IH.
      apply (dict_setitem_values
               (fun k v => v = TraceableCollection.get_external_targets collection
                                 (attr.source self) k)); [reflexivity | exact Hd]. }
    intros relation targets Hin.
    specialize (Hgen [] (Forall_nil_2 _)).
    by apply (proj1 (Forall_forall _ _) Hgen (relation, targets)).
Qed.

End ExternalMap.

(** ** The percentage of the statistics line *)

Section Percentage.
Context `{Host}.

Lemma length_filter_all {A : Type} (P : A -> Prop) `{!forall x, Decision (P x)} (l : list A) :
  length (filter P l) = length l <-> Forall P l.
Proof.
  induction l as [|x l IH]; simpl; [split; [constructor | reflexivity]|].
  destruct (decide (P x)) as [Hx|Hx].
  - rewrite filter_cons_True by done. simpl. rewrite Forall_cons. split.
    + intros [= Hl]. split; [exact Hx | by apply IH].
    + intros [_ Hl]. f_equal. by apply IH.
  - rewrite filter_cons_False by done. rewrite Forall_cons. split.
    + intros Hl. pose proof (length_filter P l). lia.
    + intros [? _]. done.
Qed.

Lemma length_filter_map {A B : Type} (f : A -> B) (P : B -> Prop) (Q : A -> Prop)
      `{!forall y, Decision (P y)} `{!forall x, Decision (Q x)} (l : list A) :
  (forall x, Q x <-> P (f x)) ->
  length (filter P (map f l)) = length (filter Q l).
Proof.
  intros HPQ. induction l as [|x l IH]; simpl; [reflexivity|].
  destruct (decide (Q x)) as [Hx|Hx].
  - rewrite (filter_cons_True P) by (by apply HPQ).
    rewrite (filter_cons_True Q) by done. simpl. by rewrite IH.
  - rewrite (filter_cons_False P) by (by rewrite <- HPQ).
    by rewrite (filter_cons_False Q).
Qed.

(** X8.  The statistics of the rows stored by a sequence of [_store_row]
    calls, fewer than [2^53 / 100] of them: the line counts the calls with a
    true flag and all calls; the percentage lies between 0 and 100, it is
    100 exactly when there is a row and every row is covered (it is never
    rounded up), and it is 0 exactly when there is no row or fewer than one
    row in a hundred is covered. *)
Theorem percentage_of_stored_rows (calls : list (node * list node * bool)) (w : world) :
  (100 * Z.of_nat (length calls) < 2 ^ 53)%Z ->
  let count_total := Z.of_nat (length calls) in
  let count_covered := Z.of_nat (length (filter (fun call => snd call = true) calls)) in
  exists percentage,
    ItemMatrix.statistics (Spec.stored calls) w
    = (inr ("Statistics: " +:+ Str.of_Z count_covered +:+ " out of "
              +:+ Str.of_Z count_total +:+ " covered: " +:+ Str.of_Z percentage +:+ "%"),
       w) /\
    (0 <= percentage <= 100)%Z /\
    (percentage = 100%Z <-> calls <> [] /\ Forall (fun call => snd call = true) calls) /\
    (percentage = 0%Z <-> calls = [] \/ (100 * count_covered < count_total)%Z).
Proof.
  intros Hsize. cbv zeta.
  destruct (stored_rows_are calls) as (Hs & Hc & _).
  assert (Hlen_s : length (ItemMatrix.sorted (Spec.stored calls)) = length calls).
  { by rewrite Hs, !length_map. }
  assert (Hlen_c : length (ItemMatrix.covered (Spec.stored calls))
                   = length (filter (fun call => snd call = true) calls)).
  { rewrite Hc, length_map.
    apply length_filter_map. intros call. reflexivity. }
  pose proof (length_filter (fun call : node * list node * bool => snd call = true) calls)
    as Hle.
  pose proof (length_filter_all (fun call : node * list node * bool => snd call = true) calls)
    as Hall.
  destruct (statistics_returns (Spec.stored calls) w) as [Hstat _];
    [rewrite Hlen_c; lia | rewrite Hlen_s; lia |].
  rewrite Hlen_c, Hlen_s in Hstat.
  set (c := Z.of_nat (length (filter (fun call => snd call = true) calls))) in *.
  set (t := Z.of_nat (length calls)) in *.
  exists (Spec.floor_percentage c t). split; [exact Hstat|].
  assert (Hct : (0 <= c <= t)%Z) by (subst c t; lia).
  unfold Spec.floor_percentage.
  destruct (Z.eqb_spec t 0) as [Ht0|Ht0].
  - assert (Hnil : calls = []).
    { destruct calls; [reflexivity | subst t; simpl in Ht0; lia]. }
    split; [lia|]. split.
    + split; [lia | intros [Hne _]; done].
    + split; [by left | reflexivity].
  - assert (Hne : calls <> []) by (intros ->; subst t; simpl in Ht0; lia).
    assert (Htpos : (0 < t)%Z) by lia.
    split; [|split].
    + split.
      * apply Z.div_pos; lia.
      * apply Z.div_le_upper_bound; lia.
    + split.
      * intros Hq.
        pose proof (Z.mul_div_le (100 * c) t Htpos) as Hm. rewrite Hq in Hm.
        split; [exact Hne|]. apply Hall. subst c t. lia.
      * intros [_ Hf]. apply Hall in Hf.
        assert (c = t) as -> by (subst c t; lia).
        apply Z.div_mul. lia.
    + rewrite Z.div_small_iff by lia. split.
      * intros [?|?]; [right; lia | lia].
      * intros [?|?]; [done | left; lia].
Qed.

End Percentage.

(** ** What a run does to the world *)

Section Steps.
Context {R : world -> world -> Prop}.
Hypothesis R_refl : forall w, R w w.
Hypothesis R_trans : forall w1 w2 w3, R w1 w2 -> R w2 w3 -> R w1 w3.

Lemma steps_ret {A : Type} (a : A) : steps R (mret a).
Proof. intros w. apply R_refl. Qed.

Lemma steps_raise {A : Type} (e : exn) : steps R (raise e : M A).
Proof. intros w. apply R_refl. Qed.

Lemma steps_lift {A : Type} (r : exn + A) : steps R (lift r).
Proof. intros w. apply R_refl. Qed.

Lemma steps_bind {A B : Type} (m : M A) (k : A -> M B) :
  steps R m -> (forall a, steps R (k a)) -> steps R (m ≫= k).
Proof.
  intros Hm Hk w. unfold mbind, M_bind. specialize (Hm w).
  destruct (m w) as [[e|a] w1]; simpl in *; [exact Hm|].
  eapply R_trans; [exact Hm | apply Hk].
Qed.

Lemma steps_try_except {A : Type} (body : M A) (handler : exn -> M A) :
  steps R body -> (forall e, steps R (handler e)) -> steps R (try_except body handler).
Proof.
  intros Hb Hh w. unfold try_except. specialize (Hb w).
  destruct (body w) as [[e|a] w1]; simpl in *; [|exact Hb].
  eapply R_trans; [exact Hb | apply Hh].
Qed.

Lemma steps_for_each {A S : Type} (l : list A) (body : S -> A -> M S) (s : S) :
  (forall s x, x ∈ l -> steps R (body s x)) -> steps R (for_each l body s).
Proof.
  revert s. induction l as [|x l IH]; intros s Hbody; simpl.
  - apply steps_ret.
  - apply steps_bind; [apply Hbody; left|].
    intros s'. apply IH. intros s'' y Hy. apply Hbody. by right.
Qed.

End Steps.

Lemma logs_refl (P : warning -> Prop) (w : world) : logs P w w.
Proof. split; [reflexivity|]. exists []. by rewrite app_nil_r. Qed.

Lemma logs_trans (P : warning -> Prop) (w1 w2 w3 : world) :
  logs P w1 w2 -> logs P w2 w3 -> logs P w1 w3.
Proof.
  intros [Hr1 (ws1 & Hw1 & HP1)] [Hr2 (ws2 & Hw2 & HP2)]. split; [congruence|].
  exists (ws1 ++ ws2). split; [by rewrite Hw2, Hw1, app_assoc | by apply Forall_app].
Qed.

Section Logs.
Context `{Host}.
Variables (self : attr.t) (app : App).

Local Abbreviation P := (undefined_item_warning self (traceability_collection app)).

Local Ltac logs_step :=
  first [ apply (steps_ret (logs_refl P))
        | apply (steps_raise (logs_refl P))
        | apply (steps_lift (logs_refl P))
        | apply (steps_bind (logs_trans P))
        | apply (steps_for_each (logs_refl P) (logs_trans P))
        | apply (steps_try_except (logs_trans P)) ].

Lemma make_internal_item_ref_logs item_id show_caption :
  steps (logs P) (TraceableBaseNode.make_internal_item_ref self app item_id show_caption).
Proof.
  intros w.
  destruct (item_ref_outcome self app item_id show_caption w)
    as [[Hnone ->]|[(item_info & Hitem & Hph & Hnot & ->)|
                   [(Hsome & Hnb & Hm & ->)|(Hsome & Hnb & Hm & ref & _ & ->)]]];
    simpl; try apply logs_refl.
  split; [reflexivity|]. eexists. split; [reflexivity|].
  apply Forall_singleton. by exists item_id, item_info.
Qed.

Lemma iadd_at_logs rights idx (other : M node) :
  steps (logs P) other -> steps (logs P) (ItemMatrix.iadd_at rights idx other).
Proof.
  intros Ho. unfold ItemMatrix.iadd_at. destruct (rights !! idx); [|logs_step].
  logs_step; [exact Ho|]. intros ref. logs_step.
Qed.

Lemma add_external_targets_logs source_item external_relationships st :
  steps (logs P)
    (ItemMatrix.add_external_targets app source_item external_relationships st).
Proof.
  unfold ItemMatrix.add_external_targets. logs_step. intros st' rel _.
  destruct source_item; [|logs_step].
  logs_step. intros [rights c] target_id _. logs_step.
Qed.

Lemma add_internal_targets_logs collection source_id relationships targets_with_ids st :
  steps (logs P)
    (ItemMatrix.add_internal_targets self app collection source_id relationships
       targets_with_ids st).
Proof.
  unfold ItemMatrix.add_internal_targets. logs_step. intros st' [idx target_ids] _.
  logs_step. intros [rights c] target_id _.
  destruct (TraceableCollection.are_related _ _ _ _); [|logs_step].
  logs_step; [apply iadd_at_logs, make_internal_item_ref_logs|]. intros r. logs_step.
Qed.

Lemma add_matching_targets_logs item_ids st :
  steps (logs P) (ItemMatrix.add_matching_targets self app item_ids st).
Proof.
  unfold ItemMatrix.add_matching_targets. logs_step. intros st' [idx target_regex] _.
  logs_step. intros [rights c] target_id _.
  destruct (re_match _ _); [|logs_step].
  logs_step; [apply iadd_at_logs, make_internal_item_ref_logs|]. intros r. logs_step.
Qed.

Lemma build_rows_logs collection :
  steps (logs P) (ItemMatrix.build_rows self app collection).
Proof.
  unfold ItemMatrix.build_rows.
  destruct (ItemMatrix.select_relationships self collection) as [rels exts].
  logs_step.
  - logs_step. intros rows source_id _. unfold ItemMatrix.source_row.
    logs_step; [apply make_internal_item_ref_logs|]. intros ref.
    logs_step; [apply add_external_targets_logs|]. intros st.
    logs_step; [apply add_internal_targets_logs|]. intros [rights c]. logs_step.
  - intros rows. logs_step. intros rows' [ext_rel targets] _.
    logs_step. intros rows'' [ext_source item_ids] _. unfold ItemMatrix.external_row.
    logs_step; [apply add_matching_targets_logs|]. intros [rights c]. logs_step.
Qed.

Lemma statistics_logs rows : steps (logs P) (ItemMatrix.statistics rows).
Proof.
  unfold ItemMatrix.statistics. logs_step; [|intros pct; logs_step].
  logs_step.
  - logs_step; [logs_step|]. intros q. logs_step.
  - intros e. destruct e; logs_step.
Qed.

End Logs.

Section World.
Context `{Host}.

Lemma perform_replacement_world self app collection w :
  exists w1,
    logs (undefined_item_warning self (traceability_collection app)) w w1 /\
    ((exists e, ItemMatrix.perform_replacement self app collection w = (inl e, w1)) \/
     (exists top,
         has_class nodes.container top = true /\
         ItemMatrix.perform_replacement self app collection w
         = (inr tt, World (warnings w1) (replaced w1 ++ [top])))).
Proof.
  set (P := undefined_item_warning self (traceability_collection app)).
  unfold ItemMatrix.perform_replacement, TraceableBaseNode.create_top_node.
  unfold mbind, M_bind, mret, M_ret. cbv zeta.
  pose proof (build_rows_logs self app collection w) as Hb. fold P in Hb.
  destruct (ItemMatrix.build_rows self app collection w) as [[e|rows] w1]; simpl in Hb.
  { exists w1. split; [exact Hb|]. left. by exists e. }
  pose proof (statistics_logs self app rows w1) as Hs. fold P in Hs.
  unfold mbind, M_bind, mret, M_ret in Hs.
  destruct (ItemMatrix.statistics rows w1) as [[e|disp] w2]; simpl in Hs.
  { exists w2. split; [eapply logs_trans; eassumption|]. left. by exists e. }
  exists w2. split; [eapply logs_trans; eassumption|]. right.
  unfold replace_self. eexists. split; [|reflexivity].
  rewrite has_class_iadd. destruct (attr.stats self); reflexivity.
Qed.

(** X9.  Whatever its outcome, [perform_replacement] keeps the warnings
    reported before, and every warning it adds is the warning that an item
    cannot be linked to, for a placeholder item of the collection of the
    application, at the document and line of the matrix.  With a collection
    without placeholder items it reports no warning. *)
Theorem warnings_only_for_undefined_items self app collection w :
  let w' := snd (ItemMatrix.perform_replacement self app collection w) in
  (exists ws,
      warnings w' = warnings w ++ ws /\
      Forall (undefined_item_warning self (traceability_collection app)) ws) /\
  ((forall item_id item,
       TraceableCollection.get_item (traceability_collection app) item_id = Some item ->
       TraceableItem.is_placeholder item = false) ->
   warnings w' = warnings w).
Proof.
  cbv zeta.
  assert (Hlog : exists ws,
             warnings (snd (ItemMatrix.perform_replacement self app collection w))
             = warnings w ++ ws /\
             Forall (undefined_item_warning self (traceability_collection app)) ws).
  { destruct (perform_replacement_world self app collection w)
      as (w1 & [_ Hw] & [[e ->]|(top & _ & ->)]); exact Hw. }
  split; [exact Hlog|].
  intros Hdefined. destruct Hlog as (ws & -> & Hws).
  destruct ws as [|wn ws]; [by rewrite app_nil_r|].
  apply Forall_cons in Hws as [(item_id & item & Hitem & Hph & _) _].
  specialize (Hdefined item_id item Hitem). congruence.
Qed.

(** X10.  [perform_replacement] replaces the matrix node at most once, as
    its last step: when it raises, [replace_self] has not been called, and
    when it returns, [replace_self] has been called once, with a
    container. *)
Theorem replaced_once_or_never self app collection w :
  match ItemMatrix.perform_replacement self app collection w with
  | (inl e, w') => replaced w' = replaced w
  | (inr _, w') =>
      exists top, replaced w' = replaced w ++ [top] /\ has_class nodes.container top = true
  end.
Proof.
  destruct (perform_replacement_world self app collection w)
    as (w1 & [Hr _] & [[e ->]|(top & Htop & ->)]); [exact Hr|].
  exists top. simpl. by rewrite Hr.
Qed.

End World.

(** ** Coverage and what a row shows *)

(** A loop that returns keeps an invariant that its body keeps. *)
Lemma for_each_inv {A S : Type} (J : S -> Prop) (body : S -> A -> M S) (l : list A) :
  (forall s x w s' w', x ∈ l -> J s -> body s x w = (inr s', w') -> J s') ->
  forall s w s' w', J s -> for_each l body s w = (inr s', w') -> J s'.
Proof.
  induction l as [|x l IH]; intros Hbody s w s' w' HJ; simpl.
  - intros [= <- _]. exact HJ.
  - unfold mbind, M_bind. destruct (body s x w) as [[e|s1] w1] eqn:Hb; [done|].
    apply IH.
    + intros s0 y w0 s0' w0' Hy. apply Hbody. by right.
    + eapply Hbody; [left | exact HJ | exact Hb].
Qed.

Section Visible.
Context `{Host}.
Variables (self : attr.t) (app : App).

Lemma children_iadd_entry right ref :
  has_class nodes.entry right = true ->
  nodes.children (nodes.iadd right (Some ref)) <> [].
Proof.
  destruct right as [|c r a ch]; [done|]. intros _. simpl.
  intros Hnil. by apply app_eq_nil in Hnil as [_ ?].
Qed.

Lemma iadd_at_cells V rights0 rights is_covered idx (other : M node) w rights' w' :
  cells_inv V rights0 (rights, is_covered) ->
  ItemMatrix.iadd_at rights idx other w = (inr rights', w') ->
  cells_inv V rights0 (rights', true).
Proof.
  intros (Hlen & Hent & _ & _). unfold ItemMatrix.iadd_at.
  destruct (rights !! idx) as [r|] eqn:Hr; [|done].
  unfold mbind, M_bind. destruct (other w) as [[e|ref] w1]; [done|].
  intros [= <- _]. unfold cells_inv. cbn [fst snd].
  assert (Hr' : has_class nodes.entry r = true).
  { eapply Forall_lookup_1 in Hent; eauto. }
  split; [by rewrite length_insert|]. split.
  - apply Forall_insert; [exact Hent|].
    unfold has_class in *. by rewrite class_of_append.
  - split; [done|]. intros _ _. apply Exists_exists.
    exists (nodes.iadd r (Some ref)). split; [|by apply children_iadd_entry].
    eapply list_elem_of_lookup_2. apply list_lookup_insert_eq.
    by eapply lookup_lt_Some.
Qed.

Lemma fill_cells_inv {X : Type} V rights0 (inner : X -> list string)
      (test : X -> string -> bool) (l : list X) st w st' w' :
  cells_inv V rights0 st ->
  Spec.fill_cells self app inner test l st w = (inr st', w') ->
  cells_inv V rights0 st'.
Proof.
  intros Hst. unfold Spec.fill_cells.
  apply (for_each_inv (cells_inv V rights0)); [|exact Hst].
  intros s [idx x] w1 s1 w1' _ Hs.
  apply (for_each_inv (cells_inv V rights0)); [|exact Hs].
  intros [rights c] target_id w2 s2 w2' _ Hs2.
  destruct (test x target_id); [|by intros [= <- _]].
  unfold mbind, M_bind.
  destruct (ItemMatrix.iadd_at rights idx _ w2) as [[e|rights'] w3] eqn:Hi; [done|].
  intros [= <- _]. eapply iadd_at_cells; eassumption.
Qed.

Lemma add_external_targets_inv (V : Prop) rights0 source_item external_relationships
      st w st' w' :
  rights0 <> [] ->
  (V -> forall rel, rel ∈ external_relationships ->
        is_Some (traceability_external_relationship_to_url (config app) !! rel)) ->
  cells_inv V rights0 st ->
  ItemMatrix.add_external_targets app source_item external_relationships st w
  = (inr st', w') ->
  cells_inv V rights0 st'.
Proof.
  intros Hne Hurl Hst. unfold ItemMatrix.add_external_targets.
  apply (for_each_inv (cells_inv V rights0)); [|exact Hst].
  intros s rel w1 s1 w1' Hrel Hs.
  destruct source_item as [source_item|]; [|done].
  apply (for_each_inv (cells_inv V rights0)); [|exact Hs].
  intros [rights c] target_id w2 s2 w2' _ (Hlen & Hent & _ & _).
  intros [= <- _]. unfold cells_inv. cbn [fst snd] in *.
  split; [by rewrite length_map|]. split.
  - apply Forall_map. eapply Forall_impl; [exact Hent|].
    intros right Hright. simpl. by rewrite has_class_iadd.
  - split; [done|]. intros HV _.
    destruct (Hurl HV rel Hrel) as [url Hsome].
    destruct (TraceableBaseNode.make_external_item_ref app target_id rel) as [ref|] eqn:Href.
    2:{ unfold TraceableBaseNode.make_external_item_ref in Href.
        rewrite Hsome in Href. discriminate. }
    destruct rights as [|right rights]; [destruct rights0; [done | discriminate]|].
    simpl. apply Exists_cons_hd. apply children_iadd_entry.
    by apply Forall_cons in Hent as [? _].
Qed.

Lemma empty_rights_inv V : cells_inv V (ItemMatrix.empty_rights self)
                                    (ItemMatrix.empty_rights self, false).
Proof.
  unfold cells_inv. simpl. split; [reflexivity|]. split; [|done].
  apply (empty_rights_ok self false).
Qed.

Lemma empty_rights_ne : ItemMatrix.empty_rights self <> [].
Proof.
  unfold ItemMatrix.empty_rights, ItemMatrix.number_of_columns.
  destruct (Nat.max 2 (length (attr.target self) + 1) - 1) eqn:E; [lia | done].
Qed.

Lemma store_row_inv V rows left rights is_covered :
  rows_inv self V rows ->
  cells_inv V (ItemMatrix.empty_rights self) (rights, is_covered) ->
  rows_inv self V (ItemMatrix._store_row rows left rights is_covered).
Proof.
  intros [Hu Hc] (_ & _ & Hfalse & Htrue). rewrite store_row_row.
  unfold rows_inv. simpl in *. destruct is_covered.
  - split; [exact Hu|]. intros HV. apply Forall_app. split; [by apply Hc|].
    apply Forall_singleton. exists left, rights. split; [reflexivity | by apply Htrue].
  - split; [|exact Hc]. apply Forall_app. split; [exact Hu|].
    apply Forall_singleton. exists left. by rewrite Hfalse.
Qed.

Lemma build_rows_inv collection w rows w' :
  let V := forall rel, rel ∈ Spec.external_relationships self collection ->
             is_Some (traceability_external_relationship_to_url (config app) !! rel) in
  ItemMatrix.build_rows self app collection w = (inr rows, w') ->
  rows_inv self V rows.
Proof.
  intros V. unfold ItemMatrix.build_rows.
  assert (Hexts : Spec.external_relationships self collection
                  = snd (ItemMatrix.select_relationships self collection)) by reflexivity.
  destruct (ItemMatrix.select_relationships self collection) as [rels exts].
  simpl in Hexts. unfold mbind, M_bind.
  destruct (for_each _ _ _ w) as [[e|rows1] w1] eqn:Hfirst; [done|].
  intros Hsecond.
  assert (H1 : rows_inv self V rows1).
  { revert Hfirst. apply (for_each_inv (rows_inv self V)).
    - intros rows0 source_id w2 rows2 w2' _ Hrows0. unfold ItemMatrix.source_row.
      unfold mbind, M_bind.
      destruct (TraceableBaseNode.make_internal_item_ref _ _ _ _ w2) as [[e|ref] w3]; [done|].
      destruct (ItemMatrix.add_external_targets _ _ _ _ w3) as [[e|st] w4] eqn:Hext; [done|].
      destruct (ItemMatrix.add_internal_targets _ _ _ _ _ _ _ w4)
        as [[e|[rights c]] w5] eqn:Hint; [done|].
      intros [= <- _]. apply store_row_inv; [exact Hrows0|].
      eapply (fill_cells_inv V _ (fun target_ids => target_ids)
                (fun _ target_id =>
                   TraceableCollection.are_related collection source_id rels target_id));
        [|exact Hint].
      eapply add_external_targets_inv; [apply empty_rights_ne | | apply empty_rights_inv |
                                        exact Hext].
      intros HV rel Hrel. apply HV. by rewrite Hexts.
    - split; [constructor | intros _; constructor]. }
  revert Hsecond. apply (for_each_inv (rows_inv self V)); [|exact H1].
  intros rows0 [ext_rel targets] w2 rows2 w2' _ Hrows0.
  apply (for_each_inv (rows_inv self V)); [|exact Hrows0].
  intros rows3 [ext_source item_ids] w3 rows4 w3' _ Hrows3.
  unfold ItemMatrix.external_row, mbind, M_bind.
  destruct (ItemMatrix.add_matching_targets _ _ _ _ w3) as [[e|[rights c]] w4] eqn:Hm; [done|].
  intros [= <- _]. apply store_row_inv; [exact Hrows3|].
  eapply (fill_cells_inv V _ (fun _ => item_ids) (fun target_regex => re_match target_regex));
    [apply empty_rights_inv | exact Hm].
Qed.

End Visible.

Section Shown.
Context `{Host}.

(** X11.  In the rows [perform_replacement] builds, an uncovered row shows
    no target: its cells right of the first one are the empty entries the
    row started with. *)
Theorem uncovered_rows_are_empty self app collection w rows w' :
  ItemMatrix.build_rows self app collection w = (inr rows, w') ->
  Forall (fun row => exists left, row = Spec.row_of left (ItemMatrix.empty_rights self))
         (ItemMatrix.uncovered rows).
Proof. intros Hrows. by destruct (build_rows_inv self app collection w rows w' Hrows). Qed.

(** X12.  When every external relationship of the matrix has a url
    configured, a covered row shows what covers it: one of its cells right
    of the first one holds a child. *)
Theorem covered_rows_show_a_target self app collection w rows w' :
  (forall rel,
      rel ∈ Spec.external_relationships self collection ->
      is_Some (traceability_external_relationship_to_url (config app) !! rel)) ->
  ItemMatrix.build_rows self app collection w = (inr rows, w') ->
  Forall (fun row => exists left rights,
              row = Spec.row_of left rights /\
              Exists (fun right => nodes.children right <> []) rights)
         (ItemMatrix.covered rows).
Proof.
  intros Hurl Hrows.
  destruct (build_rows_inv self app collection w rows w' Hrows) as [_ Hc]. by apply Hc.
Qed.

End Shown.

(** ** A matrix without rows *)

Section Empty.
Context `{Host}.

Lemma build_rows_empty self app collection w :
  Spec.row_sources self collection = [] ->
  ItemMatrix.build_rows self app collection w
  = (inr {| ItemMatrix.sorted := []; ItemMatrix.covered := []; ItemMatrix.uncovered := [] |},
     w).
Proof.
  unfold Spec.row_sources, Spec.external_sources, Spec.external_relationships,
    Spec.source_ids, ItemMatrix.build_rows.
  intros Hnil. apply app_eq_nil in Hnil as [Hsrc Hext].
  apply map_eq_nil in Hsrc. rewrite Hsrc.
  destruct (ItemMatrix.select_relationships self collection) as [rels exts].
  simpl in Hext. simpl.
  generalize dependent (ItemMatrix.ext_relations_to_target_map self collection exts).
  intros ext_map. generalize {| ItemMatrix.sorted := []; ItemMatrix.covered := [];
                                ItemMatrix.uncovered := [] |}.
  induction ext_map as [|[ext_rel targets] ext_map IH]; intros rows Hext; [reflexivity|].
  rewrite bind_cons in Hext. apply app_eq_nil in Hext as [Htargets Hext].
  assert (targets = []) as ->.
  { destruct targets as [|[ext_source item_ids] targets]; [reflexivity | discriminate]. }
  simpl. by apply IH.
Qed.

Lemma ready_without_rows self app collection :
  Spec.row_sources self collection = [] -> Spec.ready self app collection.
Proof.
  intros Hnil. pose proof Hnil as Hboth. unfold Spec.row_sources in Hboth.
  apply app_eq_nil in Hboth as [Hsrc Hext]. apply map_eq_nil in Hsrc.
  split.
  - intros source_id Hin. rewrite Hsrc in Hin. by apply elem_of_nil in Hin.
  - intros _ source_id Hin. rewrite Hsrc in Hin. by apply elem_of_nil in Hin.
  - intros source_id target_regex target_id Hin. rewrite Hsrc in Hin.
    by apply elem_of_nil in Hin.
  - intros ext_rel ext_source item_ids target_regex target_id Hin. rewrite Hext in Hin.
    by apply elem_of_nil in Hin.
  - rewrite Hnil. simpl. lia.
Qed.

(** X13.  A matrix for which the collection yields no source item and no
    external target is replaced without an exception and without a
    warning: the table body is empty, and the statistics line, when asked
    for, reads 0 out of 0 with the percentage 0 that the handler of the
    division by zero sets. *)
Theorem matrix_without_rows self app collection w :
  Spec.row_sources self collection = [] ->
  exists top,
    ItemMatrix.perform_replacement self app collection w
    = (inr tt, World (warnings w) (replaced w ++ [top])) /\
    body_rows top = [] /\
    children_of_class nodes.paragraph top
    = if attr.stats self
      then [nodes.element nodes.paragraph "" [Text "Statistics: 0 out of 0 covered: 0%"] []]
      else [].
Proof.
  intros Hnil.
  destruct (perform_replacement_returns self app collection w
              (ready_without_rows self app collection Hnil))
    as (rows & w' & [Hrows _] & _ & Hrun).
  rewrite (build_rows_empty self app collection w Hnil) in Hrows.
  injection Hrows as <- <-.
  eexists. split; [exact Hrun|]. split.
  - rewrite body_rows_emitted. unfold Spec.body. simpl. repeat case_match; reflexivity.
  - rewrite paragraphs_emitted. reflexivity.
Qed.

End Empty.

(** ** Url templates without a placeholder *)

Section Templates.
Context `{Host}.

Lemma startswith_append (p x s : string) :
  Str.startswith (p +:+ x) s = true -> Str.startswith p s = true.
Proof.
  revert s. induction p as [|a p IH]; intros s.
  - intros _. by destruct s.
  - change (String a p +:+ x) with (String a (p +:+ x)).
    destruct s as [|b s]; simpl; [done|].
    destruct (Ascii.eqb a b); [apply IH | done].
Qed.

Lemma occurs_append (p x s : string) :
  occurs p s = false -> occurs (p +:+ x) s = false.
Proof.
  induction s as [|c s IH]; simpl; intros Hp.
  - apply orb_false_iff in Hp as [Hp _].
    destruct (Str.startswith (p +:+ x) "") eqn:E; [|reflexivity].
    apply startswith_append in E. congruence.
  - apply orb_false_iff in Hp as [Hp Hs]. rewrite (IH Hs), orb_false_r.
    destruct (Str.startswith (p +:+ x) (String c s)) eqn:E; [|reflexivity].
    apply startswith_append in E. congruence.
Qed.

Lemma replace_absent (old new s : string) :
  occurs old s = false -> Str.replace old new s = s.
Proof.
  unfold Str.replace. induction s as [|c s IH]; simpl; [reflexivity|].
  intros Ho. apply orb_false_iff in Ho as [Hc Hs].
  simpl in Hc. rewrite Hc. by rewrite IH.
Qed.

Lemma substitute_fields_absent (url : string) (tgt_strs : list string) :
  occurs TraceableBaseNode.EXTERNAL_LINK_FIELDNAME url = false ->
  TraceableBaseNode.substitute_fields url tgt_strs = url.
Proof.
  intros Ho. unfold TraceableBaseNode.substitute_fields.
  generalize 0. induction tgt_strs as [|t l IH]; intros cnt; simpl; [reflexivity|].
  rewrite replace_absent by (by apply occurs_append). apply IH.
Qed.

(** X14.  A url configured for an external relationship in which the text
    [field] does not occur is the link of every target of that
    relationship, unchanged. *)
Theorem url_without_placeholder app target_text relationship url :
  traceability_external_relationship_to_url (config app) !! relationship = Some url ->
  occurs "field" url = false ->
  exists target link,
    TraceableBaseNode.make_external_item_ref app target_text relationship
    = Some (nodes.element nodes.paragraph "" [target; link] []) /\
    has_class nodes.reference link = true /\
    nodes.children link = [Text target_text] /\
    nodes.get link "refuri" = Some (AStr url).
Proof.
  intros Hurl Ho. unfold TraceableBaseNode.make_external_item_ref. rewrite Hurl.
  rewrite (substitute_fields_absent url _ Ho).
  eexists _, _. split; [reflexivity|]. split; [reflexivity|]. split; [reflexivity|].
  cbn. by rewrite lookup_insert_eq.
Qed.

End Templates.

(** ** Top level items *)

Section TopLevel.
Context `{Host}.

(** X15.  [is_item_top_level] on a known item raises nothing and is true
    exactly when no target of the item under a relation of the filter
    matches the [top] regex.  On an unknown item it raises an
    [AttributeError] when the filter holds a relation, and is true when the
    filter is empty. *)
Theorem is_item_top_level_iff top_relation_filter top collection item_id :
  match TraceableCollection.get_item collection item_id with
  | Some item =>
      exists b,
        TraceableBaseNode.is_item_top_level top_relation_filter top collection item_id
        = inr b /\
        (b = true <->
         forall relation tgt,
           relation ∈ top_relation_filter ->
           tgt ∈ TraceableItem.iter_targets item relation ->
           re_match top tgt = false)
  | None =>
      TraceableBaseNode.is_item_top_level top_relation_filter top collection item_id
      = match top_relation_filter with
        | [] => inr true
        | _ :: _ => inl (AttributeError "iter_targets")
        end
  end.
Proof.
  destruct (TraceableCollection.get_item collection item_id) as [item|] eqn:Hitem.
  - induction top_relation_filter as [|relation rest IH]; simpl.
    + exists true. split; [reflexivity|]. split; [|reflexivity].
      intros _ relation tgt Hin. by apply elem_of_nil in Hin.
    + rewrite Hitem.
      destruct (existsb (re_match top) (TraceableItem.iter_targets item relation)) eqn:Hex.
      * exists false. split; [reflexivity|]. split; [done|]. intros Hall.
        apply existsb_exists in Hex as (tgt & Hin & Hm).
        rewrite (Hall relation tgt) in Hm; [done | left | by apply list_elem_of_In].
      * destruct IH as (b & -> & Hb). exists b. split; [reflexivity|].
        rewrite Hb. split.
        -- intros Hall relation' tgt Hrel Htgt.
           apply elem_of_cons in Hrel as [->|Hrel]; [|by eapply Hall].
           apply list_elem_of_In in Htgt.
           destruct (re_match top tgt) eqn:Hm; [|reflexivity].
           assert (existsb (re_match top) (TraceableItem.iter_targets item relation) = true)
             by (apply existsb_exists; eauto).
           congruence.
        -- intros Hall relation' tgt Hrel. apply Hall. by right.
  - destruct top_relation_filter; simpl; [reflexivity|]. by rewrite Hitem.
Qed.

End TopLevel.

(** ** References to attributes *)

Section Attributes.
Context `{Host}.

(** X16.  [make_attribute_ref] returns a paragraph with one child and never
    raises.  For an attribute that is not defined the child is the text of
    the attribute id, followed by ": <value>" for a non-empty value; for a
    defined attribute without a document it is the same text with the name
    of the attribute.  For an attribute defined in a document the child is
    a reference that always carries the document as [refdocname], and as
    [refuri] the relative uri of that document with the attribute name as
    anchor, or no [refuri] when the builder raises [NoUri]. *)
Theorem attribute_reference defined_attributes self app attr_id value :
  let shown := if String.eqb value "" then "" else ": " +:+ value in
  exists child,
    TraceableBaseNode.make_attribute_ref defined_attributes self app attr_id value
    = nodes.element nodes.paragraph "" [child] [] /\
    match defined_attributes !! attr_id with
    | None => child = Text (attr_id +:+ shown)
    | Some attr_info =>
        let attr_name := TraceableAttribute.get_name attr_info in
        match TraceableAttribute.docname attr_info with
        | Some (String a d) =>
            has_class nodes.reference child = true /\
            nodes.get child "refdocname" = Some (AStr (String a d)) /\
            nodes.get child "refuri"
            = (uri ← get_relative_uri (builder app) (attr.document self) (String a d);
               Some (AStr (uri +:+ "#" +:+ attr_name))) /\
            nodes.children child
            = [nodes.text_element nodes.emphasis (attr_name +:+ shown) (attr_name +:+ shown)
                 [] []]
        | _ => child = Text (attr_name +:+ shown)
        end
    end.
Proof.
  cbv zeta. unfold TraceableBaseNode.make_attribute_ref. cbv zeta.
  destruct (String.eqb value "") eqn:Hv.
  - apply String.eqb_eq in Hv. subst value.
    destruct (defined_attributes !! attr_id) as [attr_info|]; [|eexists; split; reflexivity].
    destruct (TraceableAttribute.docname attr_info) as [[|a d]|];
      try (eexists; split; reflexivity).
    destruct (get_relative_uri _ _ _) as [uri|];
      (eexists; split; [reflexivity|]; split; [reflexivity|];
       split; [cbn; by rewrite ?lookup_insert_ne, lookup_insert_eq by done|];
       split; [cbn; by rewrite ?lookup_insert_eq|reflexivity]).
  - destruct (defined_attributes !! attr_id) as [attr_info|]; [|eexists; split; reflexivity].
    destruct (TraceableAttribute.docname attr_info) as [[|a d]|];
      try (eexists; split; reflexivity).
    destruct (get_relative_uri _ _ _) as [uri|];
      (eexists; split; [reflexivity|]; split; [reflexivity|];
       split; [cbn; by rewrite ?lookup_insert_ne, lookup_insert_eq by done|];
       split; [cbn; by rewrite ?lookup_insert_eq|reflexivity]).
Qed.

End Attributes.

(** ** The contents of the cells *)

Lemma extend_extend (n : node) (l1 l2 : list node) :
  nodes.extend (nodes.extend n l1) l2 = nodes.extend n (l1 ++ l2).
Proof. destruct n; simpl; [reflexivity|]. by rewrite app_assoc. Qed.

Lemma extend_nil (n : node) : nodes.extend n [] = n.
Proof. destruct n; simpl; [reflexivity|]. by rewrite app_nil_r. Qed.

Lemma append_is_extend (n x : node) : nodes.append n x = nodes.extend n [x].
Proof. by destruct n. Qed.

Lemma iadd_extend (n : node) (o : option node) :
  nodes.iadd n o = nodes.extend n (option_list o).
Proof. destruct o; simpl; [by destruct n | by rewrite extend_nil]. Qed.

(** A loop that returns has taken an invariant of the elements processed
    from the empty list to the whole list. *)
Lemma for_each_prefix {A S : Type} (I : list A -> S -> Prop) (body : S -> A -> M S)
      (full : list A) :
  (forall pre x post s w s' w',
      full = pre ++ x :: post -> I pre s -> body s x w = (inr s', w') -> I (pre ++ [x]) s') ->
  forall l done s w s' w',
    full = done ++ l -> I done s -> for_each l body s w = (inr s', w') -> I full s'.
Proof.
  intros Hbody. induction l as [|x l IH]; intros done s w s' w' Hfull HI; simpl.
  - intros [= <- _]. by rewrite Hfull, app_nil_r.
  - unfold mbind, M_bind. destruct (body s x w) as [[e|s1] w1] eqn:Hb; [done|].
    apply (IH (done ++ [x])).
    + by rewrite <- app_assoc.
    + eapply Hbody; [exact Hfull | exact HI | exact Hb].
Qed.

Lemma enumerate_lookup_Some {A : Type} (l : list A) (k i : nat) (x : A) :
  enumerate l !! k = Some (i, x) -> i = k /\ l !! k = Some x.
Proof.
  unfold enumerate. intros Hk.
  assert (Hgen : forall (start : nat) (l : list A) k,
             combine (seq start (length l)) l !! k = Some (i, x) ->
             i = start + k /\ l !! k = Some x).
  { clear. intros start l. revert start.
    induction l as [|y l IH]; intros start k; simpl; [done|].
    destruct k as [|k]; simpl.
    - intros [= <- <-]. split; [lia | reflexivity].
    - intros Hk. apply IH in Hk as [-> Hk]. split; [lia | exact Hk]. }
  by apply Hgen in Hk.
Qed.

Section CellContents.
Context `{Host}.

(** Lines 87-91 and 100-104: when the loops return, every cell has been
    extended by one reference for each id of its column that passes the
    test, in order. *)
Lemma fill_cells_contents {X : Type} self app (inner : X -> list string)
      (test : X -> string -> bool) (l : list X) rights is_covered w rights' is_covered' w' :
  Spec.fill_cells self app inner test l (rights, is_covered) w
  = (inr (rights', is_covered'), w') ->
  length rights' = length rights /\
  forall idx right,
    rights !! idx = Some right ->
    exists refs,
      rights' !! idx = Some (nodes.extend right refs) /\
      Forall2 (links_to self app) (column_ids inner test l idx) refs.
Proof.
  set (I := fun (ids : nat -> list string) (st : list node * bool) =>
              length (fst st) = length rights /\
              forall idx right,
                rights !! idx = Some right ->
                exists refs,
                  fst st !! idx = Some (nodes.extend right refs) /\
                  Forall2 (links_to self app) (ids idx) refs).
  intros Hrun.
  assert (Hout : I (column_ids inner test (map snd (enumerate l))) (rights', is_covered')).
  { unfold Spec.fill_cells in Hrun.
    revert Hrun.
    apply (for_each_prefix
             (fun pre st => I (column_ids inner test (map snd pre)) st)
             _ (enumerate l)) with (done := []); [|reflexivity|].
    2:{ split; [reflexivity|]. intros idx right Hr. exists [].
        split; [by rewrite extend_nil|].
        unfold column_ids. simpl. constructor. }
    intros pre [i x] post st w1 st1 w1' Hfull Hpre.
    assert (Hi : i = length pre).
    { assert (Hk : enumerate l !! length pre = Some (i, x)).
      { rewrite Hfull. rewrite lookup_app_r by lia. by rewrite Nat.sub_diag. }
      by apply enumerate_lookup_Some in Hk as [-> _]. }
    subst i.
    set (J := fun (ids_done : list string) (st : list node * bool) =>
                I (fun idx =>
                     column_ids inner test (map snd pre) idx
                       ++ if decide (idx = length pre)
                          then filter (fun target_id => test x target_id = true) ids_done
                          else []) st).
    intros Hinner.
    assert (HJ : J (inner x) st1).
    { revert Hinner.
      apply (for_each_prefix J _ (inner x)) with (done := []); [|reflexivity|].
      2:{ destruct Hpre as [Hlen Hcells]. split; [exact Hlen|].
          intros idx right Hr. destruct (Hcells idx right Hr) as (refs & Hidx & Hrefs).
          exists refs. split; [exact Hidx|].
          destruct (decide (idx = length pre)); by rewrite app_nil_r. }
      intros ids_done target_id ids_post [rights1 c1] w2 st2 w2' _ [Hlen Hcells].
      simpl in Hlen, Hcells.
      destruct (test x target_id) eqn:Htest.
      - unfold ItemMatrix.iadd_at.
        destruct (rights1 !! length pre) as [r|] eqn:Hr;
          unfold mbind, M_bind, raise, mret, M_ret; [|done].
        destruct (TraceableBaseNode.make_internal_item_ref self app target_id true w2)
          as [[e|ref] w3] eqn:Href; [done|].
        intros [= <- _]. split; [simpl; by rewrite length_insert|].
        intros idx right Hright. simpl.
        destruct (Hcells idx right Hright) as (refs & Hidx & Hrefs).
        destruct (decide (idx = length pre)) as [->|Hne].
        + exists (refs ++ [ref]). split.
          * rewrite list_lookup_insert_eq by (by eapply lookup_lt_Some).
            rewrite Hr in Hidx. injection Hidx as ->.
            by rewrite ?iadd_extend, ?append_is_extend, extend_extend.
          * rewrite filter_app, filter_cons_True by done. rewrite filter_nil.
            rewrite app_assoc. apply Forall2_app; [exact Hrefs|].
            constructor; [by eexists _, _ | constructor].
        + exists refs. split; [by rewrite list_lookup_insert_ne|].
          by rewrite app_nil_r in *.
      - intros [= <- _]. split; [exact Hlen|].
        intros idx right Hright. simpl.
        destruct (Hcells idx right Hright) as (refs & Hidx & Hrefs).
        exists refs. split; [exact Hidx|].
        destruct (decide (idx = length pre)); [|exact Hrefs].
        rewrite filter_app, filter_cons_False by (by rewrite Htest).
        by rewrite filter_nil, app_nil_r. }
    destruct HJ as [Hlen Hcells]. split; [exact Hlen|].
    intros idx right Hright.
    destruct (Hcells idx right Hright) as (refs & Hidx & Hrefs).
    exists refs. split; [exact Hidx|].
    rewrite map_app. simpl. unfold column_ids in *.
    destruct (decide (idx = length pre)) as [->|Hne].
    - rewrite lookup_app_r by (by rewrite length_map).
      rewrite length_map, Nat.sub_diag. simpl.
      rewrite lookup_ge_None_2 in Hrefs by (by rewrite length_map). exact Hrefs.
    - rewrite app_nil_r in Hrefs.
      destruct (decide (idx < length pre)) as [Hlt|Hge].
      + rewrite lookup_app_l by (by rewrite length_map). exact Hrefs.
      + rewrite lookup_ge_None_2 by (rewrite length_app, length_map; simpl; lia).
        rewrite lookup_ge_None_2 in Hrefs by (rewrite length_map; lia). exact Hrefs. }
  rewrite enumerate_snd in Hout. exact Hout.
Qed.

End CellContents.

Section Columns.
Context `{Host}.

(** X17.  Lines 87-91.  When the loop over the target columns returns, the
    cell of column [idx] has been extended by one reference for each id of
    [targets_with_ids[idx]] that is related to the source, in the order of
    the ids; a cell without a target column is unchanged, and no cell is
    added or removed. *)
Theorem internal_targets_fill_their_column self app collection source_id relationships
        targets_with_ids rights is_covered w rights' is_covered' w' :
  ItemMatrix.add_internal_targets self app collection source_id relationships
    targets_with_ids (rights, is_covered) w
  = (inr (rights', is_covered'), w') ->
  length rights' = length rights /\
  forall idx right,
    rights !! idx = Some right ->
    exists refs,
      rights' !! idx = Some (nodes.extend right refs) /\
      Forall2 (links_to self app)
        (filter (fun target_id =>
                   TraceableCollection.are_related collection source_id relationships
                     target_id = true)
                (default [] (targets_with_ids !! idx)))
        refs.
Proof.
  intros Hrun.
  destruct (fill_cells_contents self app (fun target_ids => target_ids)
              (fun _ target_id =>
                 TraceableCollection.are_related collection source_id relationships target_id)
              targets_with_ids rights is_covered w rights' is_covered' w' Hrun)
    as [Hlen Hcells].
  split; [exact Hlen|]. intros idx right Hright.
  destruct (Hcells idx right Hright) as (refs & Hidx & Hrefs).
  exists refs. split; [exact Hidx|].
  unfold column_ids in Hrefs. by destruct (targets_with_ids !! idx).
Qed.

(** X18.  Lines 100-104.  When the loop over the target regexes returns for
    an external source, the cell of column [idx] has been extended by one
    reference for each item id of the source that the regex [target[idx]]
    matches, in the order of the ids. *)
Theorem matching_targets_fill_their_column self app item_ids rights is_covered w
        rights' is_covered' w' :
  ItemMatrix.add_matching_targets self app item_ids (rights, is_covered) w
  = (inr (rights', is_covered'), w') ->
  length rights' = length rights /\
  forall idx right,
    rights !! idx = Some right ->
    exists refs,
      rights' !! idx = Some (nodes.extend right refs) /\
      Forall2 (links_to self app)
        match attr.target self !! idx with
        | Some target_regex =>
            filter (fun target_id => re_match target_regex target_id = true) item_ids
        | None => []
        end
        refs.
Proof.
  intros Hrun.
  exact (fill_cells_contents self app (fun _ => item_ids)
           (fun target_regex => re_match target_regex)
           (attr.target self) rights is_covered w rights' is_covered' w' Hrun).
Qed.

Lemma map_extend_extend (rights : list node) (l1 l2 : list node) :
  map (fun right => nodes.extend right l2) (map (fun right => nodes.extend right l1) rights)
  = map (fun right => nodes.extend right (l1 ++ l2)) rights.
Proof.
  rewrite map_map. apply map_ext. intros right. apply extend_extend.
Qed.

Lemma map_extend_nil (rights : list node) :
  map (fun right => nodes.extend right []) rights = rights.
Proof.
  rewrite <- (map_id rights) at 2. apply map_ext. intros right. apply extend_nil.
Qed.

(** X19.  Lines 81-86.  The loop over the external relationships of a known
    source item raises nothing and reports nothing.  It appends to every
    cell of the row the references to all external targets of the item, in
    the order of the relationships and their targets, leaving out the
    targets of a relationship without a configured url; it sets the flag
    when the item has an external target, with or without url. *)
Theorem external_targets_fill_every_cell app source_item external_relationships
        rights is_covered w :
  let targets := external_targets_of source_item external_relationships in
  let refs :=
    omap (fun '(ext_relationship, target_id) =>
            TraceableBaseNode.make_external_item_ref app target_id ext_relationship)
         targets in
  ItemMatrix.add_external_targets app (Some source_item) external_relationships
    (rights, is_covered) w
  = (inr (map (fun right => nodes.extend right refs) rights,
          is_covered || bool_decide (targets <> [])),
     w).
Proof.
  cbv zeta. unfold ItemMatrix.add_external_targets, external_targets_of.
  revert rights is_covered.
  induction external_relationships as [|rel rels IH]; intros rights is_covered.
  - simpl. unfold mret, M_ret. by rewrite orb_false_r, map_extend_nil.
  - simpl for_each. rewrite bind_cons.
    assert (Hinner : forall targets rights is_covered,
               for_each targets
                 (fun '(rights, _) target_id =>
                    mret (map (fun right =>
                                 nodes.iadd right
                                   (TraceableBaseNode.make_external_item_ref app target_id rel))
                              rights, true))
                 (rights, is_covered) w
               = (inr (map (fun right =>
                              nodes.extend right
                                (omap (fun '(ext_relationship, target_id) =>
                                         TraceableBaseNode.make_external_item_ref app
                                           target_id ext_relationship)
                                      (target_id ← targets; [(rel, target_id)])))
                           rights,
                       is_covered || bool_decide (targets <> [])),
                  w)).
    { clear. induction targets as [|t ts IHt]; intros rights is_covered.
      - simpl. unfold mret, M_ret. by rewrite orb_false_r, map_extend_nil.
      - simpl for_each. unfold mbind at 1, M_bind, mret at 1, M_ret.
        rewrite IHt. f_equal. f_equal. f_equal.
        + rewrite bind_cons. simpl.
          rewrite map_map. apply map_ext. intros right.
          rewrite iadd_extend, extend_extend. f_equal.
          by destruct (TraceableBaseNode.make_external_item_ref app t rel).
        + rewrite (bool_decide_true (t :: ts <> [])) by done.
          by rewrite orb_true_r. }
    unfold mbind at 1, M_bind. rewrite Hinner. rewrite IH.
    f_equal. f_equal. f_equal.
    + rewrite map_extend_extend. apply map_ext. intros right. f_equal.
      by rewrite omap_app.
    + rewrite <- orb_assoc. f_equal.
      destruct (TraceableItem.iter_targets source_item rel) as [|t ts]; simpl.
      * reflexivity.
      * reflexivity.
Qed.

End Columns.

(** ** Runs without warnings *)

Lemma unchanged_refl (w : world) : unchanged w w.
Proof. reflexivity. Qed.

Lemma unchanged_trans (w1 w2 w3 : world) :
  unchanged w1 w2 -> unchanged w2 w3 -> unchanged w1 w3.
Proof. unfold unchanged. congruence. Qed.

Section Quiet.
Context `{Host}.
Variables (self : attr.t) (app : App).

Local Ltac quiet_step :=
  first [ apply (steps_ret unchanged_refl)
        | apply (steps_raise unchanged_refl)
        | apply (steps_lift unchanged_refl)
        | apply (steps_bind unchanged_trans)
        | apply (steps_for_each unchanged_refl unchanged_trans)
        | apply (steps_try_except unchanged_trans) ].

Lemma make_internal_item_ref_unchanged item_id show_caption :
  defined app item_id ->
  steps unchanged (TraceableBaseNode.make_internal_item_ref self app item_id show_caption).
Proof.
  intros (item & Hitem & Hph) w.
  destruct (item_ref_outcome self app item_id show_caption w)
    as [[Hnone ->]|[(item_info & Hitem' & Hph' & Hnot & ->)|
                   [(Hsome & Hnb & Hm & ->)|(Hsome & Hnb & Hm & ref & _ & ->)]]];
    try reflexivity.
  congruence.
Qed.

Lemma fill_cells_unchanged {X : Type} (inner : X -> list string)
      (test : X -> string -> bool) (l : list X) st :
  (forall x target_id, x ∈ l -> target_id ∈ inner x -> test x target_id = true ->
                       defined app target_id) ->
  steps unchanged (Spec.fill_cells self app inner test l st).
Proof.
  intros Hdef. unfold Spec.fill_cells. quiet_step. intros st' [idx x] Hx.
  apply enumerate_lookup in Hx as [_ Hx].
  quiet_step. intros [rights c] target_id Hid.
  destruct (test x target_id) eqn:Htest; [|quiet_step].
  quiet_step; [|intros r; quiet_step].
  unfold ItemMatrix.iadd_at. destruct (rights !! idx); [|quiet_step].
  quiet_step; [|intros ref; quiet_step].
  apply make_internal_item_ref_unchanged. by eapply Hdef.
Qed.

Lemma add_external_targets_unchanged source_item external_relationships st :
  steps unchanged
    (ItemMatrix.add_external_targets app source_item external_relationships st).
Proof.
  unfold ItemMatrix.add_external_targets. quiet_step. intros st' rel _.
  destruct source_item; [|quiet_step].
  quiet_step. intros [rights c] target_id _. quiet_step.
Qed.

(** The rows are built without a warning when every item linked to is
    defined. *)
Lemma build_rows_unchanged collection :
  (forall source_id, source_id ∈ Spec.source_ids self collection -> defined app source_id) ->
  (forall source_id target_regex target_id,
      source_id ∈ Spec.source_ids self collection ->
      target_regex ∈ attr.target self ->
      target_id ∈ TraceableCollection.get_items collection target_regex None ->
      TraceableCollection.are_related collection source_id
        (Spec.relationships self collection) target_id = true ->
      defined app target_id) ->
  (forall ext_rel ext_source item_ids target_regex target_id,
      Spec.External ext_rel ext_source item_ids ∈ Spec.external_sources self collection ->
      target_regex ∈ attr.target self ->
      target_id ∈ item_ids ->
      re_match target_regex target_id = true ->
      defined app target_id) ->
  steps unchanged (ItemMatrix.build_rows self app collection).
Proof.
  unfold Spec.source_ids, Spec.relationships, Spec.external_sources,
    Spec.external_relationships, ItemMatrix.build_rows.
  destruct (ItemMatrix.select_relationships self collection) as [rels exts].
  cbn [fst snd]. intros Hsrc Htgt Hext.
  quiet_step.
  - quiet_step. intros rows source_id Hsource. unfold ItemMatrix.source_row.
    quiet_step; [by apply make_internal_item_ref_unchanged, Hsrc|]. intros ref.
    quiet_step; [apply add_external_targets_unchanged|]. intros st.
    quiet_step; [|intros [rights c]; quiet_step].
    apply (fill_cells_unchanged (fun target_ids => target_ids)
             (fun _ target_id =>
                TraceableCollection.are_related collection source_id rels target_id)).
    intros target_ids target_id Hids Hid Hrel.
    apply list_elem_of_fmap in Hids as (target_regex & -> & Hregex).
    by eapply Htgt.
  - intros rows. quiet_step. intros rows' [ext_rel targets] Hrel.
    quiet_step. intros rows'' [ext_source item_ids] Hsource. unfold ItemMatrix.external_row.
    quiet_step; [|intros [rights c]; quiet_step].
    apply (fill_cells_unchanged (fun _ => item_ids)
             (fun target_regex => re_match target_regex)).
    intros target_regex target_id Hregex Hid Hmatch.
    eapply Hext; [|exact Hregex | exact Hid | exact Hmatch].
    apply list_elem_of_bind. exists (ext_rel, targets). split; [|exact Hrel].
    apply list_elem_of_bind. exists (ext_source, item_ids). split; [|exact Hsource].
    by left.
Qed.

End Quiet.

(** ** Runs on the example *)

Section Runs.
Import Example.

Lemma example_defined item_id :
  item_id ∈ ["REQ-1"; "REQ-2"; "TEST-1"] -> defined app item_id.
Proof.
  intros Hin.
  repeat (apply elem_of_cons in Hin as [->|Hin]); [| | |by apply elem_of_nil in Hin].
  all: eexists; split; reflexivity.
Qed.

Lemma example_unchanged :
  steps unchanged (ItemMatrix.build_rows matrix_ext app collection).
Proof.
  apply build_rows_unchanged.
  - intros source_id Hin. apply example_defined. vm_compute in Hin.
    repeat (apply elem_of_cons in Hin as [->|Hin]); try (by apply elem_of_nil in Hin);
      rewrite !elem_of_cons; auto.
  - intros source_id target_regex target_id _ Hregex Hin _. apply example_defined.
    vm_compute in Hregex.
    repeat (apply elem_of_cons in Hregex as [->|Hregex]);
      try (by apply elem_of_nil in Hregex).
    vm_compute in Hin.
    repeat (apply elem_of_cons in Hin as [->|Hin]); try (by apply elem_of_nil in Hin);
      rewrite !elem_of_cons; auto.
  - intros ext_rel ext_source item_ids target_regex target_id Hin Hregex Hid Hmatch.
    vm_compute in Hin.
    apply elem_of_cons in Hin as [Heq|Hin]; [|by apply elem_of_nil in Hin].
    injection Heq as -> -> ->. apply example_defined.
    apply list_elem_of_singleton in Hid as ->. rewrite !elem_of_cons. auto.
Qed.

(** Without rows the division by zero is caught and the percentage is 0. *)
Lemma statistics_no_rows :
  ItemMatrix.statistics
    {| ItemMatrix.sorted := []; ItemMatrix.covered := []; ItemMatrix.uncovered := [] |} w0
  = (inr "Statistics: 0 out of 0 covered: 0%", w0).
Proof. reflexivity. Qed.

(** The run on the example: three rows, one of them covered, the uncovered
    ones first, and the statistics line of one row out of three. *)
Lemma example_run :
  exists top rows,
    ItemMatrix.perform_replacement matrix_ext app collection w0
    = (inr tt, World [] [top]) /\
    ItemMatrix.build_rows matrix_ext app collection w0 = (inr rows, w0) /\
    length (ItemMatrix.covered rows) = 1 /\
    length (ItemMatrix.uncovered rows) = 2 /\
    body_rows top = ItemMatrix.uncovered rows ++ ItemMatrix.covered rows /\
    length (table_colspecs top) = 2 /\
    children_of_class nodes.paragraph top
    = [nodes.element nodes.paragraph "" [Text "Statistics: 1 out of 3 covered: 33%"] []].
Proof.
  destruct (perform_replacement_returns matrix_ext app collection w0)
    as (rows & w' & [Hrows _] & Hbuilt & Hrun); [apply example_ready; by right|].
  assert (Hw : w' = w0).
  { pose proof (example_unchanged w0) as Hu. rewrite Hrows in Hu. exact Hu. }
  subst w'.
  destruct Hbuilt as (built & Hall & (Hs & Hc & Hu) & _).
  assert (Hsrcs : Spec.row_sources matrix_ext collection
                  = [Spec.Internal "REQ-1"; Spec.Internal "REQ-2";
                     Spec.External "ext_jira" "PROJ:42" ["REQ-1"]])
    by (vm_compute; reflexivity).
  rewrite Hsrcs in Hall.
  apply Forall2_cons_inv_l in Hall as (b1 & built1 & (l1 & r1 & _ & _ & _ & _ & Hb1) & Hall & ->).
  apply Forall2_cons_inv_l in Hall as (b2 & built2 & (l2 & r2 & _ & _ & _ & _ & Hb2) & Hall & ->).
  apply Forall2_cons_inv_l in Hall as (b3 & built3 & (l3 & r3 & _ & _ & _ & _ & Hb3) & Hall & ->).
  apply Forall2_nil_inv_l in Hall as ->.
  assert (Hf1 : snd b1 = true) by (rewrite Hb1; vm_compute; reflexivity).
  assert (Hf2 : snd b2 = false) by (rewrite Hb2; vm_compute; reflexivity).
  assert (Hf3 : snd b3 = false) by (rewrite Hb3; vm_compute; reflexivity).
  clear Hb1 Hb2 Hb3.
  assert (Hlc : length (ItemMatrix.covered rows) = 1).
  { rewrite Hc, length_map.
    rewrite filter_cons_True by done.
    rewrite filter_cons_False by (rewrite Hf2; done).
    rewrite filter_cons_False by (rewrite Hf3; done). reflexivity. }
  assert (Hlu : length (ItemMatrix.uncovered rows) = 2).
  { rewrite Hu, length_map.
    rewrite filter_cons_False by (rewrite Hf1; done).
    rewrite filter_cons_True by done.
    rewrite filter_cons_True by done. reflexivity. }
  assert (Hls : length (ItemMatrix.sorted rows) = 3) by (by rewrite Hs, length_map).
  exists (Spec.emitted matrix_ext rows), rows.
  split; [exact Hrun|]. split; [exact Hrows|]. split; [exact Hlc|]. split; [exact Hlu|].
  split; [by rewrite body_rows_emitted|].
  split; [by rewrite table_colspecs_emitted|].
  rewrite paragraphs_emitted. unfold Spec.statistics_paragraph.
  rewrite Hlc, Hls. reflexivity.
Qed.

(** The counts of the example directive differ, and [run] reports it. *)
Lemma run_example :
  exists node w,
    ItemMatrixDirective.run directive w0 = (inr [node], w) /\
    map w_msg (warnings w)
    = ["Item-matrix directive should have the same number of 'target' attributes as "
         +:+ "'target-title' attributes. Got target: ['TEST', 'REQ'] and targettitle: "
         +:+ "['Tests']"].
Proof. eexists _, _. split; [vm_compute; reflexivity | reflexivity]. Qed.

End Runs.

(** ** The further properties on the example *)

Section FurtherWitnesses.
Import Example.

Lemma defined_item_reference_witness :
  TraceableCollection.get_item (traceability_collection app) "TEST-1"
  = Some (item "TEST-1" "tests" (Some "Login test") false [("validates", ["REQ-1"])]) /\
  exists ref,
    TraceableBaseNode.make_internal_item_ref matrix_ext app "TEST-1" true w0
    = (inr (nodes.element nodes.paragraph "" [ref] []), w0) /\
    nodes.get ref "refuri" = Some (AStr "tests.html#TEST-1") /\
    nodes.get ref "refdocname" = Some (AStr "tests") /\
    nodes.get ref "classes" = Some (AList ["colors_00f"]).
Proof.
  split; [reflexivity|].
  destruct (defined_item_reference matrix_ext app "TEST-1" true
              (item "TEST-1" "tests" (Some "Login test") false [("validates", ["REQ-1"])])
              w0 eq_refl eq_refl)
    as (ref & Hrun & _ & [Huri Hdoc] & Hcls).
  { intros c cs Hc. vm_compute in Hc. injection Hc as <- <-. by eexists. }
  exists ref. split; [exact Hrun|]. split; [exact Huri|]. split; [exact Hdoc | exact Hcls].
Defined.

Lemma caption_shown_or_hidden_witness :
  exists p w' ref inner hover,
    TraceableBaseNode.make_internal_item_ref matrix_ext app "REQ-1" false w0 = (inr p, w') /\
    nodes.children p = [ref] /\
    nodes.children ref = [inner] /\
    nodes.children inner = [Text "REQ-1"; hover] /\
    nodes.get inner "classes" = Some (AList ["has_hidden_caption"]) /\
    nodes.children hover = [Text "Login"] /\
    nodes.get hover "classes" = Some (AList ["popup_caption"]).
Proof.
  destruct (make_internal_item_ref_returns matrix_ext app "REQ-1" false w0)
    as (p & w' & [Hrun _] & _); [apply example_resolves; rewrite !elem_of_cons; auto|].
  destruct (caption_shown_or_hidden matrix_ext app "REQ-1" false
              (item "REQ-1" "requirements" (Some "Login") false
                    [("validated_by", ["TEST-1"]); ("ext_jira", ["PROJ:42"])])
              w0 p w' eq_refl eq_refl ltac:(done) Hrun)
    as (ref & inner & Hp & Href & _ & hover & Hinner & Hcls & _ & Hhover & Hpop).
  exists p, w', ref, inner, hover. split; [exact Hrun|].
  split; [exact Hp|]. split; [exact Href|]. split; [exact Hinner|].
  split; [exact Hcls|]. split; [exact Hhover | exact Hpop].
Defined.

Lemma item_ref_one_child_witness :
  exists p w',
    TraceableBaseNode.make_internal_item_ref matrix_ext app "REQ-9" true w0 = (inr p, w') /\
    has_class nodes.paragraph p = true /\
    replaced w' = replaced w0 /\
    exists child,
      nodes.children p = [child] /\
      ((child = Text "REQ-9 not defined, broken link" /\
        exists wn, warnings w' = warnings w0 ++ [wn]) \/
       (has_class nodes.reference child = true /\ w' = w0)).
Proof.
  destruct (make_internal_item_ref_returns matrix_ext app "REQ-9" true w0)
    as (p & w' & [Hrun _] & _).
  { split; [by eexists|]. intros c cs Hc. vm_compute in Hc. discriminate. }
  exists p, w'. split; [exact Hrun|].
  exact (item_ref_one_child matrix_ext app "REQ-9" true w0 p w' Hrun).
Defined.

Lemma percentage_of_stored_rows_witness :
  let calls := [(Text "a", [], true); (Text "b", [], false); (Text "c", [], false)] in
  (100 * Z.of_nat (length calls) < 2 ^ 53)%Z /\
  exists percentage,
    ItemMatrix.statistics (Spec.stored calls) w0
    = (inr ("Statistics: 1 out of 3 covered: " +:+ Str.of_Z percentage +:+ "%"), w0) /\
    (0 <= percentage <= 100)%Z /\
    percentage <> 100%Z.
Proof.
  cbv zeta. split; [by vm_compute|].
  destruct (percentage_of_stored_rows
              [(Text "a", [], true); (Text "b", [], false); (Text "c", [], false)] w0)
    as (percentage & Hrun & Hbounds & Hfull & _); [by vm_compute|].
  exists percentage. split; [exact Hrun|]. split; [exact Hbounds|].
  intros Heq. apply Hfull in Heq as [_ Hall].
  apply Forall_cons in Hall as [_ Hall]. apply Forall_cons in Hall as [Hb _]. discriminate.
Defined.

Lemma uncovered_rows_are_empty_witness :
  exists rows,
    ItemMatrix.build_rows matrix_ext app collection w0 = (inr rows, w0) /\
    length (ItemMatrix.uncovered rows) = 2 /\
    Forall (fun row => exists left, row = Spec.row_of left (ItemMatrix.empty_rights matrix_ext))
           (ItemMatrix.uncovered rows).
Proof.
  destruct example_run as (top & rows & _ & Hrun & _ & Hlen & _).
  exists rows. split; [exact Hrun|]. split; [exact Hlen|].
  exact (uncovered_rows_are_empty matrix_ext app collection w0 rows w0 Hrun).
Defined.

Lemma covered_rows_show_a_target_witness :
  (forall rel,
      rel ∈ Spec.external_relationships matrix_ext collection ->
      is_Some (traceability_external_relationship_to_url (config app) !! rel)) /\
  exists rows,
    ItemMatrix.build_rows matrix_ext app collection w0 = (inr rows, w0) /\
    length (ItemMatrix.covered rows) = 1 /\
    Forall (fun row => exists left rights,
                row = Spec.row_of left rights /\
                Exists (fun right => nodes.children right <> []) rights)
           (ItemMatrix.covered rows).
Proof.
  assert (Hurl : forall rel,
             rel ∈ Spec.external_relationships matrix_ext collection ->
             is_Some (traceability_external_relationship_to_url (config app) !! rel)).
  { intros rel Hrel. vm_compute in Hrel.
    apply elem_of_cons in Hrel as [->|Hrel]; [by eexists | by apply elem_of_nil in Hrel]. }
  split; [exact Hurl|].
  destruct example_run as (top & rows & _ & Hrun & Hlen & _).
  exists rows. split; [exact Hrun|]. split; [exact Hlen|].
  exact (covered_rows_show_a_target matrix_ext app collection w0 rows w0 Hurl Hrun).
Defined.

Lemma matrix_without_rows_witness :
  Spec.row_sources matrix_ext no_items = [] /\
  exists top,
    ItemMatrix.perform_replacement matrix_ext app no_items w0
    = (inr tt, World [] [top]) /\
    body_rows top = [] /\
    children_of_class nodes.paragraph top
    = [nodes.element nodes.paragraph "" [Text "Statistics: 0 out of 0 covered: 0%"] []].
Proof.
  split; [reflexivity|].
  apply (matrix_without_rows matrix_ext app no_items w0). reflexivity.
Defined.

Lemma url_without_placeholder_witness :
  traceability_external_relationship_to_url (config wiki_app) !! "ext_wiki"
  = Some "https://wiki.example.org/index" /\
  occurs "field" "https://wiki.example.org/index" = false /\
  exists target link,
    TraceableBaseNode.make_external_item_ref wiki_app "PROJ:42" "ext_wiki"
    = Some (nodes.element nodes.paragraph "" [target; link] []) /\
    nodes.get link "refuri" = Some (AStr "https://wiki.example.org/index").
Proof.
  split; [reflexivity|]. split; [reflexivity|].
  destruct (url_without_placeholder wiki_app "PROJ:42" "ext_wiki"
              "https://wiki.example.org/index" eq_refl eq_refl)
    as (target & link & Hrun & _ & _ & Huri).
  exists target, link. split; [exact Hrun | exact Huri].
Defined.

End FurtherWitnesses.

Section ColumnWitnesses.
Import Example.

Lemma internal_targets_fill_their_column_witness :
  exists rights' is_covered' w' refs,
    ItemMatrix.add_internal_targets matrix_ext app collection "REQ-1" ["validated_by"]
      [["TEST-1"]] (ItemMatrix.empty_rights matrix_ext, false) w0
    = (inr (rights', is_covered'), w') /\
    length rights' = 1 /\
    rights' !! 0 = Some (nodes.extend (nodes.element nodes.entry "" [] []) refs) /\
    Forall2 (links_to matrix_ext app)
      (filter (fun target_id =>
                 TraceableCollection.are_related collection "REQ-1" ["validated_by"]
                   target_id = true)
              ["TEST-1"])
      refs.
Proof.
  destruct (fill_cells_returns matrix_ext app (fun target_ids : list string => target_ids)
              (fun _ target_id =>
                 TraceableCollection.are_related collection "REQ-1" ["validated_by"]
                   target_id)
              [["TEST-1"]] false 1 (ItemMatrix.empty_rights matrix_ext) false w0)
    as (rights' & w' & [Hrun _] & _).
  { apply (empty_rights_ok matrix_ext false). }
  { simpl. lia. }
  { intros x target_id Hx Hid _. apply example_resolves.
    apply list_elem_of_singleton in Hx as ->. apply list_elem_of_singleton in Hid as ->.
    rewrite !elem_of_cons. auto. }
  destruct (internal_targets_fill_their_column matrix_ext app collection "REQ-1"
              ["validated_by"] [["TEST-1"]] (ItemMatrix.empty_rights matrix_ext) false w0
              rights' _ w' Hrun)
    as [Hlen Hcells].
  destruct (Hcells 0 (nodes.element nodes.entry "" [] []) eq_refl) as (refs & Hcell & Hrefs).
  eexists rights', _, w', refs. split; [exact Hrun|].
  split; [exact Hlen|]. split; [exact Hcell | exact Hrefs].
Defined.

Lemma matching_targets_fill_their_column_witness :
  exists rights' is_covered' w' refs,
    ItemMatrix.add_matching_targets matrix_ext app ["TEST-1"; "REQ-1"]
      (ItemMatrix.empty_rights matrix_ext, false) w0
    = (inr (rights', is_covered'), w') /\
    length rights' = 1 /\
    rights' !! 0 = Some (nodes.extend (nodes.element nodes.entry "" [] []) refs) /\
    Forall2 (links_to matrix_ext app)
      (filter (fun target_id => re_match "TEST" target_id = true) ["TEST-1"; "REQ-1"])
      refs.
Proof.
  destruct (fill_cells_returns matrix_ext app (fun _ : string => ["TEST-1"; "REQ-1"])
              (fun target_regex => re_match target_regex)
              (attr.target matrix_ext) false 1 (ItemMatrix.empty_rights matrix_ext) false w0)
    as (rights' & w' & [Hrun _] & _).
  { apply (empty_rights_ok matrix_ext false). }
  { simpl. lia. }
  { intros x target_id _ Hid _. apply example_resolves.
    apply elem_of_cons in Hid as [->|Hid]; [|apply list_elem_of_singleton in Hid as ->];
      rewrite !elem_of_cons; auto. }
  destruct (matching_targets_fill_their_column matrix_ext app ["TEST-1"; "REQ-1"]
              (ItemMatrix.empty_rights matrix_ext) false w0 rights' _ w' Hrun)
    as [Hlen Hcells].
  destruct (Hcells 0 (nodes.element nodes.entry "" [] []) eq_refl) as (refs & Hcell & Hrefs).
  eexists rights', _, w', refs. split; [exact Hrun|].
  split; [exact Hlen|]. split; [exact Hcell | exact Hrefs].
Defined.

End ColumnWitnesses.
